(** * DaVinci SPI master controller driver: transfer engine

    A shallow embedding of [drivers/spi/davinci_spi.c] and the properties
    of its clock divisor calculator, transfer setup, error classifier, DMA
    channel allocation and the polled and DMA transfer engines. *)

From Stdlib Require Import ZArith Lia Bool String.
From stdpp Require Import base list.

Local Open Scope Z_scope.

(** ** Fixed-width integers

    The driver runs on a 32-bit ARM9: [u32] and [unsigned long] are 32 bits
    wide, [int] is a 32-bit two's complement integer. *)

Definition u8 (z : Z) : Z := z mod 2 ^ 8.
Definition u16 (z : Z) : Z := z mod 2 ^ 16.
Definition u32 (z : Z) : Z := z mod 2 ^ 32.
Definition s32 (z : Z) : Z :=
  let m := z mod 2 ^ 32 in if m <? 2 ^ 31 then m else m - 2 ^ 32.

(** C truth value of [x & mask]. *)
Definition tst (x mask : Z) : bool := negb (Z.land x mask =? 0).

(** ** Error numbers of the kernel ([asm-generic/errno-base.h], [errno.h]) *)

Definition EIO : Z := 5.
Definition EAGAIN : Z := 11.
Definition ENOMEM : Z := 12.
Definition EBUSY : Z := 16.
Definition EINVAL : Z := 22.
Definition ETIMEDOUT : Z := 110.

(** ** The register map

    [davinci_spi.h] and [mach/spi.h] declare the register offsets, the bit
    masks and the hardware versions.  The driver is embedded over any
    assignment of these constants. *)

Class SpiHeader := {
  (* register offsets *)
  SPIGCR0 : Z; SPIGCR1 : Z; SPIINT : Z; SPILVL : Z; SPIFLG : Z; SPIPC0 : Z;
  SPIDAT1 : Z; SPIBUF : Z; SPIDELAY : Z; SPIDEF : Z; SPIFMT0 : Z;
  (* SPIFMTn *)
  SPIFMT_CHARLEN_MASK : Z;
  (* SPIGCR1 *)
  SPIGCR1_SPIENA_MASK : Z; SPIGCR1_LOOPBACK_MASK : Z;
  (* SPIPC0 *)
  SPIPC0_DIFUN_MASK : Z; SPIPC0_DOFUN_MASK : Z; SPIPC0_CLKFUN_MASK : Z;
  SPIPC0_SPIENA_MASK : Z;
  (* SPIINT *)
  SPIINT_MASKALL : Z; SPIINT_DMA_REQ_EN : Z; SPIINT_BITERR_INTR : Z;
  SPIINT_OVRRUN_INTR : Z; SPIINT_RX_INTR : Z; SPIINT_TX_INTR : Z;
  (* SPIDAT1 and SPIDELAY fields *)
  SPIDAT1_CSHOLD_SHIFT : Z; SPIDAT1_CSNR_SHIFT : Z;
  SPI_C2TDELAY_SHIFT : Z; SPI_T2CDELAY_SHIFT : Z;
  CS_DEFAULT : Z;
  (* SPIBUF *)
  SPIBUF_TXFULL_MASK : Z; SPIBUF_RXEMPTY_MASK : Z;
  (* SPIFLG *)
  SPIFLG_DLEN_ERR_MASK : Z; SPIFLG_TIMEOUT_MASK : Z; SPIFLG_PARERR_MASK : Z;
  SPIFLG_DESYNC_MASK : Z; SPIFLG_BITERR_MASK : Z; SPIFLG_OVRRUN_MASK : Z;
  SPIFLG_RX_INTR_MASK : Z; SPIFLG_TX_INTR_MASK : Z;
  SPIFLG_BUF_INIT_ACTIVE_MASK : Z;
  (* hardware versions and mode bits *)
  SPI_VERSION_1 : Z; SPI_VERSION_2 : Z;
  SPI_NO_CS : Z; SPI_READY : Z; SPI_LOOP : Z
}.

(** The register map of the DaVinci / DA8xx SPI module, used for the
    concrete runs below. *)
Definition davinci_header : SpiHeader := {|
  SPIGCR0 := 0x00; SPIGCR1 := 0x04; SPIINT := 0x08; SPILVL := 0x0c;
  SPIFLG := 0x10; SPIPC0 := 0x14; SPIDAT1 := 0x3c; SPIBUF := 0x40;
  SPIDELAY := 0x48; SPIDEF := 0x4c; SPIFMT0 := 0x50;
  SPIFMT_CHARLEN_MASK := 0x1f;
  SPIGCR1_SPIENA_MASK := 0x01000000; SPIGCR1_LOOPBACK_MASK := 0x10000;
  SPIPC0_DIFUN_MASK := 0x800; SPIPC0_DOFUN_MASK := 0x400;
  SPIPC0_CLKFUN_MASK := 0x200; SPIPC0_SPIENA_MASK := 0x100;
  SPIINT_MASKALL := 0x0101035F; SPIINT_DMA_REQ_EN := 0x10000;
  SPIINT_BITERR_INTR := 0x10; SPIINT_OVRRUN_INTR := 0x40;
  SPIINT_RX_INTR := 0x100; SPIINT_TX_INTR := 0x200;
  SPIDAT1_CSHOLD_SHIFT := 28; SPIDAT1_CSNR_SHIFT := 16;
  SPI_C2TDELAY_SHIFT := 24; SPI_T2CDELAY_SHIFT := 16;
  CS_DEFAULT := 0xFF;
  SPIBUF_TXFULL_MASK := 0x20000000; SPIBUF_RXEMPTY_MASK := 0x80000000;
  SPIFLG_DLEN_ERR_MASK := 0x1; SPIFLG_TIMEOUT_MASK := 0x2;
  SPIFLG_PARERR_MASK := 0x4; SPIFLG_DESYNC_MASK := 0x8;
  SPIFLG_BITERR_MASK := 0x10; SPIFLG_OVRRUN_MASK := 0x40;
  SPIFLG_RX_INTR_MASK := 0x100; SPIFLG_TX_INTR_MASK := 0x200;
  SPIFLG_BUF_INIT_ACTIVE_MASK := 0x1000000;
  SPI_VERSION_1 := 0; SPI_VERSION_2 := 1;
  SPI_NO_CS := 0x40; SPI_READY := 0x80; SPI_LOOP := 0x20
|}.

(** ** Error classifier *)

Section Classifier.
Context {hdr : SpiHeader}.

(** [davinci_spi_check_error]: the return value and the diagnostic that
    [dev_dbg] emits on the branch taken. *)
Definition davinci_spi_check_error (version int_status : Z)
  : Z * option string :=
  if tst int_status SPIFLG_TIMEOUT_MASK then
    (- ETIMEDOUT, Some "SPI Time-out Error"%string)
  else if tst int_status SPIFLG_DESYNC_MASK then
    (- EIO, Some "SPI Desynchronization Error"%string)
  else if tst int_status SPIFLG_BITERR_MASK then
    (- EIO, Some "SPI Bit error"%string)
  else if SPI_VERSION_2 <? version then
    if tst int_status SPIFLG_DLEN_ERR_MASK then
      (- EIO, Some "SPI Data Length Error"%string)
    else if tst int_status SPIFLG_PARERR_MASK then
      (- EIO, Some "SPI Parity Error"%string)
    else if tst int_status SPIFLG_OVRRUN_MASK then
      (- EIO, Some "SPI Data Overrun error"%string)
    else if tst int_status SPIFLG_TX_INTR_MASK then
      (- EIO, Some "SPI TX intr bit set"%string)
    else if tst int_status SPIFLG_BUF_INIT_ACTIVE_MASK then
      (- EBUSY, Some "SPI Buffer Init Active"%string)
    else (0, None)
  else (0, None).

(** The conditions the specification names, in its priority order. *)
Inductive spi_flag :=
| FTimeout | FDesync | FBitErr | FDlenErr | FParErr | FOvrrun | FTxIntr
| FBufInit.

Definition flag_mask (f : spi_flag) : Z :=
  match f with
  | FTimeout => SPIFLG_TIMEOUT_MASK
  | FDesync => SPIFLG_DESYNC_MASK
  | FBitErr => SPIFLG_BITERR_MASK
  | FDlenErr => SPIFLG_DLEN_ERR_MASK
  | FParErr => SPIFLG_PARERR_MASK
  | FOvrrun => SPIFLG_OVRRUN_MASK
  | FTxIntr => SPIFLG_TX_INTR_MASK
  | FBufInit => SPIFLG_BUF_INIT_ACTIVE_MASK
  end.

Definition flag_set (st : Z) (f : spi_flag) : bool := tst st (flag_mask f).






End Classifier.

(** ** Clock divisor calculator *)

(** Lines 151-156 of [davinci_spi_calc_clk_div]: the quotient less one,
    clamped to 0xff, then raised by one when the rate it gives is still
    above [hz].  [None] when [hz] is 0 (division by zero). *)
Definition prescale_round (clk_rate hz : Z) : option Z :=
  if hz =? 0 then None else
  let prescale := u32 (clk_rate / hz - 1) in
  let prescale := if 0xff <? prescale then 0xff else prescale in
  let prescale :=
    if hz <? clk_rate / (prescale + 1) then u32 (prescale + 1) else prescale in
  Some prescale.

(** Lines 158-161: the hardware floor. *)
Definition prescale_floor (prescale : Z) : Z :=
  if prescale <? 2 then 2 else prescale.

(** The value of the local [prescale] when it reaches the register update. *)
Definition calc_prescale (clk_rate hz : Z) : option Z :=
  match prescale_round clk_rate hz with
  | Some prescale => Some (prescale_floor prescale)
  | None => None
  end.

(** ** Driver data *)

(** The word accessors that [get_rx] and [get_tx] point to. *)
Inductive rx_accessor := rx_buf_u8 | rx_buf_u16.
Inductive tx_accessor := tx_buf_u8 | tx_buf_u16.

Record davinci_spi_slave := mk_slave {
  cmd_to_write : Z;
  bytes_per_word : Z
}.

Record davinci_spi_dma := mk_dma {
  dma_tx_channel : Z;
  dma_rx_channel : Z;
  dma_tx_sync_dev : Z;
  dma_rx_sync_dev : Z;
  eventq : Z
}.

Record davinci_spi_platform_data := mk_pdata {
  cs_hold : Z;
  poll_mode : Z;
  c2tdelay : Z;
  t2cdelay : Z
}.

(** [struct davinci_spi].  [tx] and [rx] are cursors (byte offsets) into the
    caller's buffers, [None] is the null pointer.  [slave] and
    [dma_channels] are arrays indexed by chip select; the SPI core keeps
    the chip select below [num_chipselect]. *)
Record davinci_spi := mk_davinci_spi {
  version : Z;
  pbase : Z;
  pdata : davinci_spi_platform_data;
  tx : option nat;
  rx : option nat;
  count : Z;
  get_rx : rx_accessor;
  get_tx : tx_accessor;
  speed : Z;
  cs_num : Z;
  in_use : bool;
  slave : Z -> davinci_spi_slave;
  dma_channels : option (Z -> davinci_spi_dma)
}.

Record spi_device := mk_spi_device {
  chip_select : Z;
  mode : Z;
  bits_per_word : Z;
  max_speed_hz : Z
}.

(** [struct spi_transfer]: a buffer is [None] when its pointer is null,
    otherwise the bytes it points to. *)
Record spi_transfer := mk_spi_transfer {
  tx_buf : option (list Z);
  rx_buf : option (list Z);
  len : Z;
  xfer_bits_per_word : Z;
  speed_hz : Z
}.

Definition upd {A : Type} (f : Z -> A) (i : Z) (a : A) : Z -> A :=
  fun j => if j =? i then a else f j.

Definition set_tx (v : option nat) (s : davinci_spi) : davinci_spi :=
  mk_davinci_spi (version s) (pbase s) (pdata s) v (rx s) (count s) (get_rx s)
    (get_tx s) (speed s) (cs_num s) (in_use s) (slave s) (dma_channels s).
Definition set_rx (v : option nat) (s : davinci_spi) : davinci_spi :=
  mk_davinci_spi (version s) (pbase s) (pdata s) (tx s) v (count s) (get_rx s)
    (get_tx s) (speed s) (cs_num s) (in_use s) (slave s) (dma_channels s).
Definition set_count (v : Z) (s : davinci_spi) : davinci_spi :=
  mk_davinci_spi (version s) (pbase s) (pdata s) (tx s) (rx s) v (get_rx s)
    (get_tx s) (speed s) (cs_num s) (in_use s) (slave s) (dma_channels s).
Definition set_accessors (r : rx_accessor) (t : tx_accessor) (s : davinci_spi)
  : davinci_spi :=
  mk_davinci_spi (version s) (pbase s) (pdata s) (tx s) (rx s) (count s) r t
    (speed s) (cs_num s) (in_use s) (slave s) (dma_channels s).
Definition set_speed (v : Z) (s : davinci_spi) : davinci_spi :=
  mk_davinci_spi (version s) (pbase s) (pdata s) (tx s) (rx s) (count s)
    (get_rx s) (get_tx s) v (cs_num s) (in_use s) (slave s) (dma_channels s).
Definition set_cs_num (v : Z) (s : davinci_spi) : davinci_spi :=
  mk_davinci_spi (version s) (pbase s) (pdata s) (tx s) (rx s) (count s)
    (get_rx s) (get_tx s) (speed s) v (in_use s) (slave s) (dma_channels s).
Definition set_in_use (v : bool) (s : davinci_spi) : davinci_spi :=
  mk_davinci_spi (version s) (pbase s) (pdata s) (tx s) (rx s) (count s)
    (get_rx s) (get_tx s) (speed s) (cs_num s) v (slave s) (dma_channels s).
Definition set_slave (v : Z -> davinci_spi_slave) (s : davinci_spi)
  : davinci_spi :=
  mk_davinci_spi (version s) (pbase s) (pdata s) (tx s) (rx s) (count s)
    (get_rx s) (get_tx s) (speed s) (cs_num s) (in_use s) v (dma_channels s).
Definition set_dma_channels (v : option (Z -> davinci_spi_dma))
  (s : davinci_spi) : davinci_spi :=
  mk_davinci_spi (version s) (pbase s) (pdata s) (tx s) (rx s) (count s)
    (get_rx s) (get_tx s) (speed s) (cs_num s) (in_use s) (slave s) v.

Definition set_bytes_per_word (v : Z) (sl : davinci_spi_slave)
  : davinci_spi_slave := mk_slave (cmd_to_write sl) v.
Definition set_dma_rx_channel (v : Z) (d : davinci_spi_dma) : davinci_spi_dma :=
  mk_dma (dma_tx_channel d) v (dma_tx_sync_dev d) (dma_rx_sync_dev d) (eventq d).
Definition set_dma_tx_channel (v : Z) (d : davinci_spi_dma) : davinci_spi_dma :=
  mk_dma v (dma_rx_channel d) (dma_tx_sync_dev d) (dma_rx_sync_dev d) (eventq d).

(** ** The platform: register window, clock, EDMA, DMA mapping, completions *)

Inductive dma_callback := davinci_spi_dma_rx_callback | davinci_spi_dma_tx_callback.
Inductive dma_buffer := map_tx_buf | map_tmp_buf | map_rx_buf.
Inductive dma_direction := DMA_TO_DEVICE | DMA_FROM_DEVICE.
Inductive completion := done | dma_rx_completion | dma_tx_completion.

Definition DAVINCI_DMA_DATA_TYPE_S8 : Z := 0x01.
Definition DAVINCI_DMA_DATA_TYPE_S16 : Z := 0x02.
Definition DAVINCI_DMA_DATA_TYPE_S32 : Z := 0x04.

(** Calls into the kernel and the EDMA controller.  [ASYNC], [INCR] and
    [W8BIT] are the only modes the driver passes and are left out of the
    arguments. *)
Inductive ext_op :=
| edma_alloc_channel (sync_dev : Z) (cb : dma_callback) (evq : Z)
| edma_free_channel (ch : Z)
| edma_set_transfer_params (ch acnt bcnt ccnt bcnt_rld : Z)
| edma_set_dest (ch addr : Z)
| edma_set_src (ch addr : Z)
| edma_set_src_index (ch bidx cidx : Z)
| edma_set_dest_index (ch bidx cidx : Z)
| edma_start (ch : Z)
| dma_map_single (buf : dma_buffer) (size : Z) (dir : dma_direction)
| dma_mapping_error (addr : Z)
| dma_unmap_single (addr size : Z) (dir : dma_direction)
| init_completion (c : completion)
| INIT_COMPLETION (c : completion)
| complete (c : completion)
| wait_for_completion_interruptible (c : completion).

(** A platform answers register reads, takes register writes, reports the
    module clock and serves the external calls; a call that never returns
    is [None]. *)
Class Platform (D : Type) := {
  ioread32 : Z -> D -> Z * D;
  iowrite32 : Z -> Z -> D -> D;
  clk_get_rate : D -> Z;
  extern : ext_op -> D -> option (Z * D)
}.

(** What the driver does to the outside, in program order. *)
Inductive event :=
| EvWrite (addr val : Z)
| EvLog (msg : string)
| EvInUse (b : bool)
| EvCall (op : ext_op) (r : Z).

(** Why an execution does not return. *)
Inductive stop :=
| DivideByZero | NullPointer | OutOfBounds | SpinForever | Blocked.

Record world (D : Type) := mk_world {
  dspi : davinci_spi;
  tx_mem : list Z;
  rx_mem : list Z;
  dev : D;
  trace : list event
}.
Arguments mk_world {D}.
Arguments dspi {D}.
Arguments tx_mem {D}.
Arguments rx_mem {D}.
Arguments dev {D}.
Arguments trace {D}.

Inductive res (W A : Type) :=
| Ok (a : A) (w : W)
| Stop (s : stop) (w : W).
Arguments Ok {W A}.
Arguments Stop {W A}.

Definition M (D A : Type) : Type := world D -> res (world D) A.

Definition ret {D A} (a : A) : M D A := fun w => Ok a w.
Definition bind {D A B} (m : M D A) (k : A -> M D B) : M D B :=
  fun w => match m w with
           | Ok a w' => k a w'
           | Stop s w' => Stop s w'
           end.
Definition halt {D A} (s : stop) : M D A := fun w => Stop s w.

Declare Scope drv_scope.
Delimit Scope drv_scope with drv.
Notation "x <- m ;; k" := (bind m (fun x => k))
  (at level 100, m at next level, k at level 200, right associativity)
  : drv_scope.
Notation "m ;; k" := (bind m (fun _ => k))
  (at level 100, k at level 200, right associativity) : drv_scope.

Definition gets {D A} (f : davinci_spi -> A) : M D A :=
  fun w => Ok (f (dspi w)) w.
Definition modify {D} (f : davinci_spi -> davinci_spi) : M D unit :=
  fun w => Ok tt (mk_world (f (dspi w)) (tx_mem w) (rx_mem w) (dev w) (trace w)).
Definition emit {D} (e : event) : M D unit :=
  fun w => Ok tt (mk_world (dspi w) (tx_mem w) (rx_mem w) (dev w) (trace w ++ [e])).
Definition set_dev {D} (d : D) (w : world D) : world D :=
  mk_world (dspi w) (tx_mem w) (rx_mem w) d (trace w).
Definition set_rx_mem {D} (m : list Z) (w : world D) : world D :=
  mk_world (dspi w) (tx_mem w) m (dev w) (trace w).
Definition load_bufs {D} (t : spi_transfer) : M D unit :=
  fun w => Ok tt (mk_world (dspi w) (default [] (tx_buf t))
                    (default [] (rx_buf t)) (dev w) (trace w)).

(** ** The driver *)

Section Driver.
Context {hdr : SpiHeader} {D : Type} {plat : Platform D}.
Local Open Scope drv_scope.

Definition rd (addr : Z) : M D Z :=
  fun w => let '(v, d) := ioread32 addr (dev w) in Ok (u32 v) (set_dev d w).

Definition wr (val addr : Z) : M D unit :=
  fun w => Ok tt (mk_world (dspi w) (tx_mem w) (rx_mem w)
                    (iowrite32 (u32 val) addr (dev w))
                    (trace w ++ [EvWrite addr (u32 val)])).

Definition call (op : ext_op) : M D Z :=
  fun w => match extern op (dev w) with
           | Some (r, d) =>
               Ok r (mk_world (dspi w) (tx_mem w) (rx_mem w) d
                       (trace w ++ [EvCall op r]))
           | None => Stop Blocked w
           end.

Definition dev_dbg (msg : string) : M D unit := emit (EvLog msg).
Definition pr_info (msg : string) : M D unit := emit (EvLog msg).

Definition when (b : bool) (m : M D unit) : M D unit :=
  if b then m else ret tt.

(** *** Word accessors *)

(** Loads from the transmit buffer and stores to the receive buffer, one
    byte or one little-endian halfword at byte offset [i]; an access past
    the end of the buffer stops the execution. *)
Definition load8 (i : nat) : M D Z :=
  fun w => match tx_mem w !! i with
           | Some b => Ok (u8 b) w
           | None => Stop OutOfBounds w
           end.

Definition load16 (i : nat) : M D Z :=
  fun w => match tx_mem w !! i, tx_mem w !! S i with
           | Some lo, Some hi => Ok (u8 lo + 2 ^ 8 * u8 hi) w
           | _, _ => Stop OutOfBounds w
           end.

Definition store8 (i : nat) (data : Z) : M D unit :=
  fun w => if (i <? length (rx_mem w))%nat
           then Ok tt (set_rx_mem (<[i := data]> (rx_mem w)) w)
           else Stop OutOfBounds w.

Definition store16 (i : nat) (data : Z) : M D unit :=
  fun w => if (i + 1 <? length (rx_mem w))%nat
           then Ok tt (set_rx_mem (<[S i := u8 (data / 2 ^ 8)]>
                                     (<[i := u8 data]> (rx_mem w))) w)
           else Stop OutOfBounds w.

Definition davinci_spi_rx_buf_u8 (data : Z) : M D unit :=
  p <- gets rx ;;
  match p with
  | None => halt NullPointer
  | Some i =>
      store8 i (u8 data) ;;
      modify (set_rx (Some (i + 1)%nat))
  end.

Definition davinci_spi_rx_buf_u16 (data : Z) : M D unit :=
  p <- gets rx ;;
  match p with
  | None => halt NullPointer
  | Some i =>
      store16 i (u16 data) ;;
      modify (set_rx (Some (i + 2)%nat))
  end.

Definition davinci_spi_tx_buf_u8 : M D Z :=
  p <- gets tx ;;
  match p with
  | None => halt NullPointer
  | Some i =>
      data <- load8 i ;;
      modify (set_tx (Some (i + 1)%nat)) ;;
      ret data
  end.

Definition davinci_spi_tx_buf_u16 : M D Z :=
  p <- gets tx ;;
  match p with
  | None => halt NullPointer
  | Some i =>
      data <- load16 i ;;
      modify (set_tx (Some (i + 2)%nat)) ;;
      ret data
  end.

(** The calls through the [get_rx] and [get_tx] pointers. *)
Definition call_get_rx (data : Z) : M D unit :=
  f <- gets get_rx ;;
  match f with
  | rx_buf_u8 => davinci_spi_rx_buf_u8 data
  | rx_buf_u16 => davinci_spi_rx_buf_u16 data
  end.

Definition call_get_tx : M D Z :=
  f <- gets get_tx ;;
  match f with
  | tx_buf_u8 => davinci_spi_tx_buf_u8
  | tx_buf_u16 => davinci_spi_tx_buf_u16
  end.

(** *** Register access layer *)

Definition set_io_bits (addr bits : Z) : M D unit :=
  v <- rd addr ;;
  wr (Z.lor v bits) addr.

Definition clear_io_bits (addr bits : Z) : M D unit :=
  v <- rd addr ;;
  wr (Z.land v (Z.lnot bits)) addr.

Definition set_fmt_bits (bits cs : Z) : M D unit :=
  set_io_bits (SPIFMT0 + 0x4 * cs) bits.

Definition clear_fmt_bits (bits cs : Z) : M D unit :=
  clear_io_bits (SPIFMT0 + 0x4 * cs) bits.

(** [while (cond(ioread32(addr))) cpu_relax();] with at most [fuel] polls. *)
Fixpoint spin_while (fuel : nat) (addr : Z) (cond : Z -> bool) : M D unit :=
  match fuel with
  | O => halt SpinForever
  | S n =>
      v <- rd addr ;;
      if cond v then spin_while n addr cond else ret tt
  end.

(** *** Clock divisor *)

(** [clk_get_rate(davinci_spi->clk)] as an [unsigned long]. *)
Definition get_clk_rate : M D Z :=
  fun w => Ok (u32 (clk_get_rate (dev w))) w.

Definition davinci_spi_calc_clk_div : M D unit :=
  cs <- gets cs_num ;;
  hz <- gets (fun s => u32 (speed s)) ;;
  clk_rate <- get_clk_rate ;;
  match prescale_round clk_rate hz with
  | None => halt DivideByZero
  | Some prescale =>
      when (prescale <? 2)
        (pr_info "davinci SPI controller min. prescale value is 2") ;;
      let prescale := prescale_floor prescale in
      clear_fmt_bits 0x0000ff00 cs ;;
      set_fmt_bits (Z.shiftl prescale 8) cs
  end.

(** *** Transfer setup *)

(** The local [bits_per_word] after the default is substituted. *)
Definition effective_bits_per_word (spi : spi_device)
  (t : option spi_transfer) : Z :=
  let bpw := match t with Some t => u8 (xfer_bits_per_word t) | None => 0 end in
  if bpw =? 0 then u8 (bits_per_word spi) else bpw.

Definition davinci_spi_setup_transfer (spi : spi_device)
  (t : option spi_transfer) : M D Z :=
  let hz := match t with Some t => u32 (speed_hz t) | None => 0 end in
  let bpw := effective_bits_per_word spi t in
  let bind_width (r : rx_accessor) (x : tx_accessor) (n : Z) : M D unit :=
    modify (set_accessors r x) ;;
    modify (fun s => set_slave (upd (slave s) (chip_select spi)
                      (set_bytes_per_word n (slave s (chip_select spi)))) s) in
  let finish : M D Z :=
    let hz := if hz =? 0 then u32 (max_speed_hz spi) else hz in
    modify (set_speed hz) ;;
    modify (set_cs_num (chip_select spi)) ;;
    clear_fmt_bits SPIFMT_CHARLEN_MASK (chip_select spi) ;;
    set_fmt_bits (Z.land bpw 0x1f) (chip_select spi) ;;
    davinci_spi_calc_clk_div ;;
    ret 0 in
  if (bpw <=? 8) && (2 <=? bpw) then
    bind_width rx_buf_u8 tx_buf_u8 1 ;; finish
  else if (bpw <=? 16) && (2 <=? bpw) then
    bind_width rx_buf_u16 tx_buf_u16 2 ;; finish
  else ret (- EINVAL).

(** *** DMA channel allocation *)

Definition the_dma (spi : spi_device) : M D davinci_spi_dma :=
  c <- gets dma_channels ;;
  match c with
  | None => halt NullPointer
  | Some chans => ret (chans (chip_select spi))
  end.

Definition modify_dma (spi : spi_device)
  (f : davinci_spi_dma -> davinci_spi_dma) : M D unit :=
  modify (fun s =>
    set_dma_channels
      (option_map (fun chans => upd chans (chip_select spi)
                                  (f (chans (chip_select spi))))
         (dma_channels s)) s).

Definition davinci_spi_request_dma (spi : spi_device) : M D Z :=
  d <- the_dma spi ;;
  r <- call (edma_alloc_channel (dma_rx_sync_dev d)
               davinci_spi_dma_rx_callback (eventq d)) ;;
  let r := s32 r in
  if r <? 0 then
    dev_dbg "Unable to request DMA channel for SPI RX" ;;
    ret (- EAGAIN)
  else
    modify_dma spi (set_dma_rx_channel r) ;;
    r <- call (edma_alloc_channel (dma_tx_sync_dev d)
                 davinci_spi_dma_tx_callback (eventq d)) ;;
    let r := s32 r in
    if r <? 0 then
      d <- the_dma spi ;;
      call (edma_free_channel (dma_rx_channel d)) ;;
      modify_dma spi (set_dma_rx_channel (-1)) ;;
      dev_dbg "Unable to request DMA channel for SPI TX" ;;
      ret (- EAGAIN)
    else
      modify_dma spi (set_dma_tx_channel r) ;;
      ret 0.

(** *** Transfer engines *)

Definition davinci_spi_set_dma_req (enable : bool) : M D unit :=
  if enable then set_io_bits SPIINT SPIINT_DMA_REQ_EN
  else clear_io_bits SPIINT SPIINT_DMA_REQ_EN.

Definition davinci_spi_bufs_prep (spi : spi_device) : M D Z :=
  let op_mode :=
    Z.lor (Z.lor SPIPC0_DIFUN_MASK SPIPC0_DOFUN_MASK) SPIPC0_CLKFUN_MASK in
  let op_mode :=
    if tst (mode spi) SPI_NO_CS then op_mode
    else Z.lor op_mode (Z.shiftl 1 (chip_select spi)) in
  let op_mode :=
    if tst (mode spi) SPI_READY then Z.lor op_mode SPIPC0_SPIENA_MASK
    else op_mode in
  wr op_mode SPIPC0 ;;
  (if tst (mode spi) SPI_LOOP
   then set_io_bits SPIGCR1 SPIGCR1_LOOPBACK_MASK
   else clear_io_bits SPIGCR1 SPIGCR1_LOOPBACK_MASK) ;;
  ret 0.

Definition assign_in_use (b : bool) : M D unit :=
  modify (set_in_use b) ;; emit (EvInUse b).

(** Lines 560-565 and 711-716: bind the cursors and convert the length to
    words; the result is [conv]. *)
Definition bind_cursors (spi : spi_device) (t : spi_transfer) : M D Z :=
  load_bufs t ;;
  modify (set_tx (option_map (fun _ => O) (tx_buf t))) ;;
  modify (set_rx (option_map (fun _ => O) (rx_buf t))) ;;
  sl <- gets slave ;;
  let conv := u8 (bytes_per_word (sl (chip_select spi))) in
  if conv =? 0 then halt DivideByZero
  else
    modify (set_count (s32 (u32 (len t) / conv))) ;;
    ret conv.

(** The command word with the chip select bits, and the write that clears
    the default chip select level (lines 582-587 and 745-752). *)
Definition prime_cs (spi : spi_device) : M D Z :=
  pd <- gets pdata ;;
  let data1_reg_val := u32 (Z.shiftl (cs_hold pd) SPIDAT1_CSHOLD_SHIFT) in
  let tmp := u8 (Z.lnot (Z.shiftl 0x1 (chip_select spi))) in
  clear_io_bits SPIDEF (u32 (Z.lnot tmp)) ;;
  ret (u32 (Z.lor data1_reg_val (Z.shiftl tmp SPIDAT1_CSNR_SHIFT))).

Definition write_delay : M D unit :=
  pd <- gets pdata ;;
  wr (Z.lor (Z.lor 0 (Z.shiftl (c2tdelay pd) SPI_C2TDELAY_SHIFT))
        (Z.shiftl (t2cdelay pd) SPI_T2CDELAY_SHIFT)) SPIDELAY.

(** The label [out] of both engines. *)
Definition bufs_out (t : spi_transfer) (r : Z) : M D Z :=
  assign_in_use false ;;
  call (complete done) ;;
  ret (if r =? 0 then s32 (len t) else r).

(** Status read, classification and the conversion back to bytes, then
    [out] (lines 669-681 and 850-862). *)
Definition bufs_finish (t : spi_transfer) (conv : Z) : M D Z :=
  int_status <- rd SPIFLG ;;
  v <- gets version ;;
  let '(r, msg) := davinci_spi_check_error v (s32 int_status) in
  match msg with Some m => dev_dbg m | None => ret tt end ;;
  (if r =? 0
   then modify (fun s => set_count (s32 (count s * conv)) s)
   else ret tt) ;;
  bufs_out t r.

(** One pass of the loop of the transmit path (lines 598-618); the result
    is the command word and the remaining count. *)
Definition pio_tx_iter (fuel : nat) (t : spi_transfer)
  (data1_reg_val count : Z) : M D (Z * Z) :=
  tx_data <- call_get_tx ;;
  let data1_reg_val := Z.land data1_reg_val (u32 (Z.lnot 0xFFFF)) in
  let data1_reg_val := Z.lor data1_reg_val (Z.land 0xFFFF tx_data) in
  buf_val <- rd SPIBUF ;;
  count <- (if Z.land buf_val SPIBUF_TXFULL_MASK =? 0
            then wr data1_reg_val SPIDAT1 ;; ret (s32 (count - 1))
            else ret count) ;;
  spin_while fuel SPIBUF (fun v => tst v SPIBUF_RXEMPTY_MASK) ;;
  match rx_buf t with
  | Some _ => buf_val <- rd SPIBUF ;; call_get_rx buf_val
  | None => ret tt
  end ;;
  ret (data1_reg_val, count).

Fixpoint pio_tx_loop (fuel n : nat) (t : spi_transfer)
  (data1_reg_val count : Z) : M D (Z * Z) :=
  match n with
  | O => halt SpinForever
  | S n' =>
      p <- pio_tx_iter fuel t data1_reg_val count ;;
      if snd p <=? 0 then ret p
      else pio_tx_loop fuel n' t (fst p) (snd p)
  end.

(** One pass of the receive-only polling loop (lines 625-640). *)
Definition pio_poll_iter (fuel : nat) (data1_reg_val count : Z) : M D Z :=
  v <- rd SPIBUF ;;
  when (Z.land v SPIBUF_TXFULL_MASK =? 0) (wr data1_reg_val SPIDAT1) ;;
  spin_while fuel SPIBUF (fun v => tst v SPIBUF_RXEMPTY_MASK) ;;
  flg_val <- rd SPIFLG ;;
  buf_val <- rd SPIBUF ;;
  call_get_rx buf_val ;;
  ret (s32 (count - 1)).

Fixpoint pio_poll_loop (fuel n : nat) (data1_reg_val count : Z) : M D Z :=
  match n with
  | O => halt SpinForever
  | S n' =>
      c <- pio_poll_iter fuel data1_reg_val count ;;
      if c <=? 0 then ret c else pio_poll_loop fuel n' data1_reg_val c
  end.

(** The [for] loop of the interrupt sub-mode (lines 647-659), [n] passes.
    The handler that captures the data runs in another context and is not
    part of this thread. *)
Fixpoint pio_irq_loop (fuel n : nat) (data1_reg_val : Z) : M D unit :=
  match n with
  | O => ret tt
  | S n' =>
      set_io_bits SPIINT
        (Z.lor (Z.lor SPIINT_BITERR_INTR SPIINT_OVRRUN_INTR) SPIINT_RX_INTR) ;;
      wr data1_reg_val SPIDAT1 ;;
      spin_while fuel SPIINT (fun v => tst v SPIINT_RX_INTR) ;;
      pio_irq_loop fuel n' data1_reg_val
  end.

Definition davinci_spi_bufs_pio (fuel : nat) (spi : spi_device)
  (t : spi_transfer) : M D Z :=
  conv <- bind_cursors spi t ;;
  r <- davinci_spi_bufs_prep spi ;;
  if negb (r =? 0) then ret r
  else
    call (INIT_COMPLETION done) ;;
    assign_in_use true ;;
    set_io_bits SPIGCR1 SPIGCR1_SPIENA_MASK ;;
    write_delay ;;
    cnt <- gets count ;;
    data1_reg_val <- prime_cs spi ;;
    spin_while fuel SPIBUF (fun v => Z.land v SPIBUF_RXEMPTY_MASK =? 0) ;;
    match tx_buf t with
    | Some _ =>
        clear_io_bits SPIINT SPIINT_MASKALL ;;
        pio_tx_loop fuel fuel t data1_reg_val cnt ;;
        ret tt
    | None =>
        pd <- gets pdata ;;
        if negb (u8 (poll_mode pd) =? 0) then
          pio_poll_loop fuel fuel data1_reg_val cnt ;;
          ret tt
        else
          n <- gets count ;;
          pio_irq_loop fuel (Z.to_nat n) data1_reg_val ;;
          wr (Z.land data1_reg_val 0x0ffcffff) SPIDAT1
    end ;;
    bufs_finish t conv.

(** Lines 767-789: map the transmit buffer, or the scratch buffer when
    there is none; the result is the mapping and [temp_count], [None] when
    the mapping failed. *)
Definition dma_map_tx (t : spi_transfer) (count : Z)
  : M D (option (Z * Z)) :=
  match tx_buf t with
  | Some _ =>
      tx_dma <- call (dma_map_single map_tx_buf count DMA_TO_DEVICE) ;;
      e <- call (dma_mapping_error tx_dma) ;;
      if negb (e =? 0) then
        dev_dbg "Unable to DMA map a %d bytes TX buffer" ;;
        ret None
      else ret (Some (tx_dma, count))
  | None =>
      tx_dma <- call (dma_map_single map_tmp_buf (count + 1) DMA_TO_DEVICE) ;;
      e <- call (dma_mapping_error tx_dma) ;;
      if negb (e =? 0) then
        dev_dbg "Unable to DMA map a %d bytes TX tmp buffer" ;;
        ret None
      else ret (Some (tx_dma, s32 (count + 1)))
  end.

(** Lines 798-822: the receive side; [None] when the mapping failed. *)
Definition dma_setup_rx (t : spi_transfer) (spi : spi_device)
  (data1_reg_val data_type count tx_dma rx_reg : Z) : M D (option Z) :=
  match rx_buf t with
  | None => ret (Some 0)
  | Some _ =>
      wr data1_reg_val SPIDAT1 ;;
      rx_dma <- call (dma_map_single map_rx_buf count DMA_FROM_DEVICE) ;;
      e <- call (dma_mapping_error rx_dma) ;;
      if negb (e =? 0) then
        dev_dbg "Couldn't DMA map a %d bytes RX buffer" ;;
        match tx_buf t with
        | Some _ => call (dma_unmap_single tx_dma count DMA_TO_DEVICE) ;; ret tt
        | None => ret tt
        end ;;
        ret None
      else
        d <- the_dma spi ;;
        call (edma_set_transfer_params (dma_rx_channel d) data_type count 1 0) ;;
        call (edma_set_src (dma_rx_channel d) rx_reg) ;;
        call (edma_set_dest (dma_rx_channel d) rx_dma) ;;
        call (edma_set_src_index (dma_rx_channel d) 0 0) ;;
        call (edma_set_dest_index (dma_rx_channel d) data_type 0) ;;
        ret (Some rx_dma)
  end.

(** Lines 824-844: start the channels, wait for them, unmap. *)
Definition dma_run (t : spi_transfer) (spi : spi_device)
  (count temp_count tx_dma rx_dma : Z) : M D unit :=
  let has_tx := bool_decide (is_Some (tx_buf t)) in
  let has_rx := bool_decide (is_Some (rx_buf t)) in
  d <- the_dma spi ;;
  when (has_tx || has_rx) (call (edma_start (dma_tx_channel d)) ;; ret tt) ;;
  when has_rx (call (edma_start (dma_rx_channel d)) ;; ret tt) ;;
  when (has_rx || has_tx) (davinci_spi_set_dma_req true) ;;
  when has_tx
    (call (wait_for_completion_interruptible dma_tx_completion) ;; ret tt) ;;
  when has_rx
    (call (wait_for_completion_interruptible dma_rx_completion) ;; ret tt) ;;
  call (dma_unmap_single tx_dma temp_count DMA_TO_DEVICE) ;;
  when has_rx (call (dma_unmap_single rx_dma count DMA_FROM_DEVICE) ;; ret tt).

Definition davinci_spi_bufs_dma (fuel : nat) (spi : spi_device)
  (t : spi_transfer) : M D Z :=
  pb <- gets pbase ;;
  let tx_reg := u32 (pb + SPIDAT1) in
  let rx_reg := u32 (pb + SPIBUF) in
  conv <- bind_cursors spi t ;;
  the_dma spi ;;
  call (init_completion dma_rx_completion) ;;
  call (init_completion dma_tx_completion) ;;
  let word_len := conv * 8 in
  let data_type :=
    if word_len <=? 8 then Some DAVINCI_DMA_DATA_TYPE_S8
    else if word_len <=? 16 then Some DAVINCI_DMA_DATA_TYPE_S16
    else if word_len <=? 32 then Some DAVINCI_DMA_DATA_TYPE_S32
    else None in
  match data_type with
  | None => ret (- EINVAL)
  | Some data_type =>
      r <- davinci_spi_bufs_prep spi ;;
      if negb (r =? 0) then ret (- EINVAL)
      else
        call (INIT_COMPLETION done) ;;
        assign_in_use true ;;
        write_delay ;;
        cnt <- gets count ;;
        data1_reg_val <- prime_cs spi ;;
        clear_io_bits SPIINT SPIINT_MASKALL ;;
        clear_io_bits SPIGCR1 SPIGCR1_SPIENA_MASK ;;
        wr data1_reg_val SPIDAT1 ;;
        set_io_bits SPIGCR1 SPIGCR1_SPIENA_MASK ;;
        spin_while fuel SPIBUF (fun v => Z.land v SPIBUF_RXEMPTY_MASK =? 0) ;;
        m <- dma_map_tx t cnt ;;
        match m with
        | None => bufs_out t (- ENOMEM)
        | Some (tx_dma, temp_count) =>
            d <- the_dma spi ;;
            call (edma_set_transfer_params (dma_tx_channel d) data_type
                    temp_count 1 0) ;;
            call (edma_set_dest (dma_tx_channel d) tx_reg) ;;
            call (edma_set_src (dma_tx_channel d) tx_dma) ;;
            call (edma_set_src_index (dma_tx_channel d) data_type 0) ;;
            call (edma_set_dest_index (dma_tx_channel d) 0 0) ;;
            x <- dma_setup_rx t spi data1_reg_val data_type cnt tx_dma
                   rx_reg ;;
            match x with
            | None => bufs_out t (- ENOMEM)
            | Some rx_dma =>
                dma_run t spi cnt temp_count tx_dma rx_dma ;;
                bufs_finish t conv
            end
        end
  end.

End Driver.

(** ** A simulated register model

    Successive reads of [SPIBUF] follow a script and then stay at an idle
    value, [SPIFLG] reads a fixed status, every other register keeps the
    last value written.  Channel allocations and buffer mappings follow
    scripts too; a mapping whose address is all ones is a mapping error. *)

Record sim := mk_sim {
  sim_regs : Z -> Z;
  sim_spibuf : list Z;
  sim_spibuf_idle : Z;
  sim_spiflg : Z;
  sim_clk : Z;
  sim_alloc : list Z;
  sim_maps : list Z
}.

Definition sim_read (addr : Z) (d : sim) : Z * sim :=
  if addr =? @SPIBUF davinci_header then
    match sim_spibuf d with
    | v :: rest =>
        (v, mk_sim (sim_regs d) rest (sim_spibuf_idle d) (sim_spiflg d)
              (sim_clk d) (sim_alloc d) (sim_maps d))
    | [] => (sim_spibuf_idle d, d)
    end
  else if addr =? @SPIFLG davinci_header then (sim_spiflg d, d)
  else (sim_regs d addr, d).

Definition sim_write (val addr : Z) (d : sim) : sim :=
  mk_sim (upd (sim_regs d) addr val) (sim_spibuf d) (sim_spibuf_idle d)
    (sim_spiflg d) (sim_clk d) (sim_alloc d) (sim_maps d).

Definition sim_extern (op : ext_op) (d : sim) : option (Z * sim) :=
  match op with
  | edma_alloc_channel _ _ _ =>
      match sim_alloc d with
      | r :: rest =>
          Some (r, mk_sim (sim_regs d) (sim_spibuf d) (sim_spibuf_idle d)
                     (sim_spiflg d) (sim_clk d) rest (sim_maps d))
      | [] => Some (-1, d)
      end
  | dma_map_single _ _ _ =>
      match sim_maps d with
      | a :: rest =>
          Some (a, mk_sim (sim_regs d) (sim_spibuf d) (sim_spibuf_idle d)
                     (sim_spiflg d) (sim_clk d) (sim_alloc d) rest)
      | [] => Some (0xFFFFFFFF, d)
      end
  | dma_mapping_error a => Some (if a =? 0xFFFFFFFF then 1 else 0, d)
  | _ => Some (0, d)
  end.

#[global] Instance sim_platform : Platform sim := {|
  ioread32 := sim_read;
  iowrite32 := sim_write;
  clk_get_rate := sim_clk;
  extern := sim_extern
|}.

(** An idle controller of version [SPI_VERSION_2] on a 150 MHz module
    clock, with two chip selects and no DMA channel allocated. *)
Definition idle_slave : davinci_spi_slave := mk_slave 0 1.
Definition idle_dma : davinci_spi_dma := mk_dma (-1) (-1) 17 16 1.
Definition idle_pdata : davinci_spi_platform_data := mk_pdata 0 1 0 0.

Definition idle_spi : davinci_spi :=
  mk_davinci_spi 1 0x01C66000 idle_pdata None None 0 rx_buf_u8 tx_buf_u8
    0 0 false (fun _ => idle_slave) (Some (fun _ => idle_dma)).

Definition idle_sim : sim :=
  mk_sim (fun _ => 0) [] 0x80000000 0 150000000 [] [].

Definition idle_world : world sim := mk_world idle_spi [] [] idle_sim [].

Definition spi0 : spi_device := mk_spi_device 0 0 8 1000000.

(** The world whose [SPIBUF] reads follow [script], with status [flg] and
    the allocation and mapping scripts [alloc] and [maps]. *)
Definition scripted_world (script : list Z) (flg : Z) (alloc maps : list Z)
  : world sim :=
  mk_world idle_spi [] []
    (mk_sim (fun _ => 0) script 0x80000000 flg 150000000 alloc maps) [].

(** Two bytes at 8 bits per word, full duplex. *)
Definition xfer_two_bytes : spi_transfer :=
  mk_spi_transfer (Some [0x12; 0x34]) (Some [0; 0]) 2 8 1000000.

(** [SPIBUF] as a looped-back controller shows it for [xfer_two_bytes]:
    idle, then per word room in the transmit FIFO, the received word, and
    the received word read. *)
Definition loopback_script : list Z :=
  [0x80000000; 0x80000000; 0x12; 0x12; 0x80000000; 0x34; 0x34].

(** ** Observations on executions *)

Definition res_world {W A} (r : res W A) : W :=
  match r with Ok _ w => w | Stop _ w => w end.

(** The events an execution from [w] to [w'] added. *)
Definition new_events {D} (w w' : world D) : list event :=
  drop (length (trace w)) (trace w').

(** The 16-bit data fields of the command words written to the register at
    [dat1], in order. *)
Fixpoint data_words (dat1 : Z) (tr : list event) : list Z :=
  match tr with
  | [] => []
  | EvWrite a v :: tr' =>
      if a =? dat1 then Z.land v 0xFFFF :: data_words dat1 tr'
      else data_words dat1 tr'
  | _ :: tr' => data_words dat1 tr'
  end.

(** The registers written, in order. *)
Fixpoint writes (tr : list event) : list (Z * Z) :=
  match tr with
  | [] => []
  | EvWrite a v :: tr' => (a, v) :: writes tr'
  | _ :: tr' => writes tr'
  end.

Definition not_write (e : event) : bool :=
  match e with EvWrite _ _ => false | _ => true end.

Definition is_in_use_event (e : event) : bool :=
  match e with EvInUse _ => true | _ => false end.

(** The in-flight flag is clear and the trace ends with its release and
    the completion signal. *)
Definition released {D} (w : world D) : Prop :=
  in_use (dspi w) = false /\
  exists l x, trace w = l ++ [EvInUse false; EvCall (complete done) x].

(** From [w] to [w'] the driver data changed within [P] and only events
    accepted by [E] were added. *)
Definition frame {D} (P : davinci_spi -> davinci_spi -> Prop)
  (E : event -> bool) (w w' : world D) : Prop :=
  P (dspi w) (dspi w') /\
  exists l, trace w' = trace w ++ l /\ forallb E l = true.

(** From [w] to [w'] the in-flight flag was not assigned. *)
Definition quiet {D} : world D -> world D -> Prop :=
  frame (fun s s' => in_use s' = in_use s)
        (fun e => negb (is_in_use_event e)).

(** Released at the end, or the in-flight flag never assigned. *)
Definition released_or_quiet {D A} (w : world D) (_ : A) (w' : world D)
  : Prop :=
  released w' \/ quiet w w'.

(** Where [m] ends, by return or stop, is related by [R] to where it
    starts. *)
Definition keeps {D A} (R : world D -> world D -> Prop) (m : M D A) : Prop :=
  forall w, R w (res_world (m w)).

(** Every returning execution of [m] satisfies [Q]. *)
Definition returns {D A} (m : M D A) (Q : world D -> A -> world D -> Prop)
  : Prop :=
  forall w a w', m w = Ok a w' -> Q w a w'.

(** The RX/TX channel pair of a chip select. *)
Definition pair_unallocated (d : davinci_spi_dma) : Prop :=
  dma_rx_channel d = -1 /\ dma_tx_channel d = -1.
Definition pair_allocated (d : davinci_spi_dma) : Prop :=
  dma_rx_channel d <> -1 /\ dma_tx_channel d <> -1.

(** ** The rest of the driver: chip select, setup, cleanup, interrupt *)

(** The constants of [davinci_spi.h], [linux/spi/spi.h],
    [linux/spi/spi_bitbang.h] and [linux/interrupt.h] that only these
    routines use. *)
Class SpiHeaderMore := {
  SPIFMT_PHASE_MASK : Z; SPIFMT_POLARITY_MASK : Z; SPIFMT_DISTIMER_MASK : Z;
  SPIFMT_SHIFTDIR_MASK : Z; SPIFMT_WAITENA_MASK : Z;
  SPIFMT_PARITYENA_MASK : Z; SPIFMT_ODD_PARITY_MASK : Z;
  SPIFMT_WDELAY_MASK : Z; SPIFMT_WDELAY_SHIFT : Z;
  SPI_CPHA : Z; SPI_CPOL : Z; SPI_LSB_FIRST : Z;
  BITBANG_CS_INACTIVE : Z;
  IRQ_NONE : Z; IRQ_HANDLED : Z
}.

Definition davinci_header_more : SpiHeaderMore := {|
  SPIFMT_PHASE_MASK := 0x10000; SPIFMT_POLARITY_MASK := 0x20000;
  SPIFMT_DISTIMER_MASK := 0x40000; SPIFMT_SHIFTDIR_MASK := 0x100000;
  SPIFMT_WAITENA_MASK := 0x200000; SPIFMT_PARITYENA_MASK := 0x400000;
  SPIFMT_ODD_PARITY_MASK := 0x800000;
  SPIFMT_WDELAY_MASK := 0x3f000000; SPIFMT_WDELAY_SHIFT := 24;
  SPI_CPHA := 0x01; SPI_CPOL := 0x02; SPI_LSB_FIRST := 0x08;
  BITBANG_CS_INACTIVE := 0;
  IRQ_NONE := 0; IRQ_HANDLED := 1
|}.

(** The fields of [struct davinci_spi_platform_data] that only
    [davinci_spi_setup] reads. *)
Record davinci_spi_fmt_pdata := mk_fmt_pdata {
  wdelay : Z;
  odd_parity : Z;
  parity_enable : Z;
  wait_enable : Z;
  timer_disable : Z
}.

Definition set_cmd_to_write (v : Z) (sl : davinci_spi_slave)
  : davinci_spi_slave := mk_slave v (bytes_per_word sl).

Definition set_bits_per_word (v : Z) (spi : spi_device) : spi_device :=
  mk_spi_device (chip_select spi) (mode spi) v (max_speed_hz spi).

Section DriverMore.
Context {hdr : SpiHeader} {more : SpiHeaderMore} {D : Type}
  {plat : Platform D}.
Local Open Scope drv_scope.

(** [davinci_spi_chipselect], its busy wait bounded by [fuel]. *)
Definition davinci_spi_chipselect (fuel : nat) (spi : spi_device)
  (value : Z) : M D unit :=
  let data1_reg_val := 0 in
  if value =? BITBANG_CS_INACTIVE then
    set_io_bits SPIDEF CS_DEFAULT ;;
    let data1_reg_val :=
      u32 (Z.lor data1_reg_val (Z.shiftl CS_DEFAULT SPIDAT1_CSNR_SHIFT)) in
    wr data1_reg_val SPIDAT1 ;;
    spin_while fuel SPIBUF (fun v => Z.land v SPIBUF_RXEMPTY_MASK =? 0)
  else ret tt.

(** [if (cond) set_fmt_bits(...) else clear_fmt_bits(...)]. *)
Definition fmt_bit (cond : bool) (mask cs : Z) : M D unit :=
  if cond then set_fmt_bits mask cs else clear_fmt_bits mask cs.

(** [davinci_spi_setup].  The file-scope [use_dma] is an argument; the
    result is the return value and [spi] with the default word width
    filled in. *)
Definition davinci_spi_setup (use_dma : Z) (fp : davinci_spi_fmt_pdata)
  (spi : spi_device) : M D (Z * spi_device) :=
  let spi :=
    if u8 (bits_per_word spi) =? 0 then set_bits_per_word 8 spi else spi in
  let cs := chip_select spi in
  modify (fun s => set_slave
                     (upd (slave s) cs (set_cmd_to_write 0 (slave s cs))) s) ;;
  c <- gets dma_channels ;;
  retval <-
    (if negb (use_dma =? 0) && bool_decide (is_Some c) then
       d <- the_dma spi ;;
       if (dma_rx_channel d =? -1) || (dma_tx_channel d =? -1)
       then davinci_spi_request_dma spi
       else ret 0
     else ret 0) ;;
  if retval <? 0 then ret (retval, spi)
  else if (u32 (max_speed_hz spi) <? 600000)
          || (50000000 <? u32 (max_speed_hz spi)) then
    dev_dbg "Operating frequency is not in acceptable range" ;;
    ret (- EINVAL, spi)
  else
    fmt_bit (tst (mode spi) SPI_LSB_FIRST) SPIFMT_SHIFTDIR_MASK cs ;;
    fmt_bit (tst (mode spi) SPI_CPOL) SPIFMT_POLARITY_MASK cs ;;
    fmt_bit (negb (tst (mode spi) SPI_CPHA)) SPIFMT_PHASE_MASK cs ;;
    v <- gets version ;;
    (if v =? SPI_VERSION_2 then
       clear_fmt_bits SPIFMT_WDELAY_MASK cs ;;
       set_fmt_bits (Z.land (Z.shiftl (u8 (wdelay fp)) SPIFMT_WDELAY_SHIFT)
                       SPIFMT_WDELAY_MASK) cs ;;
       fmt_bit (negb (u8 (odd_parity fp) =? 0)) SPIFMT_ODD_PARITY_MASK cs ;;
       fmt_bit (negb (u8 (parity_enable fp) =? 0)) SPIFMT_PARITYENA_MASK cs ;;
       fmt_bit (negb (u8 (wait_enable fp) =? 0)) SPIFMT_WAITENA_MASK cs ;;
       fmt_bit (negb (u8 (timer_disable fp) =? 0)) SPIFMT_DISTIMER_MASK cs
     else ret tt) ;;
    retval <- davinci_spi_setup_transfer spi None ;;
    ret (retval, spi).

(** [davinci_spi_cleanup]. *)
Definition davinci_spi_cleanup (use_dma : Z) (spi : spi_device) : M D unit :=
  c <- gets dma_channels ;;
  if negb (use_dma =? 0) && bool_decide (is_Some c) then
    d <- the_dma spi ;;
    if negb (dma_rx_channel d =? -1) && negb (dma_tx_channel d =? -1) then
      call (edma_free_channel (dma_tx_channel d)) ;;
      call (edma_free_channel (dma_rx_channel d)) ;;
      ret tt
    else ret tt
  else ret tt.

(** The loop of [davinci_spi_irq] (lines 921-935), entered with the status
    just read and the result so far. *)
Fixpoint irq_loop (fuel : nat) (int_status result : Z) : M D Z :=
  match fuel with
  | O => halt SpinForever
  | S n =>
      if tst int_status SPIFLG_RX_INTR_MASK then
        result <-
          (if tst int_status SPIFLG_RX_INTR_MASK then
             rx_data <- rd SPIBUF ;;
             call_get_rx rx_data ;;
             wr (Z.lnot (Z.lor SPIINT_RX_INTR SPIINT_TX_INTR)) SPIINT ;;
             ret IRQ_HANDLED
           else
             v <- gets version ;;
             match snd (davinci_spi_check_error v (s32 int_status)) with
             | Some m => dev_dbg m
             | None => ret tt
             end ;;
             ret result) ;;
        int_status <- rd SPIFLG ;;
        irq_loop n int_status result
      else ret result
  end.

Definition davinci_spi_irq (fuel : nat) : M D Z :=
  int_status <- rd SPIFLG ;;
  irq_loop fuel int_status IRQ_NONE.

End DriverMore.

(** ** A controller in loop-back

    Every command word written to [SPIDAT1] is at once the word received:
    [SPIBUF] shows its 16 data bits with the receive-empty and
    transmit-full flags clear, and shows receive-empty before the first
    word.  The status register reads 0; every other register keeps the
    last value written. *)

Record loopdev := mk_loopdev {
  lb_word : option Z;
  lb_regs : Z -> Z
}.

Definition loop_read (addr : Z) (d : loopdev) : Z * loopdev :=
  if addr =? @SPIBUF davinci_header then
    (match lb_word d with Some v => v | None => 0x80000000 end, d)
  else if addr =? @SPIFLG davinci_header then (0, d)
  else (lb_regs d addr, d).

Definition loop_write (val addr : Z) (d : loopdev) : loopdev :=
  if addr =? @SPIDAT1 davinci_header
  then mk_loopdev (Some (Z.land val 0xFFFF)) (lb_regs d)
  else mk_loopdev (lb_word d) (upd (lb_regs d) addr val).

#[global] Instance loop_platform : Platform loopdev := {|
  ioread32 := loop_read;
  iowrite32 := loop_write;
  clk_get_rate := fun _ => 150000000;
  extern := fun _ d => Some (0, d)
|}.

Definition loop_world (s : davinci_spi) : world loopdev :=
  mk_world s [] [] (mk_loopdev None (fun _ => 0)) [].

(** ** A controller with a scripted status register

    Successive reads of [SPIFLG] follow a script and then read 0; [SPIBUF]
    reads a fixed word; writes are ignored. *)

Record flagdev := mk_flagdev {
  fd_flags : list Z;
  fd_buf : Z
}.

Definition flag_read (addr : Z) (d : flagdev) : Z * flagdev :=
  if addr =? @SPIFLG davinci_header then
    match fd_flags d with
    | v :: rest => (v, mk_flagdev rest (fd_buf d))
    | [] => (0, d)
    end
  else if addr =? @SPIBUF davinci_header then (fd_buf d, d)
  else (0, d).

#[global] Instance flag_platform : Platform flagdev := {|
  ioread32 := flag_read;
  iowrite32 := fun _ _ d => d;
  clk_get_rate := fun _ => 150000000;
  extern := fun _ d => Some (0, d)
|}.

(** ** More observations *)

(** From [w] to [w'] the trace was only extended. *)
Definition grown {D} : world D -> world D -> Prop :=
  frame (fun _ _ => True) (fun _ => true).


(** Bytes per word of the receive accessors. *)
Definition rx_bytes (a : rx_accessor) : nat :=
  match a with rx_buf_u8 => 1 | rx_buf_u16 => 2 end.

(** [m] always returns, leaves the driver data as it was and writes the
    register at [a] exactly [n] times, and no other register. *)
Definition fmt_writes {D A} (a : Z) (n : nat) (m : M D A) : Prop :=
  forall w, exists x w' vals,
    m w = Ok x w' /\ dspi w' = dspi w /\ length vals = n /\
    writes (trace w') = writes (trace w) ++ map (fun v => (a, v)) vals.


(** The two accessors of the driver data. *)
Definition accessors (s : davinci_spi) : rx_accessor * tx_accessor :=
  (get_rx s, get_tx s).

(** ** The loop-back transfer *)

(** The state of a full-duplex transfer of the bytes [bs] at 8 bits per
    word on the loop-back controller after [k] words: both cursors at [k],
    the 1-byte accessors bound, the first [k] bytes of the receive buffer
    the first [k] bytes sent, and no word looped back before the first
    one was sent. *)
Definition lb_state (bs : list Z) (k : nat) (w : world loopdev) : Prop :=
  tx_mem w = bs /\ length (rx_mem w) = length bs /\
  take k (rx_mem w) = take k (map u8 bs) /\
  tx (dspi w) = Some k /\ rx (dspi w) = Some k /\
  get_tx (dspi w) = tx_buf_u8 /\ get_rx (dspi w) = rx_buf_u8 /\
  count (dspi w) = Z.of_nat (length bs) /\
  match lb_word (dev w) with
  | None => k = O
  | Some v => 0 <= v < 2 ^ 16
  end.

(** From [w] to [w'] the buffers, the cursors, the accessors, the count and
    the word held by the loop-back controller stay as they are. *)
Definition lb_same (w w' : world loopdev) : Prop :=
  tx_mem w' = tx_mem w /\ rx_mem w' = rx_mem w /\
  tx (dspi w') = tx (dspi w) /\ rx (dspi w') = rx (dspi w) /\
  get_tx (dspi w') = get_tx (dspi w) /\ get_rx (dspi w') = get_rx (dspi w) /\
  count (dspi w') = count (dspi w) /\
  lb_word (dev w') = lb_word (dev w).

(** [m] returns on the loop-back controller and keeps [lb_same]. *)
Definition stays {A} (m : M loopdev A) : Prop :=
  forall w, exists a w', m w = Ok a w' /\ lb_same w w'.

(** The outcome [r] is a return, with a result and a world that satisfy
    [Q]. *)
Definition lands {D A} (r : res (world D) A) (Q : A -> world D -> Prop)
  : Prop :=
  exists a w', r = Ok a w' /\ Q a w'.

(** * Properties *)

(** ** Error classifier *)

Section ClassifierFacts.
Context {hdr : SpiHeader}.



End ClassifierFacts.












(** C9: when the version is not above [SPI_VERSION_2], a status in which
    none of the timeout, desynchronization and bit-error flags is set,
    whatever its data-length-error, parity-error, receive-overrun,
    transmit-interrupt and buffer-init-active flags, is success. *)
Theorem check_error_old_version :
  forall (hdr : SpiHeader) (v st : Z),
    v <= SPI_VERSION_2 ->
    flag_set st FTimeout = false -> flag_set st FDesync = false ->
    flag_set st FBitErr = false ->
    davinci_spi_check_error v st = (0, None).
Proof.
  intros hdr v st Hv Ht Hd Hb. unfold davinci_spi_check_error.
  unfold flag_set in *. simpl in *. rewrite Ht, Hd, Hb.
  destruct (Z.ltb_spec SPI_VERSION_2 v); [lia | reflexivity].
Qed.

Lemma check_error_old_version_witness :
  @davinci_spi_check_error davinci_header 1 0x1000245 = (0, None).
Proof.
  apply (check_error_old_version davinci_header 1 0x1000245);
    [simpl; lia | reflexivity | reflexivity | reflexivity].
Defined.

(** ** Clock divisor calculator *)

Lemma u32_small (z : Z) : 0 <= z < 2 ^ 32 -> u32 z = z.
Proof. intros H. unfold u32. apply Z.mod_small. exact H. Qed.

(** Inside the band where the quotient is at most 255 the prescale fits the
    field and does not exceed the requested rate. *)
Lemma calc_prescale_in_band (clk_rate hz : Z) :
  0 <= clk_rate < 2 ^ 32 -> 0 < hz <= clk_rate / 2 -> clk_rate / hz <= 255 ->
  exists p, calc_prescale clk_rate hz = Some p /\ 2 <= p <= 255 /\
            clk_rate / (p + 1) <= hz.
Proof.
  intros Hc Hz Hq.
  assert (Hq2 : 2 <= clk_rate / hz).
  { apply Z.div_le_lower_bound; [lia|].
    pose proof (Z.mul_div_le clk_rate 2 ltac:(lia)). lia. }
  unfold calc_prescale, prescale_round, prescale_floor.
  destruct (Z.eqb_spec hz 0); [lia|].
  set (q := clk_rate / hz) in *.
  rewrite (u32_small (q - 1)) by lia.
  destruct (Z.ltb_spec 0xff (q - 1)); [lia|].
  replace (q - 1 + 1) with q by lia.
  destruct (Z.ltb_spec hz (clk_rate / q)) as [Hlt | Hge].
  - rewrite (u32_small q) by lia.
    destruct (Z.ltb_spec q 2); [lia|].
    exists q. split; [reflexivity|]. split; [lia|].
    assert (clk_rate < hz * (q + 1)).
    { pose proof (Z.mod_pos_bound clk_rate hz ltac:(lia)).
      pose proof (Z.div_mod clk_rate hz ltac:(lia)). subst q. nia. }
    assert (clk_rate / (q + 1) < hz); [|lia].
    apply Z.div_lt_upper_bound; lia.
  - destruct (Z.ltb_spec (q - 1) 2) as [Hs | Hs].
    + exists 2. split; [reflexivity|]. split; [lia|].
      assert (E : q = 2) by lia. clearbody q. subst q.
      assert (clk_rate / (2 + 1) <= clk_rate / 2); [|lia].
      apply Z.div_le_compat_l; lia.
    + exists (q - 1). split; [reflexivity|]. split; [lia|].
      replace (q - 1 + 1) with q by lia. exact Hge.
Qed.

(** C2 (code defect): for the rate 600 kHz, the lowest that
    [davinci_spi_setup] accepts, on a 228 MHz module clock, which is within
    [0 < hz <= ref_clock/2], the increment after the clamp to 0xff yields
    the prescale 256: the rate it gives is above the request, and 256 is
    neither the floor 2 nor the ceiling 255. *)
Theorem calc_prescale_above_ceiling :
  0 < 600000 <= 228000000 / 2 /\
  calc_prescale 228000000 600000 = Some 256 /\
  ~ (228000000 / (256 + 1) <= 600000 \/ 256 = 2 \/ 256 = 255).
Proof.
  split; [split; [lia | vm_compute; discriminate]|].
  split; [reflexivity|].
  intros [H | [H | H]]; [vm_compute in H; apply H; reflexivity | lia | lia].
Qed.

(** The same happens on the 150 MHz clock for a rate below the accepted
    band, which a transfer's [speed_hz] reaches unchecked. *)
Example calc_prescale_above_ceiling_150 :
  calc_prescale 150000000 1000 = Some 256.
Proof. reflexivity. Qed.

(** The end-to-end scenario of the specification: 1 MHz on 150 MHz. *)
Example calc_prescale_1mhz : calc_prescale 150000000 1000000 = Some 149.
Proof. reflexivity. Qed.

(** ** Framing: what the parts of the driver leave alone *)

Section Logic.
Context {hdr : SpiHeader} {D : Type} {plat : Platform D}.
Local Open Scope drv_scope.

Lemma bind_ok {A B} (m : M D A) (k : A -> M D B) (w : world D) b w'' :
  bind m k w = Ok b w'' ->
  exists a w', m w = Ok a w' /\ k a w' = Ok b w''.
Proof. unfold bind. destruct (m w); [eauto | discriminate]. Qed.

Section Frame.
Variable P : davinci_spi -> davinci_spi -> Prop.
Variable E : event -> bool.
Hypothesis P_refl : forall s, P s s.
Hypothesis P_trans : forall a b c, P a b -> P b c -> P a c.
Hypothesis E_write : forall a v, E (EvWrite a v) = true.
Hypothesis E_call : forall op r, E (EvCall op r) = true.
Hypothesis E_log : forall m, E (EvLog m) = true.
Hypothesis P_tx : forall v s, P s (set_tx v s).
Hypothesis P_rx : forall v s, P s (set_rx v s).
Hypothesis P_count : forall v s, P s (set_count v s).
Hypothesis P_dma : forall v s, P s (set_dma_channels v s).

Local Abbreviation F := (@frame D P E).

Lemma frame_refl (w : world D) : F w w.
Proof.
  split; [apply P_refl|]. exists []. split; [|reflexivity].
  symmetry. apply app_nil_r.
Qed.

Lemma frame_trans (w1 w2 w3 : world D) : F w1 w2 -> F w2 w3 -> F w1 w3.
Proof.
  intros [H1 (l1 & E1 & A1)] [H2 (l2 & E2 & A2)]. split; [eauto|].
  exists (l1 ++ l2). split.
  - rewrite E2, E1. symmetry. apply app_assoc.
  - rewrite forallb_app, A1, A2. reflexivity.
Qed.

Lemma frame_event (w : world D) (e : event) s' tm rm d :
  P (dspi w) s' -> E e = true ->
  F w (mk_world s' tm rm d (trace w ++ [e])).
Proof.
  intros HP He. split; [exact HP|]. exists [e]. split; [reflexivity|].
  simpl. rewrite He. reflexivity.
Qed.

Lemma frame_silent (w : world D) s' tm rm d :
  P (dspi w) s' -> F w (mk_world s' tm rm d (trace w)).
Proof.
  intros HP. split; [exact HP|]. exists []. split; [|reflexivity].
  symmetry. apply app_nil_r.
Qed.

Lemma keeps_ret {A} (a : A) : keeps F (ret a).
Proof. intros w. apply frame_refl. Qed.

Lemma keeps_halt {A} (s : stop) : keeps F (@halt D A s).
Proof. intros w. apply frame_refl. Qed.

Lemma keeps_bind {A B} (m : M D A) (k : A -> M D B) :
  keeps F m -> (forall a, keeps F (k a)) -> keeps F (bind m k).
Proof.
  intros Hm Hk w. unfold bind. specialize (Hm w).
  destruct (m w) as [a w' | s w']; simpl in *; [|exact Hm].
  eapply frame_trans; [exact Hm | apply Hk].
Qed.

Lemma keeps_gets {A} (f : davinci_spi -> A) : keeps F (gets f).
Proof. intros w. apply frame_refl. Qed.

Lemma keeps_modify (f : davinci_spi -> davinci_spi) :
  (forall s, P s (f s)) -> keeps F (modify f).
Proof. intros Hf w. apply frame_silent, Hf. Qed.

Lemma keeps_emit (e : event) : E e = true -> keeps F (emit e).
Proof. intros He w. apply frame_event; [apply P_refl | exact He]. Qed.

Lemma keeps_rd (addr : Z) : keeps F (rd addr).
Proof.
  intros w. unfold rd. destruct (ioread32 addr (dev w)) as [v d].
  apply frame_silent, P_refl.
Qed.

Lemma keeps_wr (val addr : Z) : keeps F (wr val addr).
Proof. intros w. apply frame_event; [apply P_refl | apply E_write]. Qed.

Lemma keeps_call (op : ext_op) : keeps F (call op).
Proof.
  intros w. unfold call. destruct (extern op (dev w)) as [[r d]|]; simpl.
  - apply frame_event; [apply P_refl | apply E_call].
  - apply frame_refl.
Qed.

Lemma keeps_get_clk_rate : keeps F get_clk_rate.
Proof. intros w. apply frame_refl. Qed.

Lemma keeps_load8 (i : nat) : keeps F (load8 i).
Proof. intros w. unfold load8. destruct (tx_mem w !! i); apply frame_refl. Qed.

Lemma keeps_load16 (i : nat) : keeps F (load16 i).
Proof.
  intros w. unfold load16.
  destruct (tx_mem w !! i); [destruct (tx_mem w !! S i)|]; apply frame_refl.
Qed.

Lemma keeps_store8 (i : nat) (data : Z) : keeps F (store8 i data).
Proof.
  intros w. unfold store8. destruct (i <? length (rx_mem w))%nat; simpl.
  - apply frame_silent, P_refl.
  - apply frame_refl.
Qed.

Lemma keeps_store16 (i : nat) (data : Z) : keeps F (store16 i data).
Proof.
  intros w. unfold store16. destruct (i + 1 <? length (rx_mem w))%nat; simpl.
  - apply frame_silent, P_refl.
  - apply frame_refl.
Qed.

Lemma keeps_load_bufs (t : spi_transfer) : keeps F (load_bufs t).
Proof. intros w. apply frame_silent, P_refl. Qed.

Lemma keeps_when (b : bool) (m : M D unit) : keeps F m -> keeps F (when b m).
Proof. intros H. destruct b; [exact H | apply keeps_ret]. Qed.

(** One step of a proof that a compound statement keeps the frame. *)
Ltac keeps_step :=
  first
    [ match goal with
      | H : context [keeps] |- keeps _ _ => simple apply H
      end
    | simple apply keeps_bind; [|intros ?]
    | apply keeps_ret | apply keeps_halt | apply keeps_gets
    | apply keeps_rd | apply keeps_wr | apply keeps_call
    | apply keeps_get_clk_rate | apply keeps_load8 | apply keeps_load16
    | apply keeps_store8 | apply keeps_store16 | apply keeps_load_bufs
    | apply keeps_when
    | apply keeps_emit; apply E_log
    | apply keeps_modify; intros ?;
        first [apply P_tx | apply P_rx | apply P_count | apply P_dma]
    | match goal with
      | |- keeps _ (match ?x with _ => _ end) => destruct x
      | |- keeps _ (let '(_, _) := ?x in _) => destruct x
      end ].

Lemma keeps_set_io_bits (addr bits : Z) : keeps F (set_io_bits addr bits).
Proof. unfold set_io_bits. repeat keeps_step. Qed.

Lemma keeps_clear_io_bits (addr bits : Z) : keeps F (clear_io_bits addr bits).
Proof. unfold clear_io_bits. repeat keeps_step. Qed.

Lemma keeps_spin_while (fuel : nat) (addr : Z) (cond : Z -> bool) :
  keeps F (spin_while fuel addr cond).
Proof. induction fuel as [|n IH]; simpl; repeat keeps_step. Qed.

Lemma keeps_calc_clk_div : keeps F davinci_spi_calc_clk_div.
Proof.
  pose proof keeps_set_io_bits. pose proof keeps_clear_io_bits.
  unfold davinci_spi_calc_clk_div, pr_info, set_fmt_bits, clear_fmt_bits.
  repeat keeps_step.
Qed.

Lemma keeps_call_get_rx (data : Z) : keeps F (call_get_rx data).
Proof.
  unfold call_get_rx, davinci_spi_rx_buf_u8, davinci_spi_rx_buf_u16.
  repeat keeps_step.
Qed.

Lemma keeps_call_get_tx : keeps F call_get_tx.
Proof.
  unfold call_get_tx, davinci_spi_tx_buf_u8, davinci_spi_tx_buf_u16.
  repeat keeps_step.
Qed.

Lemma keeps_bufs_prep (spi : spi_device) : keeps F (davinci_spi_bufs_prep spi).
Proof.
  pose proof keeps_set_io_bits. pose proof keeps_clear_io_bits.
  unfold davinci_spi_bufs_prep. repeat keeps_step.
Qed.

Lemma keeps_bind_cursors (spi : spi_device) (t : spi_transfer) :
  keeps F (bind_cursors spi t).
Proof. unfold bind_cursors. repeat keeps_step. Qed.

Lemma keeps_prime_cs (spi : spi_device) : keeps F (prime_cs spi).
Proof.
  pose proof keeps_clear_io_bits. unfold prime_cs. repeat keeps_step.
Qed.

Lemma keeps_write_delay : keeps F write_delay.
Proof. unfold write_delay. repeat keeps_step. Qed.

Lemma keeps_the_dma (spi : spi_device) : keeps F (the_dma spi).
Proof. unfold the_dma. repeat keeps_step. Qed.

Lemma keeps_pio_tx_iter (fuel : nat) (t : spi_transfer) (d c : Z) :
  keeps F (pio_tx_iter fuel t d c).
Proof.
  pose proof keeps_call_get_tx. pose proof keeps_call_get_rx.
  pose proof keeps_spin_while.
  unfold pio_tx_iter. repeat keeps_step.
Qed.

Lemma keeps_pio_tx_loop (fuel n : nat) (t : spi_transfer) (d c : Z) :
  keeps F (pio_tx_loop fuel n t d c).
Proof.
  revert d c. induction n as [|n IH]; intros d c; simpl.
  - apply keeps_halt.
  - pose proof keeps_pio_tx_iter. repeat keeps_step.
Qed.

Lemma keeps_pio_poll_loop (fuel n : nat) (d c : Z) :
  keeps F (pio_poll_loop fuel n d c).
Proof.
  pose proof keeps_call_get_rx. pose proof keeps_spin_while.
  revert c. induction n as [|n IH]; intros c; simpl.
  - apply keeps_halt.
  - unfold pio_poll_iter. repeat keeps_step.
Qed.

Lemma keeps_pio_irq_loop (fuel n : nat) (d : Z) :
  keeps F (pio_irq_loop fuel n d).
Proof.
  pose proof keeps_set_io_bits. pose proof keeps_spin_while.
  induction n as [|n IH]; simpl; repeat keeps_step.
Qed.

Lemma keeps_dma_map_tx (t : spi_transfer) (c : Z) : keeps F (dma_map_tx t c).
Proof. unfold dma_map_tx, dev_dbg. repeat keeps_step. Qed.

Lemma keeps_dma_setup_rx (t : spi_transfer) (spi : spi_device)
  (a b c d e : Z) : keeps F (dma_setup_rx t spi a b c d e).
Proof.
  pose proof keeps_the_dma. unfold dma_setup_rx, dev_dbg. repeat keeps_step.
Qed.

Lemma keeps_dma_run (t : spi_transfer) (spi : spi_device) (a b c d : Z) :
  keeps F (dma_run t spi a b c d).
Proof.
  pose proof keeps_the_dma. pose proof keeps_set_io_bits.
  unfold dma_run, davinci_spi_set_dma_req. repeat keeps_step.
Qed.

Lemma keeps_request_dma (spi : spi_device) :
  keeps F (davinci_spi_request_dma spi).
Proof.
  pose proof keeps_the_dma.
  unfold davinci_spi_request_dma, modify_dma, dev_dbg. repeat keeps_step.
Qed.

End Frame.
End Logic.

(** ** The in-flight flag and the completion *)

Section InFlight.
Context {hdr : SpiHeader} {D : Type} {plat : Platform D}.
Local Open Scope drv_scope.

Ltac quiet_side := intros; simpl; first [reflexivity | congruence].

Lemma quiet_refl (w : world D) : quiet w w.
Proof. apply frame_refl. quiet_side. Qed.

Lemma quiet_trans (w1 w2 w3 : world D) : quiet w1 w2 -> quiet w2 w3 -> quiet w1 w3.
Proof. apply frame_trans. quiet_side. Qed.

Lemma returns_last {A B} (m : M D A) (k : A -> M D B)
  (Q : B -> world D -> Prop) :
  (forall a, returns (k a) (fun _ b w' => Q b w')) ->
  returns (bind m k) (fun _ b w' => Q b w').
Proof.
  intros Hk w b w'' H. apply bind_ok in H as (a & w' & _ & H2).
  exact (Hk a w' b w'' H2).
Qed.

Lemma bufs_out_released (t : spi_transfer) (r : Z) :
  returns (bufs_out t r) (fun _ _ w' => released w').
Proof.
  intros w a w' H. unfold bufs_out, assign_in_use, bind, modify, emit, call in H.
  simpl in H. destruct (extern (complete done) _) as [[x d]|]; [|discriminate].
  inversion H; subst; clear H. split; [reflexivity|].
  exists (trace w), x. simpl. rewrite <- app_assoc. reflexivity.
Qed.

Lemma bufs_finish_released (t : spi_transfer) (conv : Z) :
  returns (bufs_finish t conv) (fun _ _ w' => released w').
Proof.
  unfold bufs_finish.
  apply returns_last; intros int_status. apply returns_last; intros v.
  destruct (davinci_spi_check_error v (s32 int_status)) as [r msg].
  apply returns_last; intros _. apply returns_last; intros _.
  apply bufs_out_released.
Qed.

Lemma roq_bind {A B} (m : M D A) (k : A -> M D B) :
  keeps quiet m -> (forall a, returns (k a) released_or_quiet) ->
  returns (bind m k) released_or_quiet.
Proof.
  intros Hm Hk w b w'' H. apply bind_ok in H as (a & w' & H1 & H2).
  specialize (Hm w). rewrite H1 in Hm. simpl in Hm.
  destruct (Hk a w' b w'' H2) as [R | Q]; [left; exact R | right].
  eapply quiet_trans; eassumption.
Qed.

Lemma roq_ret {A} (a : A) : returns (@ret D A a) released_or_quiet.
Proof. intros w b w' [= _ <-]. right. apply quiet_refl. Qed.

Lemma roq_released {A} (m : M D A) :
  returns m (fun _ _ w' => released w') -> returns m released_or_quiet.
Proof. intros H w a w' Hr. left. exact (H w a w' Hr). Qed.

Ltac released_tac :=
  repeat first
    [ simple apply bufs_finish_released
    | simple apply bufs_out_released
    | simple apply returns_last; intros ?
    | match goal with
      | |- returns (match ?x with _ => _ end) _ => destruct x
      end ].

Lemma bufs_pio_released_or_quiet (fuel : nat) (spi : spi_device)
  (t : spi_transfer) :
  returns (davinci_spi_bufs_pio fuel spi t) released_or_quiet.
Proof.
  unfold davinci_spi_bufs_pio.
  apply roq_bind; [apply keeps_bind_cursors; quiet_side | intros conv].
  apply roq_bind; [apply keeps_bufs_prep; quiet_side | intros r].
  destruct (negb (r =? 0)); [apply roq_ret|].
  apply roq_released.
  released_tac.
Qed.

Lemma bufs_dma_released_or_quiet (fuel : nat) (spi : spi_device)
  (t : spi_transfer) :
  returns (davinci_spi_bufs_dma fuel spi t) released_or_quiet.
Proof.
  unfold davinci_spi_bufs_dma.
  apply roq_bind; [apply keeps_gets; quiet_side | intros pb].
  apply roq_bind; [apply keeps_bind_cursors; quiet_side | intros conv].
  apply roq_bind; [apply keeps_the_dma; quiet_side | intros _].
  apply roq_bind; [apply keeps_call; quiet_side | intros _].
  apply roq_bind; [apply keeps_call; quiet_side | intros _].
  cbv zeta.
  destruct (if conv * 8 <=? 8 then _ else _) as [data_type|];
    [|apply roq_ret].
  apply roq_bind; [apply keeps_bufs_prep; quiet_side | intros r].
  destruct (negb (r =? 0)); [apply roq_ret|].
  apply roq_released.
  released_tac.
Qed.

Lemma quiet_no_in_use (w w' : world D) (b : bool) :
  quiet w w' -> ~ In (EvInUse b) (new_events w w').
Proof.
  intros [_ (l & Hl & Hall)] Hin. unfold new_events in Hin.
  rewrite Hl, drop_app_length in Hin.
  rewrite forallb_forall in Hall. specialize (Hall _ Hin). discriminate.
Qed.

End InFlight.

(** C5: every execution of [davinci_spi_bufs_pio] or
    [davinci_spi_bufs_dma] that sets the in-flight flag and returns, with
    success, with a classified hardware error or with a buffer mapping
    failure, has cleared the flag and signalled the completion as its last
    two actions. *)
Theorem engines_release_in_flight :
  forall (hdr : SpiHeader) (D : Type) (plat : Platform D) (fuel : nat)
         (spi : spi_device) (t : spi_transfer) (w : world D) (r : Z)
         (w' : world D),
    davinci_spi_bufs_pio fuel spi t w = Ok r w' \/
    davinci_spi_bufs_dma fuel spi t w = Ok r w' ->
    In (EvInUse true) (new_events w w') ->
    released w'.
Proof.
  intros hdr D plat fuel spi t w r w' H Hin.
  assert (HR : released w' \/ quiet w w').
  { destruct H as [H | H].
    - exact (bufs_pio_released_or_quiet fuel spi t w r w' H).
    - exact (bufs_dma_released_or_quiet fuel spi t w r w' H). }
  destruct HR as [HR | HQ]; [exact HR|].
  exfalso. exact (quiet_no_in_use w w' true HQ Hin).
Qed.

Lemma engines_release_in_flight_witness :
  released
    (res_world (@davinci_spi_bufs_pio davinci_header sim sim_platform 4 spi0
                  xfer_two_bytes (scripted_world loopback_script 0 [] []))).
Proof.
  apply (engines_release_in_flight davinci_header sim sim_platform 4 spi0
           xfer_two_bytes (scripted_world loopback_script 0 [] []) 2).
  - left. vm_compute. reflexivity.
  - vm_compute. do 3 right. left. reflexivity.
Defined.

(** The three kinds of exit occur: success, a classified hardware error and
    a failed buffer mapping, each ending with the release. *)
Example bufs_pio_success :
  let r := @davinci_spi_bufs_pio davinci_header sim sim_platform 4 spi0
             xfer_two_bytes (scripted_world loopback_script 0 [] []) in
  (exists w', r = Ok 2 w') /\ rx_mem (res_world r) = [0x12; 0x34] /\
  data_words 0x3c (trace (res_world r)) = [0x12; 0x34] /\
  in_use (dspi (res_world r)) = false /\
  last (trace (res_world r)) = Some (EvCall (complete done) 0).
Proof. vm_compute. repeat split. eexists. reflexivity. Qed.

Example bufs_pio_bit_error :
  let r := @davinci_spi_bufs_pio davinci_header sim sim_platform 4 spi0
             xfer_two_bytes (scripted_world loopback_script 0x10 [] []) in
  (exists w', r = Ok (- EIO) w') /\
  in_use (dspi (res_world r)) = false /\
  last (trace (res_world r)) = Some (EvCall (complete done) 0).
Proof. vm_compute. repeat split. eexists. reflexivity. Qed.

Example bufs_dma_mapping_failure :
  let r := @davinci_spi_bufs_dma davinci_header sim sim_platform 4 spi0
             xfer_two_bytes (scripted_world [] 0 [] [0xFFFFFFFF]) in
  (exists w', r = Ok (- ENOMEM) w') /\
  in_use (dspi (res_world r)) = false /\
  last (trace (res_world r)) = Some (EvCall (complete done) 0).
Proof. vm_compute. repeat split. eexists. reflexivity. Qed.

Example bufs_dma_success :
  let r := @davinci_spi_bufs_dma davinci_header sim sim_platform 4 spi0
             xfer_two_bytes (scripted_world [] 0 [] [0x1000; 0x2000]) in
  (exists w', r = Ok 2 w') /\
  in_use (dspi (res_world r)) = false /\
  last (trace (res_world r)) = Some (EvCall (complete done) 0).
Proof. vm_compute. repeat split. eexists. reflexivity. Qed.

(** ** Transfer setup *)

Section Setup.
Context {hdr : SpiHeader} {D : Type} {plat : Platform D}.
Local Open Scope drv_scope.

(** The register part of the setup leaves the driver data alone. *)
Lemma fmt_update_keeps_dspi (bits1 bits2 cs : Z) (w : world D) :
  dspi (res_world
          ((clear_fmt_bits bits1 cs ;; set_fmt_bits bits2 cs ;;
            davinci_spi_calc_clk_div ;; ret 0) w)) = dspi w.
Proof.
  assert (K : keeps (frame eq (fun _ => true))
                (clear_fmt_bits bits1 cs ;; set_fmt_bits bits2 cs ;;
                 davinci_spi_calc_clk_div ;; @ret D Z 0)).
  { apply keeps_bind; try congruence;
      [apply keeps_clear_io_bits; congruence | intros _].
    apply keeps_bind; try congruence;
      [apply keeps_set_io_bits; congruence | intros _].
    apply keeps_bind; try congruence;
      [apply keeps_calc_clk_div; congruence | intros _].
    apply keeps_ret; congruence. }
  destruct (K w) as [Heq _]. symmetry. exact Heq.
Qed.

Lemma bind_assoc {A B C} (m : M D A) (k : A -> M D B) (h : B -> M D C)
  (w : world D) :
  bind (bind m k) h w = bind m (fun a => bind (k a) h) w.
Proof. unfold bind. destruct (m w); reflexivity. Qed.

Lemma bind_modify {A} (f : davinci_spi -> davinci_spi) (k : unit -> M D A)
  (w : world D) :
  bind (modify f) k w =
  k tt (mk_world (f (dspi w)) (tx_mem w) (rx_mem w) (dev w) (trace w)).
Proof. reflexivity. Qed.

Lemma setup_transfer_binds (spi : spi_device) (t : option spi_transfer)
  (w : world D) (r : rx_accessor) (x : tx_accessor) (n : Z) :
  let b := effective_bits_per_word spi t in
  ((b <=? 8) && (2 <=? b) = true /\ r = rx_buf_u8 /\ x = tx_buf_u8 /\ n = 1) \/
  ((b <=? 8) && (2 <=? b) = false /\ (b <=? 16) && (2 <=? b) = true /\
   r = rx_buf_u16 /\ x = tx_buf_u16 /\ n = 2) ->
  let w' := res_world (davinci_spi_setup_transfer spi t w) in
  get_rx (dspi w') = r /\ get_tx (dspi w') = x /\
  bytes_per_word (slave (dspi w') (chip_select spi)) = n.
Proof.
  intros b H w'. subst w'. unfold davinci_spi_setup_transfer. fold b.
  destruct H as [(H1 & -> & -> & ->) | (H1 & H2 & -> & -> & ->)];
    rewrite H1; [|rewrite H2].
  all: rewrite bind_assoc, !bind_modify, fmt_update_keeps_dspi; simpl;
    unfold upd; rewrite Z.eqb_refl; simpl; auto.
Qed.

Lemma bind_run {A B} (m : M D A) (k : A -> M D B) (w : world D) a w' :
  m w = Ok a w' -> bind m k w = k a w'.
Proof. intros H. unfold bind. rewrite H. reflexivity. Qed.

Lemma set_io_bits_ok (addr bits : Z) (w : world D) :
  exists w', set_io_bits addr bits w = Ok tt w' /\ dspi w' = dspi w.
Proof.
  unfold set_io_bits, bind, rd, wr. destruct (ioread32 addr (dev w)).
  eexists. split; reflexivity.
Qed.

Lemma clear_io_bits_ok (addr bits : Z) (w : world D) :
  exists w', clear_io_bits addr bits w = Ok tt w' /\ dspi w' = dspi w.
Proof.
  unfold clear_io_bits, bind, rd, wr. destruct (ioread32 addr (dev w)).
  eexists. split; reflexivity.
Qed.

(** With a rate that is not zero the divisor routine returns. *)
Lemma calc_clk_div_ok (w : world D) :
  u32 (speed (dspi w)) <> 0 ->
  exists w', davinci_spi_calc_clk_div w = Ok tt w'.
Proof.
  intros Hz. unfold davinci_spi_calc_clk_div.
  rewrite (bind_run _ _ w (cs_num (dspi w)) w) by reflexivity.
  rewrite (bind_run _ _ w (u32 (speed (dspi w))) w) by reflexivity.
  rewrite (bind_run _ _ w (u32 (clk_get_rate (dev w))) w) by reflexivity.
  unfold prescale_round. apply Z.eqb_neq in Hz. rewrite Hz. cbv zeta.
  match goal with |- context [prescale_floor ?p] => set (pr := p) end.
  assert (Hw : exists w1, when (pr <? 2)
                 (pr_info "davinci SPI controller min. prescale value is 2") w
               = Ok tt w1 /\ dspi w1 = dspi w).
  { destruct (pr <? 2); eexists; split; reflexivity. }
  destruct Hw as (w1 & E1 & _). rewrite (bind_run _ _ _ _ _ E1).
  destruct (clear_io_bits_ok (SPIFMT0 + 0x4 * cs_num (dspi w)) 0x0000ff00 w1)
    as (w2 & E2 & _).
  unfold clear_fmt_bits. rewrite (bind_run _ _ _ _ _ E2).
  destruct (set_io_bits_ok (SPIFMT0 + 0x4 * cs_num (dspi w))
              (Z.shiftl (prescale_floor pr) 8) w2) as (w3 & E3 & _).
  exists w3. exact E3.
Qed.

Lemma u32_idem (z : Z) : u32 (u32 z) = u32 z.
Proof. unfold u32. apply Z.mod_mod. lia. Qed.

(** With a width in range and a rate that is not zero the setup returns 0. *)
Lemma setup_transfer_returns (spi : spi_device) (t : option spi_transfer)
  (w : world D) :
  let b := effective_bits_per_word spi t in
  let hz := match t with Some t => u32 (speed_hz t) | None => 0 end in
  2 <= b <= 16 ->
  (if hz =? 0 then u32 (max_speed_hz spi) else hz) <> 0 ->
  exists w', davinci_spi_setup_transfer spi t w = Ok 0 w'.
Proof.
  intros b hz Hb Hhz. unfold davinci_spi_setup_transfer. fold b. fold hz.
  assert (Hc : (b <=? 8) && (2 <=? b) = true \/
               ((b <=? 8) && (2 <=? b) = false /\
                (b <=? 16) && (2 <=? b) = true)).
  { destruct (Z.leb_spec b 8); destruct (Z.leb_spec 2 b);
      destruct (Z.leb_spec b 16); simpl; auto; lia. }
  destruct Hc as [H1 | [H1 H2]]; rewrite H1; [|rewrite H2].
  all: rewrite bind_assoc, !bind_modify.
  all: match goal with |- context [bind _ _ ?w0] => set (w1 := w0) end.
  all: destruct (clear_io_bits_ok (SPIFMT0 + 0x4 * chip_select spi)
                   SPIFMT_CHARLEN_MASK w1) as (w2 & E2 & D2).
  all: unfold clear_fmt_bits; rewrite (bind_run _ _ _ _ _ E2).
  all: destruct (set_io_bits_ok (SPIFMT0 + 0x4 * chip_select spi)
                   (Z.land b 0x1f) w2) as (w3 & E3 & D3).
  all: unfold set_fmt_bits at 1; rewrite (bind_run _ _ _ _ _ E3).
  all: destruct (calc_clk_div_ok w3) as (w4 & E4);
    [rewrite D3, D2; simpl;
     replace (u32 (if hz =? 0 then u32 (max_speed_hz spi) else hz))
       with (if hz =? 0 then u32 (max_speed_hz spi) else hz);
     [exact Hhz |
      destruct (hz =? 0); [symmetry; apply u32_idem|];
      subst hz; destruct t; [symmetry; apply u32_idem | reflexivity]]|].
  all: rewrite (bind_run _ _ _ _ _ E4); exists w4; reflexivity.
Qed.

End Setup.

(** C3: with the bits-per-word value the routine works with in [2,8] it
    binds the 1-byte accessors and records one byte per word, in [9,16] the
    2-byte accessors and two bytes per word, and with any other value it
    returns [-EINVAL] leaving the registers, and everything else,
    untouched.  In the two accepted ranges the routine returns 0 whenever
    the rate it hands to the divisor is not zero. *)
Theorem setup_transfer_word_width :
  forall (hdr : SpiHeader) (D : Type) (plat : Platform D) (spi : spi_device)
         (t : option spi_transfer) (w : world D),
    let b := effective_bits_per_word spi t in
    let hz := match t with Some t => u32 (speed_hz t) | None => 0 end in
    let w' := res_world (davinci_spi_setup_transfer spi t w) in
    (2 <= b <= 8 ->
     get_rx (dspi w') = rx_buf_u8 /\ get_tx (dspi w') = tx_buf_u8 /\
     bytes_per_word (slave (dspi w') (chip_select spi)) = 1) /\
    (9 <= b <= 16 ->
     get_rx (dspi w') = rx_buf_u16 /\ get_tx (dspi w') = tx_buf_u16 /\
     bytes_per_word (slave (dspi w') (chip_select spi)) = 2) /\
    (~ 2 <= b <= 16 ->
     davinci_spi_setup_transfer spi t w = Ok (- EINVAL) w) /\
    (2 <= b <= 16 ->
     (if hz =? 0 then u32 (max_speed_hz spi) else hz) <> 0 ->
     exists w'', davinci_spi_setup_transfer spi t w = Ok 0 w'').
Proof.
  intros hdr D plat spi t w b hz w'. repeat split.
  1-3: apply (setup_transfer_binds spi t w rx_buf_u8 tx_buf_u8 1); left;
    fold b; repeat split;
    destruct (Z.leb_spec b 8); destruct (Z.leb_spec 2 b); simpl; auto; lia.
  1-3: apply (setup_transfer_binds spi t w rx_buf_u16 tx_buf_u16 2); right;
    fold b; repeat split;
    destruct (Z.leb_spec b 8); destruct (Z.leb_spec 2 b);
    destruct (Z.leb_spec b 16); simpl; auto; lia.
  - intros Hb. unfold davinci_spi_setup_transfer. fold b.
    destruct (Z.leb_spec b 8); destruct (Z.leb_spec 2 b);
      destruct (Z.leb_spec b 16); simpl; try reflexivity; lia.
  - apply setup_transfer_returns.
Qed.

Lemma setup_transfer_word_width_witness :
  let w' := res_world (@davinci_spi_setup_transfer davinci_header sim
                         sim_platform spi0 (Some xfer_two_bytes) idle_world) in
  get_rx (dspi w') = rx_buf_u8 /\ get_tx (dspi w') = tx_buf_u8 /\
  bytes_per_word (slave (dspi w') (chip_select spi0)) = 1.
Proof.
  apply (proj1 (setup_transfer_word_width davinci_header sim sim_platform
                  spi0 (Some xfer_two_bytes) idle_world)).
  change (2 <= 8 <= 8). lia.
Defined.

Example setup_transfer_16_bits :
  let t := mk_spi_transfer None None 0 16 1000000 in
  let r := @davinci_spi_setup_transfer davinci_header sim sim_platform spi0
             (Some t) idle_world in
  (exists w', r = Ok 0 w') /\
  get_rx (dspi (res_world r)) = rx_buf_u16 /\
  bytes_per_word (slave (dspi (res_world r)) 0) = 2 /\
  writes (trace (res_world r)) =
    [(0x50, 0); (0x50, 16); (0x50, 16); (0x50, 0x9510)].
Proof. vm_compute. repeat split. eexists. reflexivity. Qed.

Example setup_transfer_17_bits :
  let t := mk_spi_transfer None None 0 17 1000000 in
  @davinci_spi_setup_transfer davinci_header sim sim_platform spi0 (Some t)
    idle_world = Ok (- EINVAL) idle_world.
Proof. reflexivity. Qed.

(** ** DMA channel allocation *)

Section RequestDma.
Context {hdr : SpiHeader} {D : Type} {plat : Platform D}.
Local Open Scope drv_scope.

Lemma call_run (op : ext_op) (w : world D) (r : Z) (d : D) :
  extern op (dev w) = Some (r, d) ->
  call op w = Ok r (mk_world (dspi w) (tx_mem w) (rx_mem w) d
                      (trace w ++ [EvCall op r])).
Proof. intros H. unfold call. rewrite H. reflexivity. Qed.

End RequestDma.

(** C8: when the RX channel is allocated and the allocation of the TX
    channel fails, [davinci_spi_request_dma] frees the RX channel, resets
    its handle to -1 and returns [-EAGAIN], leaving the TX handle as it
    was; and, called on an unallocated pair, after any return the pair is
    fully allocated (return 0) or fully unallocated (return [-EAGAIN]). *)
Theorem request_dma_unwinds :
  forall (hdr : SpiHeader) (D : Type) (plat : Platform D) (spi : spi_device)
         (w : world D) (chans : Z -> davinci_spi_dma),
    dma_channels (dspi w) = Some chans ->
    let d := chans (chip_select spi) in
    let alloc_rx := edma_alloc_channel (dma_rx_sync_dev d)
                      davinci_spi_dma_rx_callback (eventq d) in
    let alloc_tx := edma_alloc_channel (dma_tx_sync_dev d)
                      davinci_spi_dma_tx_callback (eventq d) in
    (forall r1 d1 r2 d2 x d3,
        extern alloc_rx (dev w) = Some (r1, d1) -> 0 <= s32 r1 ->
        extern alloc_tx d1 = Some (r2, d2) -> s32 r2 < 0 ->
        extern (edma_free_channel (s32 r1)) d2 = Some (x, d3) ->
        exists w' chans',
          davinci_spi_request_dma spi w = Ok (- EAGAIN) w' /\
          trace w' = trace w ++
            [EvCall alloc_rx r1; EvCall alloc_tx r2;
             EvCall (edma_free_channel (s32 r1)) x;
             EvLog "Unable to request DMA channel for SPI TX"] /\
          dma_channels (dspi w') = Some chans' /\
          dma_rx_channel (chans' (chip_select spi)) = -1 /\
          dma_tx_channel (chans' (chip_select spi)) = dma_tx_channel d) /\
    (pair_unallocated d ->
     forall r w',
        davinci_spi_request_dma spi w = Ok r w' ->
        exists chans',
          dma_channels (dspi w') = Some chans' /\
          ((r = 0 /\ pair_allocated (chans' (chip_select spi))) \/
           (r = - EAGAIN /\ pair_unallocated (chans' (chip_select spi))))).
Proof.
  intros hdr D plat spi w chans Hc d alloc_rx alloc_tx. split.
  - intros r1 d1 r2 d2 x d3 E1 P1 E2 N2 E3.
    unfold davinci_spi_request_dma, the_dma.
    rewrite bind_assoc, (bind_run _ _ w (Some chans) w)
      by (unfold gets; rewrite Hc; reflexivity).
    rewrite (bind_run _ _ w (chans (chip_select spi)) w) by reflexivity.
    fold d. fold alloc_rx. fold alloc_tx.
    rewrite (bind_run _ _ _ _ _ (call_run alloc_rx w r1 d1 E1)).
    destruct (Z.ltb_spec (s32 r1) 0) as [|_]; [lia|].
    unfold modify_dma. rewrite bind_modify. simpl. rewrite Hc. simpl.
    match goal with |- context [bind (call alloc_tx) _ ?w0] =>
      rewrite (bind_run _ _ w0 r2 _ (call_run alloc_tx w0 r2 d2 E2)) end.
    destruct (Z.ltb_spec (s32 r2) 0) as [_|]; [|lia].
    simpl. unfold bind at 1. unfold bind at 1. simpl.
    unfold upd at 1. rewrite Z.eqb_refl. simpl.
    match goal with |- context [bind (call ?op) _ ?w0] =>
      rewrite (bind_run _ _ w0 x _ (call_run op w0 x d3 E3)) end.
    rewrite bind_modify. simpl.
    eexists. eexists. split; [reflexivity|]. simpl.
    split; [rewrite <- !app_assoc; reflexivity|].
    split; [reflexivity|].
    unfold upd. rewrite Z.eqb_refl. simpl. split; reflexivity.
  - intros [Hrx Htx] r w' H.
    unfold davinci_spi_request_dma, the_dma in H.
    rewrite bind_assoc, (bind_run _ _ w (Some chans) w) in H
      by (unfold gets; rewrite Hc; reflexivity).
    rewrite (bind_run _ _ w (chans (chip_select spi)) w) in H by reflexivity.
    fold d in H. fold alloc_rx in H. fold alloc_tx in H.
    apply bind_ok in H as (r1 & w1 & C1 & H).
    unfold call in C1. destruct (extern alloc_rx (dev w)) as [[r1' d1]|];
      [|discriminate].
    inversion C1; subst r1' w1; clear C1.
    destruct (Z.ltb_spec (s32 r1) 0) as [N1 | P1].
    + unfold dev_dbg, emit, bind, ret in H. simpl in H.
      inversion H; subst; clear H. simpl. exists chans.
      split; [exact Hc|]. right. split; [reflexivity | split; assumption].
    + unfold modify_dma in H. rewrite bind_modify in H. simpl in H.
      rewrite Hc in H. simpl in H.
      apply bind_ok in H as (r2 & w2 & C2 & H).
      unfold call in C2. simpl in C2.
      destruct (extern alloc_tx d1) as [[r2' d2]|]; [|discriminate].
      inversion C2; subst r2' w2; clear C2.
      destruct (Z.ltb_spec (s32 r2) 0) as [N2 | P2].
      * unfold bind at 1 in H. unfold bind at 1 in H. simpl in H.
        apply bind_ok in H as (x & w3 & C3 & H).
        unfold call in C3. simpl in C3.
        destruct (extern _ d2) as [[x' d3]|]; [|discriminate].
        inversion C3; subst x' w3; clear C3.
        rewrite bind_modify in H. simpl in H.
        unfold dev_dbg, emit, bind, ret in H. simpl in H.
        inversion H; subst; clear H. simpl.
        eexists. split; [reflexivity|]. right. split; [reflexivity|].
        unfold pair_unallocated, upd. rewrite Z.eqb_refl. simpl.
        split; [reflexivity | exact Htx].
      * rewrite bind_modify in H. simpl in H.
        unfold ret in H. inversion H; subst; clear H. simpl.
        eexists. split; [reflexivity|]. left. split; [reflexivity|].
        unfold pair_allocated, upd. rewrite Z.eqb_refl. simpl.
        split; lia.
Qed.

Lemma request_dma_unwinds_witness :
  exists w' chans',
    @davinci_spi_request_dma sim sim_platform spi0
      (scripted_world [] 0 [5; -1] []) = Ok (- EAGAIN) w' /\
    trace w' =
      [EvCall (edma_alloc_channel 16 davinci_spi_dma_rx_callback 1) 5;
       EvCall (edma_alloc_channel 17 davinci_spi_dma_tx_callback 1) (-1);
       EvCall (edma_free_channel 5) 0;
       EvLog "Unable to request DMA channel for SPI TX"] /\
    dma_channels (dspi w') = Some chans' /\
    dma_rx_channel (chans' (chip_select spi0)) = -1 /\
    dma_tx_channel (chans' (chip_select spi0)) = -1.
Proof.
  apply (proj1 (request_dma_unwinds davinci_header sim sim_platform spi0
                  (scripted_world [] 0 [5; -1] []) (fun _ => idle_dma)
                  eq_refl)
           5 (mk_sim (fun _ => 0) [] 0x80000000 0 150000000 [-1] [])
           (-1) (mk_sim (fun _ => 0) [] 0x80000000 0 150000000 [] [])
           0 (mk_sim (fun _ => 0) [] 0x80000000 0 150000000 [] [])).
  - reflexivity.
  - vm_compute. discriminate.
  - reflexivity.
  - reflexivity.
  - reflexivity.
Defined.

Example request_dma_both_allocated :
  let r := @davinci_spi_request_dma sim sim_platform spi0
             (scripted_world [] 0 [5; 6] []) in
  (exists w', r = Ok 0 w') /\
  option_map (fun c => (dma_rx_channel (c 0), dma_tx_channel (c 0)))
    (dma_channels (dspi (res_world r))) = Some (5, 6).
Proof. vm_compute. split; [eexists|]; reflexivity. Qed.

Example request_dma_rx_fails :
  let r := @davinci_spi_request_dma sim sim_platform spi0
             (scripted_world [] 0 [-1] []) in
  (exists w', r = Ok (- EAGAIN) w') /\
  option_map (fun c => (dma_rx_channel (c 0), dma_tx_channel (c 0)))
    (dma_channels (dspi (res_world r))) = Some (-1, -1).
Proof. vm_compute. split; [eexists|]; reflexivity. Qed.

(** ** The transmit loop and a full transmit FIFO *)

Section TxLoop.
Context {hdr : SpiHeader} {D : Type} {plat : Platform D}.
Local Open Scope drv_scope.

Lemma writes_app (l1 l2 : list event) : writes (l1 ++ l2) = writes l1 ++ writes l2.
Proof.
  induction l1 as [|e l1 IH]; simpl; [reflexivity|].
  destruct e; simpl; rewrite ?IH; reflexivity.
Qed.

Lemma writes_not_write (l : list event) :
  forallb not_write l = true -> writes l = [].
Proof.
  induction l as [|e l IH]; simpl; [reflexivity|].
  destruct e; simpl; try discriminate; exact IH.
Qed.

(** The part of a pass after the FIFO test writes no register and leaves
    the transmit cursor where it is. *)
Lemma pio_tx_tail_frame (fuel : nat) (t : spi_transfer) :
  keeps (frame (fun s s' => tx s' = tx s) not_write)
    (spin_while fuel SPIBUF (fun v => tst v SPIBUF_RXEMPTY_MASK) ;;
     match rx_buf t with
     | Some _ => buf_val <- rd SPIBUF ;; call_get_rx buf_val
     | None => ret tt
     end).
Proof.
  apply keeps_bind; try congruence.
  - apply keeps_spin_while; congruence.
  - intros _. destruct (rx_buf t).
    + apply keeps_bind; try congruence; [apply keeps_rd; congruence|].
      intros v. apply keeps_call_get_rx; try congruence. reflexivity.
    + apply keeps_ret; congruence.
Qed.

(** A pass of the transmit loop that finds the FIFO full: no register is
    written and the count stays, and the transmit cursor has moved on to
    the next word all the same. *)
Lemma pio_tx_iter_fifo_full (fuel : nat) (t : spi_transfer)
  (data1_reg_val cnt : Z) (w : world D) (i : nat) (b v : Z) (d1 : D) p w' :
  get_tx (dspi w) = tx_buf_u8 -> tx (dspi w) = Some i ->
  tx_mem w !! i = Some b ->
  ioread32 SPIBUF (dev w) = (v, d1) ->
  Z.land (u32 v) SPIBUF_TXFULL_MASK <> 0 ->
  pio_tx_iter fuel t data1_reg_val cnt w = Ok p w' ->
  snd p = cnt /\ writes (trace w') = writes (trace w) /\
  tx (dspi w') = Some (i + 1)%nat.
Proof.
  intros Hg Ht Hb Hr Hfull H. unfold pio_tx_iter in H.
  set (w1 := mk_world (set_tx (Some (i + 1)%nat) (dspi w)) (tx_mem w)
               (rx_mem w) (dev w) (trace w)).
  assert (E1 : call_get_tx w = Ok (u8 b) w1).
  { unfold call_get_tx, davinci_spi_tx_buf_u8, bind, gets, load8, modify, ret.
    rewrite Hg, Ht, Hb. reflexivity. }
  rewrite (bind_run _ _ _ _ _ E1) in H.
  assert (E2 : rd SPIBUF w1 = Ok (u32 v) (set_dev d1 w1)).
  { unfold rd. simpl. rewrite Hr. reflexivity. }
  rewrite (bind_run _ _ _ _ _ E2) in H.
  apply Z.eqb_neq in Hfull. rewrite Hfull in H.
  rewrite (bind_run _ _ _ cnt (set_dev d1 w1)) in H by reflexivity.
  rewrite <- bind_assoc in H.
  apply bind_ok in H as (u & w2 & Htail & Hret).
  injection Hret as <- <-.
  pose proof (pio_tx_tail_frame fuel t (set_dev d1 w1)) as K.
  rewrite Htail in K. destruct K as [Ktx (l & Kl & Kall)]. simpl in *.
  split; [reflexivity|]. split; [|exact Ktx].
  rewrite Kl, writes_app, (writes_not_write l Kall). apply app_nil_r.
Qed.

End TxLoop.

(** C1 (code defect): a transfer of the two bytes 0x12 and 0x34 whose
    first pass finds the transmit FIFO full.  The pass writes nothing and
    keeps the count, but the next pass fetches 0x34: the only word written
    is 0x34, the word 0x12 is never sent, and the third pass reads past the
    end of the transmit buffer. *)
Theorem pio_fifo_full_skips_word :
  let t := mk_spi_transfer (Some [0x12; 0x34]) None 2 8 1000000 in
  let w := scripted_world [0x80000000; 0x20000000; 0; 0; 0] 0 [] [] in
  let r := @davinci_spi_bufs_pio davinci_header sim sim_platform 4 spi0 t w in
  r = Stop OutOfBounds (res_world r) /\
  data_words 0x3c (trace (res_world r)) = [0x34] /\
  tx (dspi (res_world r)) = Some 2%nat.
Proof. vm_compute. repeat split. Qed.

(** The same run over a buffer that extends past the two bytes of the
    transfer completes: it reports 2 bytes and has sent 0x34 and the byte
    after the transfer, not 0x12. *)
Example pio_fifo_full_sends_next_bytes :
  let t := mk_spi_transfer (Some [0x12; 0x34; 0x56]) None 2 8 1000000 in
  let w := scripted_world [0x80000000; 0x20000000; 0; 0; 0; 0; 0] 0 [] [] in
  let r := @davinci_spi_bufs_pio davinci_header sim sim_platform 4 spi0 t w in
  (exists w', r = Ok 2 w') /\
  data_words 0x3c (trace (res_world r)) = [0x34; 0x56].
Proof. vm_compute. split; [eexists|]; reflexivity. Qed.

(** ** The register update of the divisor routine *)

(** With a prescale of at most 255 the update changes bits 8-15 only. *)
Lemma fmt_field_update (v p i : Z) :
  0 <= p <= 255 -> 0 <= i -> ~ 8 <= i < 16 ->
  Z.testbit (Z.lor (Z.land v (Z.lnot 0x0000ff00)) (Z.shiftl p 8)) i =
  Z.testbit v i.
Proof.
  intros Hp Hi Hout.
  rewrite Z.lor_spec, Z.land_spec, Z.lnot_spec by lia.
  assert (Hp8 : Z.testbit (Z.shiftl p 8) i = false).
  { destruct (Z.lt_ge_cases i 8) as [Hlt | Hge].
    - apply Z.shiftl_spec_low. exact Hlt.
    - rewrite Z.shiftl_spec by lia.
      destruct (Z.eq_dec p 0) as [-> | Hne]; [apply Z.bits_0|].
      apply Z.bits_above_log2; [lia|].
      assert (Z.log2 p < 8); [|lia].
      apply Z.log2_lt_pow2; lia. }
  assert (Hm : Z.testbit 0x0000ff00 i = false).
  { change 0x0000ff00 with (Z.shiftl 255 8).
    destruct (Z.lt_ge_cases i 8) as [Hlt | Hge].
    - apply Z.shiftl_spec_low. exact Hlt.
    - rewrite Z.shiftl_spec by lia.
      apply Z.bits_above_log2; [lia|]. change (Z.log2 255) with 7. lia. }
  rewrite Hp8, Hm. simpl. rewrite orb_false_r, andb_true_r. reflexivity.
Qed.

(** C7 (code defect): for the rate 600 kHz on a 228 MHz module clock the
    routine writes the prescale 256 shifted by 8, that is bit 16: the
    prescale field (bits 8-15) of the format register ends as 0 and bit 16,
    outside the field, changes from 0 to 1. *)
Theorem calc_clk_div_sets_bit_16 :
  let w := mk_world (set_speed 600000 idle_spi) [] []
             (mk_sim (fun _ => 0) [] 0x80000000 0 228000000 [] []) [] in
  let r := @davinci_spi_calc_clk_div davinci_header sim sim_platform w in
  (exists w', r = Ok tt w') /\
  writes (trace (res_world r)) = [(0x50, 0); (0x50, 0x10000)] /\
  Z.testbit (sim_regs (dev w) 0x50) 16 = false /\
  Z.testbit (sim_regs (dev (res_world r)) 0x50) 16 = true /\
  Z.land (sim_regs (dev (res_world r)) 0x50) 0xff00 = 0.
Proof. vm_compute. repeat split. eexists. reflexivity. Qed.

(** At 1 MHz the same routine writes the prescale 149 into the field. *)
Example calc_clk_div_1mhz :
  let w := mk_world (set_speed 1000000 idle_spi) [] [] idle_sim [] in
  let r := @davinci_spi_calc_clk_div davinci_header sim sim_platform w in
  writes (trace (res_world r)) = [(0x50, 0); (0x50, 0x9500)].
Proof. reflexivity. Qed.

(** ** Lengths that are not a multiple of the word size *)

(** C10 (code defect): a transfer of 1 byte at 16 bits per word.  The
    length is not a multiple of the 2 bytes of a word and its quotient is 0
    words, yet the transmit loop runs once and sends one word, made of the
    byte of the transfer and the byte after it, and the call returns 1. *)
Theorem pio_short_transfer_sends_a_word :
  let t := mk_spi_transfer (Some [0xAB; 0xCD]) None 1 16 1000000 in
  let w0 := res_world (@davinci_spi_setup_transfer davinci_header sim
                         sim_platform spi0 (Some t)
                         (scripted_world [0x80000000; 0; 0] 0 [] [])) in
  let r := @davinci_spi_bufs_pio davinci_header sim sim_platform 4 spi0 t w0 in
  bytes_per_word (slave (dspi w0) 0) = 2 /\
  len t mod 2 <> 0 /\ len t / 2 = 0 /\
  (exists w', r = Ok 1 w') /\
  data_words 0x3c (trace (res_world r)) = [0xCDAB].
Proof.
  vm_compute. repeat split; try discriminate. eexists. reflexivity.
Qed.

(** With 3 bytes at 16 bits per word one word is sent and 3 is returned. *)
Example pio_three_bytes_one_word :
  let t := mk_spi_transfer (Some [0xAB; 0xCD; 0xEF]) None 3 16 1000000 in
  let w0 := res_world (@davinci_spi_setup_transfer davinci_header sim
                         sim_platform spi0 (Some t)
                         (scripted_world [0x80000000; 0; 0] 0 [] [])) in
  let r := @davinci_spi_bufs_pio davinci_header sim sim_platform 4 spi0 t w0 in
  (exists w', r = Ok 3 w') /\
  data_words 0x3c (trace (res_world r)) = [0xCDAB].
Proof. vm_compute. split; [eexists|]; reflexivity. Qed.

(** ** The divisor routine on any platform *)

Section Divisor.
Context {hdr : SpiHeader} {D : Type} {plat : Platform D}.
Local Open Scope drv_scope.

(** The two register writes of [davinci_spi_calc_clk_div]: the format
    register with the field cleared, then what it reads back with
    [calc_prescale] shifted into place. *)
Lemma calc_clk_div_run (w : world D) (p v1 v2 : Z) (d1 d2 : D) :
  calc_prescale (u32 (clk_get_rate (dev w))) (u32 (speed (dspi w))) = Some p ->
  let a := SPIFMT0 + 0x4 * cs_num (dspi w) in
  let x1 := u32 (Z.land (u32 v1) (Z.lnot 0x0000ff00)) in
  ioread32 a (dev w) = (v1, d1) ->
  ioread32 a (iowrite32 x1 a d1) = (v2, d2) ->
  exists w',
    davinci_spi_calc_clk_div w = Ok tt w' /\
    writes (trace w') =
      writes (trace w) ++ [(a, x1); (a, u32 (Z.lor (u32 v2) (Z.shiftl p 8)))] /\
    dspi w' = dspi w.
Proof.
  intros Hp a x1 R1 R2. unfold calc_prescale in Hp.
  destruct (prescale_round _ _) as [q|] eqn:Hq; [|discriminate].
  injection Hp as <-.
  unfold davinci_spi_calc_clk_div.
  rewrite (bind_run _ _ w (cs_num (dspi w)) w) by reflexivity.
  rewrite (bind_run _ _ w (u32 (speed (dspi w))) w) by reflexivity.
  rewrite (bind_run _ _ w (u32 (clk_get_rate (dev w))) w) by reflexivity.
  rewrite Hq. fold a.
  assert (Hw : exists l, forallb not_write l = true /\
                 when (q <? 2)
                   (pr_info "davinci SPI controller min. prescale value is 2") w
                 = Ok tt (mk_world (dspi w) (tx_mem w) (rx_mem w) (dev w)
                            (trace w ++ l))).
  { destruct (q <? 2).
    - eexists [_]. split; [|reflexivity]. reflexivity.
    - exists []. split; [reflexivity|]. rewrite app_nil_r.
      destruct w; reflexivity. }
  destruct Hw as (l & Hl & E1). rewrite (bind_run _ _ _ _ _ E1).
  unfold clear_fmt_bits, set_fmt_bits, clear_io_bits, set_io_bits.
  fold a. unfold bind, rd, wr. simpl. rewrite R1. simpl. fold x1.
  rewrite R2. simpl. eexists. split; [reflexivity|]. simpl.
  split; [|reflexivity].
  rewrite !writes_app, (writes_not_write l Hl). simpl.
  rewrite app_nil_r, <- app_assoc. reflexivity.
Qed.

(** On a format register that reads back what was written, a prescale of
    at most 255 leaves every bit outside bits 8-15 as it was read. *)
Lemma calc_clk_div_frame (v1 p i : Z) :
  0 <= p <= 255 -> 0 <= i < 32 -> ~ 8 <= i < 16 ->
  let x1 := u32 (Z.land (u32 v1) (Z.lnot 0x0000ff00)) in
  Z.testbit (u32 (Z.lor (u32 x1) (Z.shiftl p 8))) i = Z.testbit (u32 v1) i.
Proof.
  intros Hp Hi Hout x1. subst x1. set (V := u32 v1). unfold u32.
  rewrite Z.mod_pow2_bits_low by lia.
  rewrite Z.lor_spec, !Z.mod_pow2_bits_low by lia.
  rewrite <- Z.lor_spec. apply fmt_field_update; lia.
Qed.

End Divisor.

(** ** How many words the transmit loop sends, and what the call returns *)

Section WordCount.
Context {hdr : SpiHeader} {D : Type} {plat : Platform D}.
Local Open Scope drv_scope.

Lemma s32_small (z : Z) : - 2 ^ 31 <= z < 2 ^ 31 -> s32 z = z.
Proof.
  intros H. unfold s32. destruct (Z.le_gt_cases 0 z) as [Hp | Hn].
  - rewrite Z.mod_small by lia. destruct (Z.ltb_spec z (2 ^ 31)); lia.
  - replace (z mod 2 ^ 32) with (z + 2 ^ 32).
    + destruct (Z.ltb_spec (z + 2 ^ 32) (2 ^ 31)); lia.
    + apply (Z.mod_unique_pos z (2 ^ 32) (-1)); lia.
Qed.

Lemma frame_writes (P : davinci_spi -> davinci_spi -> Prop) (w w' : world D) :
  frame P not_write w w' -> writes (trace w') = writes (trace w).
Proof.
  intros [_ (l & Hl & Hall)].
  rewrite Hl, writes_app, (writes_not_write l Hall). apply app_nil_r.
Qed.

(** A pass of the transmit loop either writes one command word and takes
    one off the count, or writes nothing and keeps the count. *)
Lemma pio_tx_iter_step (fuel : nat) (t : spi_transfer) (d c : Z)
  (w : world D) p w' :
  pio_tx_iter fuel t d c w = Ok p w' ->
  (exists v, writes (trace w') = writes (trace w) ++ [(SPIDAT1, v)] /\
             snd p = s32 (c - 1)) \/
  (writes (trace w') = writes (trace w) /\ snd p = c).
Proof.
  intros H. unfold pio_tx_iter in H.
  apply bind_ok in H as (tx_data & w1 & G & H).
  assert (T1 : writes (trace w1) = writes (trace w)).
  { apply (frame_writes (fun _ _ => True)).
    pose proof (keeps_call_get_tx (fun _ _ => True) not_write
                  (fun _ => I) (fun _ _ _ _ _ => I) (fun _ _ => I) w) as K.
    rewrite G in K. exact K. }
  apply bind_ok in H as (buf_val & w2 & R & H).
  assert (T2 : trace w2 = trace w1).
  { unfold rd in R. destruct (ioread32 SPIBUF (dev w1)).
    inversion R; reflexivity. }
  apply bind_ok in H as (c' & w3 & W & H).
  rewrite <- bind_assoc in H. apply bind_ok in H as (u & w4 & Htail & Hret).
  injection Hret as <- <-.
  pose proof (pio_tx_tail_frame fuel t w3) as K. rewrite Htail in K.
  apply frame_writes in K. simpl in K. rewrite K.
  destruct (Z.land buf_val SPIBUF_TXFULL_MASK =? 0).
  - left. unfold bind, wr, ret in W. inversion W; subst; clear W. simpl.
    eexists. split; [|reflexivity].
    rewrite writes_app, T2, T1. reflexivity.
  - right. unfold ret in W. inversion W; subst; clear W.
    rewrite T2, T1. split; reflexivity.
Qed.

(** The transmit loop started with a count [c] writes [c] minus the final
    count command words to [SPIDAT1] and nothing else; started with a
    count of at least one it ends at zero, having written exactly [c]
    words, however often the FIFO was full. *)
Lemma pio_tx_loop_words (fuel n : nat) (t : spi_transfer) (d c : Z)
  (w : world D) p w' :
  - 2 ^ 31 < c < 2 ^ 31 ->
  pio_tx_loop fuel n t d c w = Ok p w' ->
  exists vals,
    writes (trace w') = writes (trace w) ++ map (fun v => (SPIDAT1, v)) vals /\
    Z.of_nat (length vals) = c - snd p /\
    snd p <= 0 /\ (1 <= c -> snd p = 0).
Proof.
  revert d c w. induction n as [|n IH]; intros d c w Hc H; [discriminate|].
  simpl in H. apply bind_ok in H as (p1 & w1 & Hit & H).
  apply pio_tx_iter_step in Hit.
  destruct Hit as [(v & Tw & Hs) | (Tw & Hs)].
  - rewrite s32_small in Hs by lia.
    destruct (Z.leb_spec (snd p1) 0) as [Hle | Hgt].
    + injection H as <- <-. exists [v]. simpl. repeat split; try lia.
      exact Tw.
    + apply IH in H; [|lia]. destruct H as (vals & T' & L & Hp & Hz).
      exists (v :: vals). simpl. repeat split; try lia.
      rewrite T', Tw, <- app_assoc. reflexivity.
  - destruct (Z.leb_spec (snd p1) 0) as [Hle | Hgt].
    + injection H as <- <-. exists []. simpl. repeat split; try lia.
      rewrite app_nil_r. exact Tw.
    + apply IH in H; [|lia]. destruct H as (vals & T' & L & Hp & Hz).
      exists vals. repeat split; try lia. rewrite T', Tw. reflexivity.
Qed.

(** With a count that is not positive the loop still makes its one pass:
    it sends a word unless the FIFO is full. *)
Lemma pio_tx_loop_zero_count (fuel n : nat) (t : spi_transfer) (d c : Z)
  (w : world D) p w' :
  - 2 ^ 31 < c <= 0 ->
  pio_tx_loop fuel n t d c w = Ok p w' ->
  pio_tx_iter fuel t d c w = Ok p w'.
Proof.
  intros Hc H. destruct n as [|n]; [discriminate|]. simpl in H.
  unfold bind in H. destruct (pio_tx_iter fuel t d c w) as [p1 w1|] eqn:Hit;
    [|discriminate].
  destruct (pio_tx_iter_step fuel t d c w p1 w1 Hit)
    as [(v & _ & Hs) | (_ & Hs)].
  - rewrite s32_small in Hs by lia.
    destruct (Z.leb_spec (snd p1) 0); [exact H | lia].
  - destruct (Z.leb_spec (snd p1) 0); [exact H | lia].
Qed.

Lemma bufs_prep_value (spi : spi_device) :
  returns (davinci_spi_bufs_prep spi) (fun _ r _ => r = 0).
Proof.
  unfold davinci_spi_bufs_prep. cbv zeta.
  apply (returns_last _ _ (fun r _ => r = 0)); intros _.
  apply (returns_last _ _ (fun r _ => r = 0)); intros _.
  intros w r w' [= <- _]. reflexivity.
Qed.

Lemma check_error_codes (v st : Z) :
  fst (davinci_spi_check_error v st) = 0 \/
  fst (davinci_spi_check_error v st) = - ETIMEDOUT \/
  fst (davinci_spi_check_error v st) = - EIO \/
  fst (davinci_spi_check_error v st) = - EBUSY.
Proof.
  unfold davinci_spi_check_error.
  repeat match goal with
         | |- context [if ?c then _ else _] => destruct c
         end; simpl; auto.
Qed.

(** What the polled engine returns: the requested length in bytes, or the
    error number of the classifier. *)
Lemma bufs_pio_return_value (fuel : nat) (spi : spi_device)
  (t : spi_transfer) :
  returns (davinci_spi_bufs_pio fuel spi t)
    (fun _ r _ => r = s32 (len t) \/ r = - ETIMEDOUT \/ r = - EIO \/
                  r = - EBUSY).
Proof.
  set (Q := fun (r : Z) (_ : world D) =>
              r = s32 (len t) \/ r = - ETIMEDOUT \/ r = - EIO \/ r = - EBUSY).
  assert (Hout : forall r0, r0 = 0 \/ r0 = - ETIMEDOUT \/ r0 = - EIO \/
                            r0 = - EBUSY ->
                 returns (bufs_out t r0) (fun _ r w' => Q r w')).
  { intros r0 Hr0. unfold bufs_out.
    apply (returns_last _ _ Q); intros _.
    apply (returns_last _ _ Q); intros _.
    intros w r w' [= <- _]. unfold Q.
    destruct Hr0 as [-> | [-> | [-> | ->]]]; simpl; auto. }
  assert (Hfin : forall conv,
             returns (bufs_finish t conv) (fun _ r w' => Q r w')).
  { intros conv. unfold bufs_finish.
    apply (returns_last _ _ Q); intros st.
    apply (returns_last _ _ Q); intros v.
    pose proof (check_error_codes v (s32 st)) as Hc.
    destruct (davinci_spi_check_error v (s32 st)) as [r0 msg]. simpl in Hc.
    apply (returns_last _ _ Q); intros _.
    apply (returns_last _ _ Q); intros _.
    apply Hout. exact Hc. }
  unfold davinci_spi_bufs_pio. intros w r w' H.
  apply bind_ok in H as (conv & w1 & _ & H).
  apply bind_ok in H as (r0 & w2 & Hprep & H).
  apply bufs_prep_value in Hprep. subst r0. simpl in H.
  revert H. generalize w2 r w'. change (returns
    (call (INIT_COMPLETION done) ;; assign_in_use true ;;
     set_io_bits SPIGCR1 SPIGCR1_SPIENA_MASK ;; write_delay ;;
     cnt <- gets count ;; data1_reg_val <- prime_cs spi ;;
     spin_while fuel SPIBUF (fun v => Z.land v SPIBUF_RXEMPTY_MASK =? 0) ;;
     match tx_buf t with
     | Some _ =>
         clear_io_bits SPIINT SPIINT_MASKALL ;;
         pio_tx_loop fuel fuel t data1_reg_val cnt ;; ret tt
     | None =>
         pd <- gets pdata ;;
         if negb (u8 (poll_mode pd) =? 0)
         then pio_poll_loop fuel fuel data1_reg_val cnt ;; ret tt
         else n <- gets count ;;
              pio_irq_loop fuel (Z.to_nat n) data1_reg_val ;;
              wr (Z.land data1_reg_val 0x0ffcffff) SPIDAT1
     end ;;
     bufs_finish t conv) (fun _ r w' => Q r w')).
  repeat (simple apply (returns_last _ _ Q); intros ?).
  apply Hfin.
Qed.

End WordCount.

(** * Further properties *)

(** ** Register access layer *)

Lemma u32_testbit (z i : Z) : 0 <= i < 32 -> Z.testbit (u32 z) i = Z.testbit z i.
Proof. intros H. unfold u32. apply Z.mod_pow2_bits_low. lia. Qed.

(** X1: [set_io_bits] and [clear_io_bits] read the register once and write
    it once; each of the 32 bits written is the bit read, or-ed with the
    mask bit for the former and and-ed with its complement for the latter,
    so no bit outside the mask changes.  The driver data is untouched. *)
Theorem io_bits_contract :
  forall (D : Type) (plat : Platform D) (addr bits v : Z) (d : D)
         (w : world D),
    ioread32 addr (dev w) = (v, d) ->
    (exists x,
        set_io_bits addr bits w =
          Ok tt (mk_world (dspi w) (tx_mem w) (rx_mem w) (iowrite32 x addr d)
                   (trace w ++ [EvWrite addr x])) /\
        forall i, 0 <= i < 32 ->
                  Z.testbit x i = Z.testbit (u32 v) i || Z.testbit bits i) /\
    (exists y,
        clear_io_bits addr bits w =
          Ok tt (mk_world (dspi w) (tx_mem w) (rx_mem w) (iowrite32 y addr d)
                   (trace w ++ [EvWrite addr y])) /\
        forall i, 0 <= i < 32 ->
                  Z.testbit y i =
                  Z.testbit (u32 v) i && negb (Z.testbit bits i)).
Proof.
  intros D plat addr bits v d w Hr. split.
  - exists (u32 (Z.lor (u32 v) bits)). split.
    + unfold set_io_bits, bind, rd, wr. rewrite Hr. reflexivity.
    + intros i Hi. rewrite u32_testbit by exact Hi. apply Z.lor_spec.
  - exists (u32 (Z.land (u32 v) (Z.lnot bits))). split.
    + unfold clear_io_bits, bind, rd, wr. rewrite Hr. reflexivity.
    + intros i Hi. rewrite u32_testbit by exact Hi.
      rewrite Z.land_spec, Z.lnot_spec by lia. reflexivity.
Qed.

Lemma io_bits_contract_witness :
  (exists x,
      set_io_bits 0x04 0x10000 idle_world =
        Ok tt (mk_world idle_spi [] [] (sim_write x 0x04 idle_sim)
                 [EvWrite 0x04 x]) /\
      forall i, 0 <= i < 32 ->
                Z.testbit x i = Z.testbit (u32 0) i || Z.testbit 0x10000 i) /\
  (exists y,
      clear_io_bits 0x04 0x10000 idle_world =
        Ok tt (mk_world idle_spi [] [] (sim_write y 0x04 idle_sim)
                 [EvWrite 0x04 y]) /\
      forall i, 0 <= i < 32 ->
                Z.testbit y i =
                Z.testbit (u32 0) i && negb (Z.testbit 0x10000 i)).
Proof.
  exact (io_bits_contract sim sim_platform 0x04 0x10000 0 idle_sim idle_world
           eq_refl).
Defined.

(** ** Clock divisor *)

(** X2: for a rate [hz] with [0 < hz <= clk_rate/2] whose quotient
    [clk_rate/hz] is at most 255, the prescale computed lies in [2,255] and
    the rate it gives, [clk_rate/(prescale+1)], does not exceed [hz]. *)
Theorem prescale_within_band :
  forall clk_rate hz : Z,
    0 <= clk_rate < 2 ^ 32 -> 0 < hz <= clk_rate / 2 ->
    clk_rate / hz <= 255 ->
    exists p, calc_prescale clk_rate hz = Some p /\ 2 <= p <= 255 /\
              clk_rate / (p + 1) <= hz.
Proof. exact calc_prescale_in_band. Qed.

Lemma prescale_within_band_witness :
  exists p, calc_prescale 150000000 1000000 = Some p /\ 2 <= p <= 255 /\
            150000000 / (p + 1) <= 1000000.
Proof.
  apply (prescale_within_band 150000000 1000000); [lia | | ].
  - split; [lia|]. vm_compute. discriminate.
  - vm_compute. discriminate.
Defined.

Lemma prescale_field_read (x p : Z) :
  0 <= p <= 255 ->
  Z.land (Z.shiftr (u32 (Z.lor (u32 (Z.land x (Z.lnot 0x0000ff00)))
                          (Z.shiftl p 8))) 8) 0xff = p.
Proof.
  intros Hp. apply Z.bits_inj'. intros n Hn.
  rewrite Z.land_spec, Z.shiftr_spec by lia.
  change 0xff with (Z.ones 8).
  destruct (Z.lt_ge_cases n 8) as [Hlt | Hge].
  - rewrite Z.ones_spec_low, andb_true_r by lia.
    rewrite u32_testbit, Z.lor_spec, u32_testbit by lia.
    rewrite Z.land_spec, Z.lnot_spec by lia.
    change 0x0000ff00 with (Z.shiftl (Z.ones 8) 8).
    rewrite !Z.shiftl_spec by lia.
    replace (n + 8 - 8) with n by lia.
    rewrite Z.ones_spec_low by lia. simpl.
    rewrite andb_false_r. reflexivity.
  - rewrite Z.ones_spec_high, andb_false_r by lia.
    symmetry. destruct (Z.eq_dec p 0) as [-> | Hne]; [apply Z.bits_0|].
    apply Z.bits_above_log2; [lia|].
    assert (Z.log2 p < 8); [|lia]. apply Z.log2_lt_pow2; lia.
Qed.

(** X3: for such a rate, on a format register that reads back what was
    written, [davinci_spi_calc_clk_div] returns after two writes to the
    format register of the chip select; the second leaves the prescale in
    bits 8-15 and every other bit as it was read. *)
Theorem calc_clk_div_updates_field :
  forall (hdr : SpiHeader) (D : Type) (plat : Platform D) (w : world D)
         (v1 : Z) (d1 d2 : D),
    let clk_rate := u32 (clk_get_rate (dev w)) in
    let hz := u32 (speed (dspi w)) in
    let a := SPIFMT0 + 0x4 * cs_num (dspi w) in
    let x1 := u32 (Z.land (u32 v1) (Z.lnot 0x0000ff00)) in
    0 < hz <= clk_rate / 2 -> clk_rate / hz <= 255 ->
    ioread32 a (dev w) = (v1, d1) ->
    ioread32 a (iowrite32 x1 a d1) = (x1, d2) ->
    exists w' p y,
      davinci_spi_calc_clk_div w = Ok tt w' /\
      calc_prescale clk_rate hz = Some p /\ 2 <= p <= 255 /\
      writes (trace w') = writes (trace w) ++ [(a, x1); (a, y)] /\
      Z.land (Z.shiftr y 8) 0xff = p /\
      (forall i, 0 <= i < 32 -> ~ 8 <= i < 16 ->
                 Z.testbit y i = Z.testbit (u32 v1) i) /\
      dspi w' = dspi w.
Proof.
  intros hdr D plat w v1 d1 d2 clk_rate hz a x1 Hhz Hq R1 R2.
  assert (Hclk : 0 <= clk_rate < 2 ^ 32)
    by (apply Z.mod_pos_bound; lia).
  destruct (calc_prescale_in_band clk_rate hz Hclk Hhz Hq)
    as (p & Hp & Hr & _).
  destruct (calc_clk_div_run w p v1 x1 d1 d2 Hp R1 R2) as (w' & Hrun & Hw & Hd).
  exists w', p, (u32 (Z.lor (u32 x1) (Z.shiftl p 8))).
  split; [exact Hrun|]. split; [exact Hp|]. split; [exact Hr|].
  split; [exact Hw|].
  split; [unfold x1; rewrite u32_idem; apply prescale_field_read; lia|].
  split; [|exact Hd].
  intros i Hi Hout. apply calc_clk_div_frame; lia.
Qed.

Lemma calc_clk_div_updates_field_witness :
  let w := mk_world (set_speed 1000000 idle_spi) [] [] idle_sim [] in
  exists w' p y,
    @davinci_spi_calc_clk_div davinci_header sim sim_platform w = Ok tt w' /\
    calc_prescale 150000000 1000000 = Some p /\ 2 <= p <= 255 /\
    writes (trace w') = [(0x50, 0); (0x50, y)] /\
    Z.land (Z.shiftr y 8) 0xff = p /\
    (forall i, 0 <= i < 32 -> ~ 8 <= i < 16 ->
               Z.testbit y i = Z.testbit (u32 0) i) /\
    dspi w' = dspi w.
Proof.
  apply (calc_clk_div_updates_field davinci_header sim sim_platform
           (mk_world (set_speed 1000000 idle_spi) [] [] idle_sim [])
           0 idle_sim (sim_write 0 0x50 idle_sim)).
  - split; [vm_compute; reflexivity | vm_compute; discriminate].
  - vm_compute. discriminate.
  - reflexivity.
  - reflexivity.
Defined.

(** ** Error classifier *)

(** X4: the classifier returns 0 exactly when the timeout,
    desynchronization and bit-error flags are clear and, on a version above
    [SPI_VERSION_2], the data-length, parity, overrun, transmit-interrupt
    and buffer-init flags are clear too; it then logs nothing. *)
Theorem check_error_success :
  forall (hdr : SpiHeader) (v st : Z),
    (fst (davinci_spi_check_error v st) = 0 <->
     flag_set st FTimeout = false /\ flag_set st FDesync = false /\
     flag_set st FBitErr = false /\
     (SPI_VERSION_2 < v ->
      flag_set st FDlenErr = false /\ flag_set st FParErr = false /\
      flag_set st FOvrrun = false /\ flag_set st FTxIntr = false /\
      flag_set st FBufInit = false)) /\
    (fst (davinci_spi_check_error v st) = 0 ->
     snd (davinci_spi_check_error v st) = None).
Proof.
  intros hdr v st. unfold davinci_spi_check_error, flag_set. simpl.
  destruct (Z.ltb_spec SPI_VERSION_2 v) as [Hv | Hv];
    repeat match goal with
           | |- context [tst st ?m] => destruct (tst st m)
           end; simpl;
    (split; [split|]); intros; try discriminate; try reflexivity;
    try (repeat split; intros; solve [reflexivity | lia]);
    try (exfalso; intuition discriminate).
Qed.

Lemma check_error_success_witness :
  snd (@davinci_spi_check_error davinci_header 1 0x300) = None.
Proof.
  apply (proj2 (check_error_success davinci_header 1 0x300)). reflexivity.
Defined.

(** ** The transfer engines *)

Ltac kside :=
  solve [ intros; exact I | intros; reflexivity | intros; congruence
        | assumption ].

Ltac kapply L := simple apply L; try kside.

(** One step of a proof that a statement keeps a frame whose side
    conditions [kside] settles. *)
Ltac kstep :=
  first
    [ match goal with
      | H : context [keeps] |- keeps _ _ => simple apply H
      end
    | simple apply keeps_bind; try kside; [|intros ?]
    | kapply @keeps_ret | kapply @keeps_halt | kapply @keeps_gets
    | kapply @keeps_rd | kapply @keeps_wr | kapply @keeps_call
    | kapply @keeps_set_io_bits | kapply @keeps_clear_io_bits
    | kapply @keeps_spin_while | kapply @keeps_call_get_rx
    | kapply @keeps_call_get_tx | kapply @keeps_bufs_prep
    | kapply @keeps_bind_cursors | kapply @keeps_prime_cs
    | kapply @keeps_write_delay | kapply @keeps_the_dma
    | kapply @keeps_pio_tx_loop | kapply @keeps_pio_poll_loop
    | kapply @keeps_pio_irq_loop | kapply @keeps_dma_map_tx
    | kapply @keeps_dma_setup_rx | kapply @keeps_dma_run
    | kapply @keeps_request_dma | kapply @keeps_calc_clk_div
    | kapply @keeps_modify | kapply @keeps_emit | kapply @keeps_when
    | match goal with
      | |- keeps _ (match ?x with _ => _ end) => destruct x
      | |- keeps _ (let '(_, _) := ?x in _) => destruct x
      end
    | progress unfold assign_in_use, dev_dbg, pr_info, bufs_out, bufs_finish,
        set_fmt_bits, clear_fmt_bits, davinci_spi_set_dma_req ].

Ltac release_step :=
  first
    [ simple apply @bufs_finish_released
    | simple apply @bufs_out_released
    | simple apply @returns_last; intros ?
    | match goal with
      | |- returns (match ?x with _ => _ end) _ => destruct x
      end ].

Section Engines.
Context {hdr : SpiHeader} {D : Type} {plat : Platform D}.
Local Open Scope drv_scope.

Lemma grown_trace (w w' : world D) :
  grown w w' -> exists l, trace w' = trace w ++ l.
Proof. intros [_ (l & Hl & _)]. exists l. exact Hl. Qed.




End Engines.

(** X5: every execution of the polled engine that returns has assigned
    the in-flight flag to true and ends with the flag cleared and the
    completion signalled; no return leaves the flag set. *)
Theorem bufs_pio_sets_and_releases :
  forall (hdr : SpiHeader) (D : Type) (plat : Platform D) (fuel : nat)
         (spi : spi_device) (t : spi_transfer) (w : world D) (r : Z)
         (w' : world D),
    davinci_spi_bufs_pio fuel spi t w = Ok r w' ->
    released w' /\ In (EvInUse true) (new_events w w').
Proof.
  intros hdr D plat fuel spi t w r w' H. unfold davinci_spi_bufs_pio in H.
  apply bind_ok in H as (conv & w1 & H1 & H).
  apply bind_ok in H as (r0 & w2 & H2 & H).
  pose proof (bufs_prep_value spi w1 r0 w2 H2) as Hr0. cbv beta in Hr0.
  subst r0. simpl in H.
  apply bind_ok in H as (x & w3 & H3 & H).
  apply bind_ok in H as (u & w4 & H4 & H).
  split.
  - revert H. generalize w4 r w'.
    match goal with
    | |- forall w0 r0 w0', ?m w0 = Ok r0 w0' -> _ =>
        change (returns m (fun _ _ w0' => released w0'))
    end.
    repeat release_step.
  - assert (G1 : grown w w1).
    { pose proof (keeps_bind_cursors (fun _ _ => True) (fun _ => true)
                    (fun _ => I) (fun _ _ _ _ _ => I) (fun _ _ => I)
                    (fun _ _ => I) (fun _ _ => I) spi t w) as K.
      rewrite H1 in K. exact K. }
    assert (G2 : grown w1 w2).
    { assert (K : keeps grown (davinci_spi_bufs_prep spi))
        by (unfold grown; repeat kstep).
      specialize (K w1). rewrite H2 in K. exact K. }
    assert (G3 : grown w2 w3).
    { assert (K : keeps grown (call (INIT_COMPLETION done)))
        by (unfold grown; repeat kstep).
      specialize (K w2). rewrite H3 in K. exact K. }
    assert (G4 : trace w4 = trace w3 ++ [EvInUse true]).
    { unfold assign_in_use, bind, modify, emit in H4.
      inversion H4; reflexivity. }
    assert (G5 : grown w4 w').
    { match type of H with
      | ?m w4 = _ => assert (K : keeps grown m)
          by (unfold grown; repeat kstep)
      end.
      specialize (K w4). rewrite H in K. exact K. }
    apply grown_trace in G1 as (l1 & E1). apply grown_trace in G2 as (l2 & E2).
    apply grown_trace in G3 as (l3 & E3). apply grown_trace in G5 as (l5 & E5).
    unfold new_events. rewrite E5, G4, E3, E2, E1.
    rewrite <- !app_assoc, drop_app_length. rewrite !in_app_iff. simpl. tauto.
Qed.

Lemma bufs_pio_sets_and_releases_witness :
  let w := scripted_world loopback_script 0 [] [] in
  let w' := res_world (@davinci_spi_bufs_pio davinci_header sim sim_platform
                         4 spi0 xfer_two_bytes w) in
  released w' /\ In (EvInUse true) (new_events w w').
Proof.
  apply (bufs_pio_sets_and_releases davinci_header sim sim_platform 4 spi0
           xfer_two_bytes (scripted_world loopback_script 0 [] []) 2).
  vm_compute. reflexivity.
Defined.

(** X6: what the polled engine returns is the requested length [t->len]
    (as an [int]), whatever the number of words moved, or one of the error
    numbers [-ETIMEDOUT], [-EIO], [-EBUSY] of the classifier. *)
Theorem bufs_pio_returns_len_or_errno :
  forall (hdr : SpiHeader) (D : Type) (plat : Platform D) (fuel : nat)
         (spi : spi_device) (t : spi_transfer) (w : world D) (r : Z)
         (w' : world D),
    davinci_spi_bufs_pio fuel spi t w = Ok r w' ->
    r = s32 (len t) \/ r = - ETIMEDOUT \/ r = - EIO \/ r = - EBUSY.
Proof.
  intros hdr D plat fuel spi t w r w' H.
  exact (bufs_pio_return_value fuel spi t w r w' H).
Qed.

Lemma bufs_pio_returns_len_or_errno_witness :
  2 = s32 (len xfer_two_bytes) \/ 2 = - ETIMEDOUT \/ 2 = - EIO \/
  2 = - EBUSY.
Proof.
  apply (bufs_pio_returns_len_or_errno davinci_header sim sim_platform 4
           spi0 xfer_two_bytes (scripted_world loopback_script 0 [] []) 2
           (res_world (@davinci_spi_bufs_pio davinci_header sim sim_platform
                         4 spi0 xfer_two_bytes
                         (scripted_world loopback_script 0 [] [])))).
  vm_compute. reflexivity.
Defined.



(** X8: a returning transmit loop started with a count of at least one
    has written exactly that many command words to [SPIDAT1], and no other
    register, and ends with count zero, however many passes found the
    transmit FIFO full. *)
Theorem pio_tx_loop_sends_count_words :
  forall (hdr : SpiHeader) (D : Type) (plat : Platform D) (fuel n : nat)
         (t : spi_transfer) (d c : Z) (w : world D) (p : Z * Z)
         (w' : world D),
    1 <= c < 2 ^ 31 ->
    pio_tx_loop fuel n t d c w = Ok p w' ->
    snd p = 0 /\
    exists vals,
      writes (trace w') = writes (trace w) ++ map (fun v => (SPIDAT1, v)) vals /\
      Z.of_nat (length vals) = c.
Proof.
  intros hdr D plat fuel n t d c w p w' Hc H.
  destruct (pio_tx_loop_words fuel n t d c w p w' ltac:(lia) H)
    as (vals & Hw & Hl & _ & Hz).
  specialize (Hz ltac:(lia)). split; [exact Hz|].
  exists vals. split; [exact Hw | lia].
Qed.

Lemma pio_tx_loop_sends_count_words_witness :
  let w := mk_world (set_tx (Some O) idle_spi) [0x12; 0x34] []
             (mk_sim (fun _ => 0) [0x20000000; 0; 0; 0; 0; 0] 0 0 150000000
                [] []) [] in
  let t := mk_spi_transfer (Some [0x12; 0x34; 0x56]) None 2 8 0 in
  exists vals,
    writes (trace (res_world (@pio_tx_loop davinci_header sim sim_platform
                                4 4 t 0xFE0000 1 w))) =
      writes (trace w) ++ map (fun v => (@SPIDAT1 davinci_header, v)) vals /\
    Z.of_nat (length vals) = 1.
Proof.
  apply (proj2 (pio_tx_loop_sends_count_words davinci_header sim sim_platform
                  4 4 (mk_spi_transfer (Some [0x12; 0x34; 0x56]) None 2 8 0)
                  0xFE0000 1
                  (mk_world (set_tx (Some O) idle_spi) [0x12; 0x34] []
                     (mk_sim (fun _ => 0) [0x20000000; 0; 0; 0; 0; 0] 0 0
                        150000000 [] []) [])
                  (0xFE0034, 0) _ ltac:(lia) ltac:(vm_compute; reflexivity))).
Defined.

(** X9: a pass of the transmit loop over 8-bit words that finds the
    transmit FIFO full writes no register and keeps the count, and has
    moved the transmit cursor to the next byte all the same. *)
Theorem pio_tx_pass_fifo_full :
  forall (hdr : SpiHeader) (D : Type) (plat : Platform D) (fuel : nat)
         (t : spi_transfer) (data1_reg_val cnt : Z) (w : world D) (i : nat)
         (b v : Z) (d1 : D) (p : Z * Z) (w' : world D),
    get_tx (dspi w) = tx_buf_u8 -> tx (dspi w) = Some i ->
    tx_mem w !! i = Some b ->
    ioread32 SPIBUF (dev w) = (v, d1) ->
    Z.land (u32 v) SPIBUF_TXFULL_MASK <> 0 ->
    pio_tx_iter fuel t data1_reg_val cnt w = Ok p w' ->
    snd p = cnt /\ writes (trace w') = writes (trace w) /\
    tx (dspi w') = Some (i + 1)%nat.
Proof.
  intros hdr D plat fuel t data1_reg_val cnt w i b v d1 p w'.
  apply pio_tx_iter_fifo_full.
Qed.

Lemma pio_tx_pass_fifo_full_witness :
  let w := mk_world (set_tx (Some O) idle_spi) [0x12; 0x34] []
             (mk_sim (fun _ => 0) [0x20000000; 0] 0 0 150000000 [] []) [] in
  let t := mk_spi_transfer (Some [0x12; 0x34]) None 2 8 0 in
  let r := @pio_tx_iter davinci_header sim sim_platform 4 t 0xFE0000 2 w in
  2 = 2 /\ writes (trace (res_world r)) = writes (trace w) /\
  tx (dspi (res_world r)) = Some 1%nat.
Proof.
  apply (pio_tx_pass_fifo_full davinci_header sim sim_platform 4
           (mk_spi_transfer (Some [0x12; 0x34]) None 2 8 0) 0xFE0000 2
           (mk_world (set_tx (Some O) idle_spi) [0x12; 0x34] []
              (mk_sim (fun _ => 0) [0x20000000; 0] 0 0 150000000 [] []) [])
           O 0x12 0x20000000
           (mk_sim (fun _ => 0) [0] 0 0 150000000 [] [])
           (0xFE0012, 2)).
  - reflexivity.
  - reflexivity.
  - reflexivity.
  - reflexivity.
  - vm_compute. discriminate.
  - vm_compute. reflexivity.
Defined.

(** ** The receive-only loops *)

Section ReceiveLoops.
Context {hdr : SpiHeader} {D : Type} {plat : Platform D}.
Local Open Scope drv_scope.

Lemma rd_ok (addr : Z) (w : world D) v w' :
  rd addr w = Ok v w' ->
  dspi w' = dspi w /\ trace w' = trace w /\ rx_mem w' = rx_mem w /\
  tx_mem w' = tx_mem w /\ exists x, ioread32 addr (dev w) = (x, dev w') /\ v = u32 x.
Proof.
  unfold rd. destruct (ioread32 addr (dev w)) as [x d] eqn:E.
  intros H. inversion H; subst; clear H. simpl. eauto 10.
Qed.

Lemma set_io_bits_inv (addr bits : Z) (w : world D) w' :
  set_io_bits addr bits w = Ok tt w' ->
  dspi w' = dspi w /\ rx_mem w' = rx_mem w /\
  exists x, trace w' = trace w ++ [EvWrite addr x].
Proof.
  unfold set_io_bits, bind, rd, wr. destruct (ioread32 addr (dev w)).
  intros H. inversion H; subst; clear H. simpl. eauto.
Qed.

Lemma spin_while_inv (fuel : nat) (addr : Z) (cond : Z -> bool)
  (w : world D) w' :
  spin_while fuel addr cond w = Ok tt w' ->
  dspi w' = dspi w /\ trace w' = trace w /\ rx_mem w' = rx_mem w /\
  tx_mem w' = tx_mem w /\
  exists d0 v, ioread32 addr d0 = (v, dev w') /\ cond (u32 v) = false.
Proof.
  revert w. induction fuel as [|n IH]; intros w H; [discriminate|].
  simpl in H. apply bind_ok in H as (v & w1 & R & H).
  apply rd_ok in R as (Hd & Ht & Hr & Hx & (x & Hx1 & ->)).
  destruct (cond (u32 x)) eqn:Hc.
  - apply IH in H as (Hd' & Ht' & Hr' & Hx' & Hlast).
    rewrite Hd', Ht', Hr', Hx'. auto.
  - injection H as <-. repeat split; try assumption. eauto.
Qed.

Lemma call_get_rx_inv (data : Z) (w : world D) w' (i : nat) :
  rx (dspi w) = Some i ->
  call_get_rx data w = Ok tt w' ->
  dspi w' = set_rx (Some (i + rx_bytes (get_rx (dspi w)))%nat) (dspi w) /\
  trace w' = trace w /\ dev w' = dev w /\ tx_mem w' = tx_mem w /\
  (i + rx_bytes (get_rx (dspi w)) <= length (rx_mem w))%nat /\
  rx_mem w' =
    match get_rx (dspi w) with
    | rx_buf_u8 => <[i := u8 data]> (rx_mem w)
    | rx_buf_u16 =>
        <[S i := u8 (u16 data / 2 ^ 8)]> (<[i := u8 (u16 data)]> (rx_mem w))
    end.
Proof.
  intros Hrx. unfold call_get_rx, bind, gets.
  destruct (get_rx (dspi w)); simpl.
  - unfold davinci_spi_rx_buf_u8, bind, gets, store8, modify. rewrite Hrx.
    destruct (Nat.ltb_spec i (length (rx_mem w))) as [Hlt|]; [|discriminate].
    intros H. inversion H; subst; clear H. simpl.
    repeat split; try reflexivity. lia.
  - unfold davinci_spi_rx_buf_u16, bind, gets, store16, modify. rewrite Hrx.
    destruct (Nat.ltb_spec (i + 1) (length (rx_mem w))) as [Hlt|];
      [|discriminate].
    intros H. inversion H; subst; clear H. simpl.
    repeat split; try reflexivity. lia.
Qed.

(** A pass of the polling loop stores one word, takes one off the count
    and writes the command word at most once. *)
Lemma pio_poll_iter_inv (fuel : nat) (d c : Z) (w : world D) c' w'
  (i : nat) :
  rx (dspi w) = Some i ->
  pio_poll_iter fuel d c w = Ok c' w' ->
  c' = s32 (c - 1) /\
  dspi w' = set_rx (Some (i + rx_bytes (get_rx (dspi w)))%nat) (dspi w) /\
  exists k, (k <= 1)%nat /\
            writes (trace w') = writes (trace w) ++ repeat (SPIDAT1, u32 d) k.
Proof.
  intros Hrx H. unfold pio_poll_iter in H.
  apply bind_ok in H as (v & w1 & R1 & H).
  apply rd_ok in R1 as (D1 & T1 & _).
  apply bind_ok in H as (u & w2 & W & H).
  assert (HW : dspi w2 = dspi w1 /\
               exists k, (k <= 1)%nat /\
                 trace w2 = trace w1 ++ repeat (EvWrite SPIDAT1 (u32 d)) k).
  { unfold when in W. destruct (Z.land v SPIBUF_TXFULL_MASK =? 0).
    - unfold wr in W. inversion W; subst; clear W. simpl.
      split; [reflexivity|]. exists 1%nat. split; [lia | reflexivity].
    - unfold ret in W. inversion W; subst w2; clear W.
      split; [reflexivity|]. exists O.
      split; [lia|]. simpl. rewrite app_nil_r. reflexivity. }
  destruct HW as (D2 & k & Hk & T2).
  apply bind_ok in H as (u3 & w3 & S3 & H). destruct u3.
  apply spin_while_inv in S3 as (D3 & T3 & _).
  apply bind_ok in H as (flg & w4 & R4 & H).
  apply rd_ok in R4 as (D4 & T4 & _).
  apply bind_ok in H as (buf & w5 & R5 & H).
  apply rd_ok in R5 as (D5 & T5 & _).
  apply bind_ok in H as (u6 & w6 & G & H). destruct u6.
  injection H as <- <-.
  assert (Hrx5 : rx (dspi w5) = Some i) by congruence.
  apply (call_get_rx_inv buf w5 w6 i Hrx5) in G as (D6 & T6 & _).
  split; [reflexivity|]. split; [rewrite D6; congruence|].
  exists k. split; [exact Hk|].
  rewrite T6, T5, T4, T3, T2, T1, writes_app. f_equal.
  clear. induction k as [|k IH]; simpl; [reflexivity | rewrite IH; reflexivity].
Qed.

End ReceiveLoops.

(** X10: a returning receive-only polling loop started with a count [c]
    of at least one has stored exactly [c] words through the receive
    accessor, moving the receive cursor by [c] words, ends with count
    zero, and has written the command word at most [c] times and no other
    register. *)
Theorem pio_poll_loop_receives_count_words :
  forall (hdr : SpiHeader) (D : Type) (plat : Platform D) (fuel n : nat)
         (d c : Z) (w : world D) (c' : Z) (w' : world D) (i : nat),
    rx (dspi w) = Some i -> 1 <= c < 2 ^ 31 ->
    pio_poll_loop fuel n d c w = Ok c' w' ->
    c' = 0 /\
    rx (dspi w') = Some (i + Z.to_nat c * rx_bytes (get_rx (dspi w)))%nat /\
    exists k, (k <= Z.to_nat c)%nat /\
              writes (trace w') = writes (trace w) ++ repeat (SPIDAT1, u32 d) k.
Proof.
  intros hdr D plat fuel n d c w c' w' i. revert c w i.
  induction n as [|n IH]; intros c w i Hrx Hc H; [discriminate|].
  simpl in H. apply bind_ok in H as (c1 & w1 & Hit & H).
  apply (pio_poll_iter_inv fuel d c w c1 w1 i Hrx) in Hit
    as (-> & D1 & k1 & Hk1 & T1).
  rewrite s32_small in H by lia.
  destruct (Z.leb_spec (c - 1) 0) as [Hle | Hgt].
  - injection H as <- <-. assert (c = 1) by lia. subst c.
    split; [reflexivity|]. split.
    + rewrite D1. simpl. f_equal. lia.
    + exists k1. split; [simpl; lia | exact T1].
  - assert (Hrx1 : rx (dspi w1) =
                   Some (i + rx_bytes (get_rx (dspi w)))%nat)
      by (rewrite D1; reflexivity).
    apply (IH (c - 1) w1 _ Hrx1 ltac:(lia)) in H as (-> & R & k & Hk & T).
    split; [reflexivity|]. split.
    + rewrite R. rewrite D1. simpl. f_equal.
      replace (Z.to_nat c) with (S (Z.to_nat (c - 1))) by lia. lia.
    + exists (k1 + k)%nat. split; [lia|].
      rewrite T, T1, <- app_assoc, repeat_app. reflexivity.
Qed.

Lemma pio_poll_loop_receives_count_words_witness :
  let w := mk_world (set_rx (Some O) idle_spi) [] [0; 0]
             (mk_sim (fun _ => 0) [0; 0x12; 0x12; 0; 0x34; 0x34] 0 0
                150000000 [] []) [] in
  let w' := res_world (@pio_poll_loop davinci_header sim sim_platform 4 4
                         0xFE0000 2 w) in
  0 = 0 /\
  rx (dspi w') = Some (0 + Z.to_nat 2 * rx_bytes (get_rx (dspi w)))%nat /\
  exists k, (k <= Z.to_nat 2)%nat /\
            writes (trace w') =
            writes (trace w) ++ repeat (@SPIDAT1 davinci_header, u32 0xFE0000) k.
Proof.
  apply (pio_poll_loop_receives_count_words davinci_header sim sim_platform
           4 4 0xFE0000 2
           (mk_world (set_rx (Some O) idle_spi) [] [0; 0]
              (mk_sim (fun _ => 0) [0; 0x12; 0x12; 0; 0x34; 0x34] 0 0
                 150000000 [] []) []) 0 _ O).
  - reflexivity.
  - lia.
  - vm_compute. reflexivity.
Defined.




(** ** DMA channels: request and cleanup *)

Section Channels.
Context {hdr : SpiHeader} {more : SpiHeaderMore} {D : Type}
  {plat : Platform D}.
Local Open Scope drv_scope.

Lemma upd_same {A : Type} (f : Z -> A) (i : Z) (a : A) : upd f i a i = a.
Proof. unfold upd. rewrite Z.eqb_refl. reflexivity. Qed.

Lemma call_inv (op : ext_op) (w : world D) r w' :
  call op w = Ok r w' ->
  dspi w' = dspi w /\ trace w' = trace w ++ [EvCall op r] /\
  rx_mem w' = rx_mem w /\ tx_mem w' = tx_mem w.
Proof.
  unfold call. destruct (extern op (dev w)) as [[r0 d]|]; [|discriminate].
  intros H. inversion H; subst; clear H. simpl. auto.
Qed.

(** The three ways [davinci_spi_request_dma] returns. *)
Lemma request_dma_cases (spi : spi_device) (w : world D)
  (chans : Z -> davinci_spi_dma) r w' :
  dma_channels (dspi w) = Some chans ->
  davinci_spi_request_dma spi w = Ok r w' ->
  let d := chans (chip_select spi) in
  let alloc_rx := edma_alloc_channel (dma_rx_sync_dev d)
                    davinci_spi_dma_rx_callback (eventq d) in
  let alloc_tx := edma_alloc_channel (dma_tx_sync_dev d)
                    davinci_spi_dma_tx_callback (eventq d) in
  (exists r1,
      s32 r1 < 0 /\ r = - EAGAIN /\ dspi w' = dspi w /\
      trace w' = trace w ++
        [EvCall alloc_rx r1;
         EvLog "Unable to request DMA channel for SPI RX"]) \/
  (exists r1 r2 x,
      0 <= s32 r1 /\ s32 r2 < 0 /\ r = - EAGAIN /\
      dspi w' =
        set_dma_channels
          (Some (upd (upd chans (chip_select spi)
                        (set_dma_rx_channel (s32 r1) d))
                   (chip_select spi) (set_dma_rx_channel (-1) d))) (dspi w) /\
      trace w' = trace w ++
        [EvCall alloc_rx r1; EvCall alloc_tx r2;
         EvCall (edma_free_channel (s32 r1)) x;
         EvLog "Unable to request DMA channel for SPI TX"]) \/
  (exists r1 r2,
      0 <= s32 r1 /\ 0 <= s32 r2 /\ r = 0 /\
      dspi w' =
        set_dma_channels
          (Some (upd (upd chans (chip_select spi)
                        (set_dma_rx_channel (s32 r1) d))
                   (chip_select spi)
                   (set_dma_tx_channel (s32 r2)
                      (set_dma_rx_channel (s32 r1) d)))) (dspi w) /\
      trace w' = trace w ++ [EvCall alloc_rx r1; EvCall alloc_tx r2]).
Proof.
  intros Hc H d alloc_rx alloc_tx.
  unfold davinci_spi_request_dma, the_dma in H.
  rewrite bind_assoc, (bind_run _ _ w (Some chans) w) in H
    by (unfold gets; rewrite Hc; reflexivity).
  rewrite (bind_run _ _ w (chans (chip_select spi)) w) in H by reflexivity.
  fold d in H. fold alloc_rx in H. fold alloc_tx in H.
  apply bind_ok in H as (r1 & w1 & C1 & H).
  unfold call in C1. destruct (extern alloc_rx (dev w)) as [[r1' d1]|];
    [|discriminate].
  inversion C1; subst r1' w1; clear C1.
  destruct (Z.ltb_spec (s32 r1) 0) as [N1 | P1].
  - left. unfold dev_dbg, emit, bind, ret in H. simpl in H.
    inversion H; subst; clear H. simpl. exists r1.
    repeat split; try assumption. rewrite <- app_assoc. reflexivity.
  - right. unfold modify_dma in H. rewrite bind_modify in H. simpl in H.
    rewrite Hc in H. simpl in H.
    apply bind_ok in H as (r2 & w2 & C2 & H).
    unfold call in C2. simpl in C2.
    destruct (extern alloc_tx d1) as [[r2' d2]|]; [|discriminate].
    inversion C2; subst r2' w2; clear C2.
    destruct (Z.ltb_spec (s32 r2) 0) as [N2 | P2].
    + left. unfold bind at 1 in H. unfold bind at 1 in H. simpl in H.
      apply bind_ok in H as (x & w3 & C3 & H).
      unfold call in C3. simpl in C3.
      destruct (extern _ d2) as [[x' d3]|]; [|discriminate].
      inversion C3; subst x' w3; clear C3.
      rewrite bind_modify in H. simpl in H.
      unfold dev_dbg, emit, bind, ret in H. simpl in H.
      inversion H; subst; clear H. simpl.
      exists r1, r2, x. rewrite !upd_same. subst d. simpl.
      repeat split; try assumption; try reflexivity.
      rewrite <- !app_assoc. reflexivity.
    + right. rewrite bind_modify in H. simpl in H.
      unfold ret in H. inversion H; subst; clear H. simpl.
      exists r1, r2. rewrite !upd_same. subst d. simpl.
      repeat split; try assumption; try reflexivity.
      rewrite <- !app_assoc. reflexivity.
Qed.

End Channels.

(** What [davinci_spi_cleanup] does, by the state of the pair. *)
Lemma cleanup_cases :
  forall (D : Type) (plat : Platform D) (use_dma : Z) (spi : spi_device)
         (w : world D),
    (use_dma = 0 \/ dma_channels (dspi w) = None \/
     (exists chans, dma_channels (dspi w) = Some chans /\
                    ~ pair_allocated (chans (chip_select spi))) ->
     davinci_spi_cleanup use_dma spi w = Ok tt w) /\
    (forall chans w',
        use_dma <> 0 -> dma_channels (dspi w) = Some chans ->
        pair_allocated (chans (chip_select spi)) ->
        davinci_spi_cleanup use_dma spi w = Ok tt w' ->
        dspi w' = dspi w /\
        exists x y,
          trace w' = trace w ++
            [EvCall (edma_free_channel
                       (dma_tx_channel (chans (chip_select spi)))) x;
             EvCall (edma_free_channel
                       (dma_rx_channel (chans (chip_select spi)))) y]).
Proof.
  intros D plat use_dma spi w. split.
  - intros Hc. unfold davinci_spi_cleanup.
    rewrite (bind_run _ _ w (dma_channels (dspi w)) w) by reflexivity.
    destruct Hc as [-> | [Hn | (chans & Hs & Hna)]]; [reflexivity | |].
    + rewrite Hn. rewrite andb_false_r. reflexivity.
    + rewrite Hs. destruct (use_dma =? 0); [reflexivity|]. simpl.
      unfold the_dma.
      rewrite bind_assoc, (bind_run _ _ w (Some chans) w)
        by (unfold gets; rewrite Hs; reflexivity).
      rewrite (bind_run _ _ w (chans (chip_select spi)) w) by reflexivity.
      unfold pair_allocated in Hna.
      destruct (Z.eqb_spec (dma_rx_channel (chans (chip_select spi))) (-1));
        [reflexivity|].
      destruct (Z.eqb_spec (dma_tx_channel (chans (chip_select spi))) (-1));
        [reflexivity|].
      exfalso. apply Hna. split; assumption.
  - intros chans w' Hu Hs [Hrx Htx] H. unfold davinci_spi_cleanup in H.
    rewrite (bind_run _ _ w (dma_channels (dspi w)) w) in H by reflexivity.
    rewrite Hs in H. apply Z.eqb_neq in Hu. rewrite Hu in H. simpl in H.
    unfold the_dma in H.
    rewrite bind_assoc, (bind_run _ _ w (Some chans) w) in H
      by (unfold gets; rewrite Hs; reflexivity).
    rewrite (bind_run _ _ w (chans (chip_select spi)) w) in H by reflexivity.
    apply Z.eqb_neq in Hrx, Htx. rewrite Hrx, Htx in H. simpl in H.
    apply bind_ok in H as (x & w1 & C1 & H).
    apply bind_ok in H as (y & w2 & C2 & H).
    unfold ret in H. inversion H; subst; clear H.
    apply call_inv in C1 as (D1 & T1 & _).
    apply call_inv in C2 as (D2 & T2 & _).
    split; [congruence|]. exists x, y.
    rewrite T2, T1, <- app_assoc. reflexivity.
Qed.

(** X12: [davinci_spi_cleanup] frees nothing, and changes nothing, when
    DMA is off, when there is no channel array, or when either handle of
    the pair is -1; on a fully allocated pair it frees the TX channel and
    then the RX channel and leaves both handles as they were. *)
Theorem cleanup_frees_full_pairs_only :
  forall (D : Type) (plat : Platform D) (use_dma : Z) (spi : spi_device)
         (w : world D),
    (use_dma = 0 \/ dma_channels (dspi w) = None \/
     (exists chans, dma_channels (dspi w) = Some chans /\
                    ~ pair_allocated (chans (chip_select spi))) ->
     davinci_spi_cleanup use_dma spi w = Ok tt w) /\
    (forall chans w',
        use_dma <> 0 -> dma_channels (dspi w) = Some chans ->
        pair_allocated (chans (chip_select spi)) ->
        davinci_spi_cleanup use_dma spi w = Ok tt w' ->
        dspi w' = dspi w /\
        exists x y,
          trace w' = trace w ++
            [EvCall (edma_free_channel
                       (dma_tx_channel (chans (chip_select spi)))) x;
             EvCall (edma_free_channel
                       (dma_rx_channel (chans (chip_select spi)))) y]).
Proof. exact cleanup_cases. Qed.

Lemma cleanup_frees_full_pairs_only_witness :
  @davinci_spi_cleanup sim sim_platform 1 spi0 idle_world = Ok tt idle_world.
Proof.
  apply (proj1 (cleanup_frees_full_pairs_only sim sim_platform 1 spi0
                  idle_world)).
  right. right. exists (fun _ => idle_dma). split; [reflexivity|].
  intros [H _]. apply H. reflexivity.
Defined.

(** X13: after [davinci_spi_request_dma] on an unallocated pair, cleanup
    frees the two channels the request allocated, each once and the TX
    channel first, when the request returned 0, and frees nothing when the
    request returned [-EAGAIN]: the RX channel released by the unwinding
    is not freed a second time. *)
Theorem request_then_cleanup :
  forall (D : Type) (plat : Platform D) (use_dma : Z) (spi : spi_device)
         (w : world D) (chans : Z -> davinci_spi_dma) (r : Z)
         (w1 w2 : world D),
    dma_channels (dspi w) = Some chans ->
    pair_unallocated (chans (chip_select spi)) ->
    davinci_spi_request_dma spi w = Ok r w1 ->
    davinci_spi_cleanup use_dma spi w1 = Ok tt w2 ->
    let d := chans (chip_select spi) in
    let alloc_rx := edma_alloc_channel (dma_rx_sync_dev d)
                      davinci_spi_dma_rx_callback (eventq d) in
    let alloc_tx := edma_alloc_channel (dma_tx_sync_dev d)
                      davinci_spi_dma_tx_callback (eventq d) in
    (r = - EAGAIN /\ w2 = w1) \/
    (r = 0 /\ use_dma = 0 /\ w2 = w1) \/
    (r = 0 /\ use_dma <> 0 /\
     exists r1 r2 x y,
       trace w2 = trace w ++
         [EvCall alloc_rx r1; EvCall alloc_tx r2;
          EvCall (edma_free_channel (s32 r2)) x;
          EvCall (edma_free_channel (s32 r1)) y]).
Proof.
  intros D plat use_dma spi w chans r w1 w2 Hs [Hrx Htx] Hreq Hcl d
    alloc_rx alloc_tx.
  destruct (request_dma_cases spi w chans r w1 Hs Hreq)
    as [(r1 & N1 & -> & D1 & T1)
       | [(r1 & r2 & x & P1 & N2 & -> & D1 & T1)
         | (r1 & r2 & P1 & P2 & -> & D1 & T1)]].
  - left. split; [reflexivity|].
    pose proof (proj1 (cleanup_cases D plat use_dma spi w1))
      as K.
    rewrite K in Hcl; [congruence|].
    right. right. exists chans. split; [congruence|].
    intros [H _]. apply H. exact Hrx.
  - left. split; [reflexivity|].
    pose proof (proj1 (cleanup_cases D plat use_dma spi w1))
      as K.
    rewrite K in Hcl; [congruence|].
    right. right. eexists. split; [rewrite D1; reflexivity|].
    rewrite upd_same. simpl. intros [H _]. apply H. reflexivity.
  - right. destruct (Z.eq_dec use_dma 0) as [Hu | Hu].
    + left. split; [reflexivity|]. split; [exact Hu|].
      pose proof (proj1 (cleanup_cases D plat use_dma spi w1))
        as K.
      rewrite K in Hcl; [congruence | left; exact Hu].
    + right. split; [reflexivity|]. split; [exact Hu|].
      assert (Hs1 : dma_channels (dspi w1) = Some
                (upd (upd chans (chip_select spi)
                        (set_dma_rx_channel (s32 r1) (chans (chip_select spi))))
                   (chip_select spi)
                   (set_dma_tx_channel (s32 r2)
                      (set_dma_rx_channel (s32 r1)
                         (chans (chip_select spi))))))
        by (rewrite D1; reflexivity).
      destruct (proj2 (cleanup_cases D plat use_dma spi w1)
                  _ w2 Hu Hs1) as (_ & x & y & T2); [| exact Hcl |].
      * rewrite upd_same. split; simpl; lia.
      * rewrite upd_same in T2. simpl in T2.
        exists r1, r2, x, y. rewrite T2, T1, <- app_assoc. reflexivity.
Qed.

Lemma request_then_cleanup_witness :
  let w := scripted_world [] 0 [5; 6] [] in
  let w1 := res_world (@davinci_spi_request_dma sim sim_platform spi0 w) in
  let w2 := res_world (@davinci_spi_cleanup sim sim_platform 1 spi0 w1) in
  (0 = - EAGAIN /\ w2 = w1) \/
  (0 = 0 /\ 1 = 0 /\ w2 = w1) \/
  (0 = 0 /\ 1 <> 0 /\
   exists r1 r2 x y,
     trace w2 = trace w ++
       [EvCall (edma_alloc_channel 16 davinci_spi_dma_rx_callback 1) r1;
        EvCall (edma_alloc_channel 17 davinci_spi_dma_tx_callback 1) r2;
        EvCall (edma_free_channel (s32 r2)) x;
        EvCall (edma_free_channel (s32 r1)) y]).
Proof.
  apply (request_then_cleanup sim sim_platform 1 spi0
           (scripted_world [] 0 [5; 6] []) (fun _ => idle_dma) 0).
  - reflexivity.
  - split; reflexivity.
  - vm_compute. reflexivity.
  - vm_compute. reflexivity.
Defined.

(** ** Chip select *)

(** X14: [davinci_spi_chipselect] with a value other than
    [BITBANG_CS_INACTIVE] does nothing at all.  With that value, a call
    that returns has written the default-level register and then the
    command word carrying the default chip select field, nothing else, and
    the last thing it did was to read [SPIBUF] with the receive-empty flag
    set: it never returns while the flag is still clear. *)
Theorem chipselect_waits_for_empty :
  forall (hdr : SpiHeader) (more : SpiHeaderMore) (D : Type)
         (plat : Platform D) (fuel : nat) (spi : spi_device) (value : Z)
         (w : world D),
    (value <> BITBANG_CS_INACTIVE ->
     davinci_spi_chipselect fuel spi value w = Ok tt w) /\
    (forall w',
        davinci_spi_chipselect fuel spi BITBANG_CS_INACTIVE w = Ok tt w' ->
        dspi w' = dspi w /\
        (exists x,
            trace w' = trace w ++
              [EvWrite SPIDEF x;
               EvWrite SPIDAT1
                 (u32 (Z.shiftl CS_DEFAULT SPIDAT1_CSNR_SHIFT))]) /\
        (exists d0 v,
            ioread32 SPIBUF d0 = (v, dev w') /\
            tst (u32 v) SPIBUF_RXEMPTY_MASK = true)).
Proof.
  intros hdr more D plat fuel spi value w. split.
  - intros Hv. unfold davinci_spi_chipselect. apply Z.eqb_neq in Hv.
    rewrite Hv. reflexivity.
  - intros w' H. unfold davinci_spi_chipselect in H.
    rewrite Z.eqb_refl in H. cbv zeta in H.
    apply bind_ok in H as (u1 & w1 & S1 & H). destruct u1.
    apply set_io_bits_inv in S1 as (D1 & _ & x & T1).
    apply bind_ok in H as (u2 & w2 & W2 & H).
    unfold wr in W2. inversion W2; subst u2 w2; clear W2.
    apply spin_while_inv in H as (D3 & T3 & _ & _ & d0 & v & Hr & Hc).
    simpl in D3, T3.
    split; [congruence|]. split.
    + exists x. rewrite T3, T1, <- app_assoc. simpl.
      rewrite u32_idem. reflexivity.
    + exists d0, v. split; [exact Hr|]. unfold tst. rewrite Hc. reflexivity.
Qed.

Lemma chipselect_waits_for_empty_witness :
  @davinci_spi_chipselect davinci_header davinci_header_more sim sim_platform
    4 spi0 1 idle_world = Ok tt idle_world.
Proof.
  apply (proj1 (chipselect_waits_for_empty davinci_header davinci_header_more
                  sim sim_platform 4 spi0 1 idle_world)).
  discriminate.
Defined.

Example chipselect_inactive_polls :
  let w := scripted_world [0; 0; 0x80000000] 0 [] [] in
  (exists w', @davinci_spi_chipselect davinci_header davinci_header_more sim
                sim_platform 3 spi0 0 w = Ok tt w' /\
              writes (trace w') = [(0x4c, 0xFF); (0x3c, 0xFF0000)]) /\
  (exists w', @davinci_spi_chipselect davinci_header davinci_header_more sim
                sim_platform 2 spi0 0 w = Stop SpinForever w').
Proof. vm_compute. split; eexists; [split|]; reflexivity. Qed.

(** ** Interrupt handler *)

Section Irq.
Context {hdr : SpiHeader} {more : SpiHeaderMore} {D : Type}
  {plat : Platform D}.
Local Open Scope drv_scope.



End Irq.



(** Two pending words: both are stored, [SPIINT] is written 0xFFFFFCFF
    after each, and the handler reports [IRQ_HANDLED]. *)
Example irq_two_words :
  let w := mk_world (set_rx (Some O) idle_spi) [] [0; 0]
             (mk_flagdev [0x100; 0x100; 0] 0xAB) [] in
  let r := @davinci_spi_irq davinci_header davinci_header_more flagdev
             flag_platform 4 w in
  (exists w', r = Ok 1 w') /\ rx_mem (res_world r) = [0xAB; 0xAB] /\
  trace (res_world r) = [EvWrite 0x08 0xFFFFFCFF; EvWrite 0x08 0xFFFFFCFF].
Proof. vm_compute. repeat split. eexists. reflexivity. Qed.

(** ** Device setup *)

Section DeviceSetup.
Context {hdr : SpiHeader} {more : SpiHeaderMore} {D : Type}
  {plat : Platform D}.
Local Open Scope drv_scope.

Lemma fmt_writes_bind {A B} (a : Z) (n k : nat) (m : M D A)
  (f : A -> M D B) :
  fmt_writes a n m -> (forall x, fmt_writes a k (f x)) ->
  fmt_writes a (n + k) (bind m f).
Proof.
  intros Hm Hf w. destruct (Hm w) as (x & w1 & v1 & E1 & D1 & L1 & W1).
  destruct (Hf x w1) as (y & w2 & v2 & E2 & D2 & L2 & W2).
  exists y, w2, (v1 ++ v2). rewrite (bind_run _ _ _ _ _ E1).
  split; [exact E2|]. split; [congruence|].
  split; [rewrite length_app; lia|].
  rewrite W2, W1, map_app, <- app_assoc. reflexivity.
Qed.

Lemma fmt_writes_ret {A} (a : Z) (x : A) : fmt_writes a 0 (@ret D A x).
Proof.
  intros w. exists x, w, []. repeat split. simpl. rewrite app_nil_r.
  reflexivity.
Qed.

Lemma fmt_writes_set_io (a bits : Z) : fmt_writes a 1 (set_io_bits a bits).
Proof.
  intros w. unfold set_io_bits, bind, rd, wr.
  destruct (ioread32 a (dev w)) as [v d].
  eexists tt, _, [_]. split; [reflexivity|]. simpl.
  repeat split. rewrite writes_app. reflexivity.
Qed.

Lemma fmt_writes_clear_io (a bits : Z) : fmt_writes a 1 (clear_io_bits a bits).
Proof.
  intros w. unfold clear_io_bits, bind, rd, wr.
  destruct (ioread32 a (dev w)) as [v d].
  eexists tt, _, [_]. split; [reflexivity|]. simpl.
  repeat split. rewrite writes_app. reflexivity.
Qed.

Lemma fmt_writes_fmt_bit (c : bool) (mask cs : Z) :
  fmt_writes (SPIFMT0 + 0x4 * cs) 1 (fmt_bit c mask cs).
Proof.
  destruct c; [apply fmt_writes_set_io | apply fmt_writes_clear_io].
Qed.

(** With a rate that is not zero the divisor routine returns after two
    writes to the format register of the chip select. *)
Lemma calc_clk_div_writes (w : world D) :
  u32 (speed (dspi w)) <> 0 ->
  exists w' vals,
    davinci_spi_calc_clk_div w = Ok tt w' /\ dspi w' = dspi w /\
    length vals = 2%nat /\
    writes (trace w') =
    writes (trace w) ++
    map (fun v => (SPIFMT0 + 0x4 * cs_num (dspi w), v)) vals.
Proof.
  intros Hz.
  assert (Hp : exists p,
             calc_prescale (u32 (clk_get_rate (dev w)))
               (u32 (speed (dspi w))) = Some p).
  { unfold calc_prescale, prescale_round. apply Z.eqb_neq in Hz.
    rewrite Hz. eauto. }
  destruct Hp as (p & Hp).
  destruct (ioread32 (SPIFMT0 + 0x4 * cs_num (dspi w)) (dev w))
    as [v1 d1] eqn:R1.
  destruct (ioread32 (SPIFMT0 + 0x4 * cs_num (dspi w))
              (iowrite32 (u32 (Z.land (u32 v1) (Z.lnot 0x0000ff00)))
                 (SPIFMT0 + 0x4 * cs_num (dspi w)) d1)) as [v2 d2] eqn:R2.
  destruct (calc_clk_div_run w p v1 v2 d1 d2 Hp R1 R2) as (w' & E & W & Dd).
  exists w', [u32 (Z.land (u32 v1) (Z.lnot 0x0000ff00));
              u32 (Z.lor (u32 v2) (Z.shiftl p 8))].
  repeat split; assumption.
Qed.

(** What [davinci_spi_setup_transfer] returns. *)
Lemma setup_transfer_value (spi : spi_device) (t : option spi_transfer) :
  returns (davinci_spi_setup_transfer spi t)
    (fun _ r _ => r = 0 \/ r = - EINVAL).
Proof.
  set (Q := fun (r : Z) (_ : world D) => r = 0 \/ r = - EINVAL).
  unfold davinci_spi_setup_transfer. cbv zeta.
  destruct ((effective_bits_per_word spi t <=? 8)
            && (2 <=? effective_bits_per_word spi t));
    [|destruct ((effective_bits_per_word spi t <=? 16)
                && (2 <=? effective_bits_per_word spi t))].
  3: { intros w r w' [= <- _]. right. reflexivity. }
  all: repeat (simple apply (returns_last _ _ Q); intros ?).
  all: intros w r w' [= <- _]; left; reflexivity.
Qed.

(** With a width in range and a rate that is not zero, the transfer setup
    returns 0 after four writes to the format register of the chip
    select. *)
Lemma setup_transfer_writes (spi : spi_device) (t : option spi_transfer)
  (w : world D) :
  let b := effective_bits_per_word spi t in
  let hz := match t with Some t => u32 (speed_hz t) | None => 0 end in
  2 <= b <= 16 ->
  (if hz =? 0 then u32 (max_speed_hz spi) else hz) <> 0 ->
  exists w' vals,
    davinci_spi_setup_transfer spi t w = Ok 0 w' /\
    length vals = 4%nat /\
    writes (trace w') =
    writes (trace w) ++ map (fun v => (SPIFMT0 + 0x4 * chip_select spi, v)) vals.
Proof.
  intros b hz Hb Hhz. unfold davinci_spi_setup_transfer. fold b. fold hz.
  assert (Hc : (b <=? 8) && (2 <=? b) = true \/
               ((b <=? 8) && (2 <=? b) = false /\
                (b <=? 16) && (2 <=? b) = true)).
  { destruct (Z.leb_spec b 8); destruct (Z.leb_spec 2 b);
      destruct (Z.leb_spec b 16); simpl; auto; lia. }
  assert (Hu : u32 (if hz =? 0 then u32 (max_speed_hz spi) else hz) =
               (if hz =? 0 then u32 (max_speed_hz spi) else hz)).
  { destruct (hz =? 0); [apply u32_idem|].
    subst hz; destruct t; [apply u32_idem | reflexivity]. }
  destruct Hc as [H1 | [H1 H2]]; rewrite H1; [|rewrite H2].
  all: rewrite bind_assoc, !bind_modify.
  all: match goal with |- context [bind _ _ ?w0] => set (w1 := w0) end.
  all: destruct (fmt_writes_clear_io (SPIFMT0 + 0x4 * chip_select spi)
                   SPIFMT_CHARLEN_MASK w1) as ([] & w2 & v2 & E2 & D2 & L2 & W2).
  all: unfold clear_fmt_bits; rewrite (bind_run _ _ _ _ _ E2).
  all: destruct (fmt_writes_set_io (SPIFMT0 + 0x4 * chip_select spi)
                   (Z.land b 0x1f) w2) as ([] & w3 & v3 & E3 & D3 & L3 & W3).
  all: unfold set_fmt_bits at 1; rewrite (bind_run _ _ _ _ _ E3).
  all: destruct (calc_clk_div_writes w3) as (w4 & v4 & E4 & D4 & L4 & W4);
    [rewrite D3, D2; simpl; rewrite Hu; exact Hhz|].
  all: rewrite (bind_run _ _ _ _ _ E4); exists w4, (v2 ++ v3 ++ v4).
  all: split; [reflexivity|]. 
  all: split; [rewrite !length_app; lia|].
  all: rewrite W4, W3, W2, D3, D2, !map_app, <- !app_assoc; reflexivity.
Qed.

End DeviceSetup.

Section DeviceSetupRuns.
Context {hdr : SpiHeader} {more : SpiHeaderMore} {D : Type}
  {plat : Platform D}.
Local Open Scope drv_scope.

(** The mode part of [davinci_spi_setup] (lines 360-438): three writes to
    the format register of the chip select, and six more on
    [SPI_VERSION_2]. *)
Lemma setup_mode_block {A} (fp : davinci_spi_fmt_pdata) (spi : spi_device)
  (k : M D A) (w : world D) :
  let cs := chip_select spi in
  exists w' vals,
    (fmt_bit (tst (mode spi) SPI_LSB_FIRST) SPIFMT_SHIFTDIR_MASK cs ;;
     fmt_bit (tst (mode spi) SPI_CPOL) SPIFMT_POLARITY_MASK cs ;;
     fmt_bit (negb (tst (mode spi) SPI_CPHA)) SPIFMT_PHASE_MASK cs ;;
     v <- gets version ;;
     (if v =? SPI_VERSION_2 then
        clear_fmt_bits SPIFMT_WDELAY_MASK cs ;;
        set_fmt_bits (Z.land (Z.shiftl (u8 (wdelay fp)) SPIFMT_WDELAY_SHIFT)
                        SPIFMT_WDELAY_MASK) cs ;;
        fmt_bit (negb (u8 (odd_parity fp) =? 0)) SPIFMT_ODD_PARITY_MASK cs ;;
        fmt_bit (negb (u8 (parity_enable fp) =? 0)) SPIFMT_PARITYENA_MASK cs ;;
        fmt_bit (negb (u8 (wait_enable fp) =? 0)) SPIFMT_WAITENA_MASK cs ;;
        fmt_bit (negb (u8 (timer_disable fp) =? 0)) SPIFMT_DISTIMER_MASK cs
      else ret tt) ;;
     k) w = k w' /\
    dspi w' = dspi w /\
    length vals =
      (if version (dspi w) =? SPI_VERSION_2 then 9%nat else 3%nat) /\
    writes (trace w') =
    writes (trace w) ++ map (fun v => (SPIFMT0 + 0x4 * cs, v)) vals.
Proof.
  intros cs.
  destruct (fmt_writes_fmt_bit (tst (mode spi) SPI_LSB_FIRST)
              SPIFMT_SHIFTDIR_MASK cs w) as ([] & w1 & v1 & E1 & D1 & L1 & W1).
  destruct (fmt_writes_fmt_bit (tst (mode spi) SPI_CPOL)
              SPIFMT_POLARITY_MASK cs w1) as ([] & w2 & v2 & E2 & D2 & L2 & W2).
  destruct (fmt_writes_fmt_bit (negb (tst (mode spi) SPI_CPHA))
              SPIFMT_PHASE_MASK cs w2) as ([] & w3 & v3 & E3 & D3 & L3 & W3).
  rewrite (bind_run _ _ _ _ _ E1), (bind_run _ _ _ _ _ E2),
    (bind_run _ _ _ _ _ E3).
  rewrite (bind_run _ _ w3 (version (dspi w)) w3)
    by (unfold gets; rewrite D3, D2, D1; reflexivity).
  destruct (version (dspi w) =? SPI_VERSION_2).
  - assert (F : fmt_writes (SPIFMT0 + 0x4 * cs) (1 + (1 + (1 + (1 + (1 + 1)))))
                  (clear_fmt_bits SPIFMT_WDELAY_MASK cs ;;
                   set_fmt_bits
                     (Z.land (Z.shiftl (u8 (wdelay fp)) SPIFMT_WDELAY_SHIFT)
                        SPIFMT_WDELAY_MASK) cs ;;
                   fmt_bit (negb (u8 (odd_parity fp) =? 0))
                     SPIFMT_ODD_PARITY_MASK cs ;;
                   fmt_bit (negb (u8 (parity_enable fp) =? 0))
                     SPIFMT_PARITYENA_MASK cs ;;
                   fmt_bit (negb (u8 (wait_enable fp) =? 0))
                     SPIFMT_WAITENA_MASK cs ;;
                   fmt_bit (negb (u8 (timer_disable fp) =? 0))
                     SPIFMT_DISTIMER_MASK cs)).
    { apply fmt_writes_bind; [apply fmt_writes_clear_io | intros _].
      apply fmt_writes_bind; [apply fmt_writes_set_io | intros _].
      apply fmt_writes_bind; [apply fmt_writes_fmt_bit | intros _].
      apply fmt_writes_bind; [apply fmt_writes_fmt_bit | intros _].
      apply fmt_writes_bind; [apply fmt_writes_fmt_bit | intros _].
      apply fmt_writes_fmt_bit. }
    destruct (F w3) as ([] & w4 & v4 & E4 & D4 & L4 & W4).
    rewrite (bind_run _ _ _ _ _ E4).
    exists w4, (v1 ++ v2 ++ v3 ++ v4). split; [reflexivity|].
    split; [congruence|]. split; [rewrite !length_app; simpl in L4; lia|].
    rewrite W4, W3, W2, W1, !map_app, <- !app_assoc. reflexivity.
  - rewrite (bind_run _ _ w3 tt w3) by reflexivity.
    exists w3, (v1 ++ v2 ++ v3). split; [reflexivity|].
    split; [congruence|]. split; [rewrite !length_app; lia|].
    rewrite W3, W2, W1, !map_app, <- !app_assoc. reflexivity.
Qed.

(** The DMA part of [davinci_spi_setup] (lines 332-341). *)
Lemma setup_dma_part (use_dma : Z) (spi : spi_device) (w : world D)
  (c : option (Z -> davinci_spi_dma)) r w' :
  c = dma_channels (dspi w) ->
  (if negb (use_dma =? 0) && bool_decide (is_Some c) then
     d <- the_dma spi ;;
     if (dma_rx_channel d =? -1) || (dma_tx_channel d =? -1)
     then davinci_spi_request_dma spi
     else ret 0
   else ret 0) w = Ok r w' ->
  (r = 0 \/ r = - EAGAIN) /\
  frame (fun s s' => accessors s' = accessors s) not_write w w'.
Proof.
  intros Hc H. split.
  - destruct (negb (use_dma =? 0) && bool_decide (is_Some c)) eqn:Hcond.
    + apply andb_true_iff in Hcond as [_ Hs].
      apply bool_decide_eq_true in Hs as [chans Hs]. subst c.
      unfold the_dma in H.
      rewrite bind_assoc, (bind_run _ _ w (Some chans) w) in H
        by (unfold gets; rewrite <- Hs; reflexivity).
      rewrite (bind_run _ _ w (chans (chip_select spi)) w) in H
        by reflexivity.
      destruct ((dma_rx_channel (chans (chip_select spi)) =? -1)
                || (dma_tx_channel (chans (chip_select spi)) =? -1)).
      * destruct (request_dma_cases spi w chans r w' Hs H)
          as [(? & _ & -> & _) | [(? & ? & ? & _ & _ & -> & _)
                                   | (? & ? & _ & _ & -> & _)]]; auto.
      * injection H as <- _. auto.
    + injection H as <- _. auto.
  - match type of H with
    | ?m w = _ =>
        assert (K : keeps (@frame D (fun s s' => accessors s' = accessors s)
                             not_write) m) by (repeat kstep)
    end.
    specialize (K w). rewrite H in K. exact K.
Qed.

End DeviceSetupRuns.

(** X16: whenever [davinci_spi_setup] returns for a device whose
    [max_speed_hz] is below 600 kHz or above 50 MHz, and whenever it
    returns [-EAGAIN], it has written no register and left the word
    accessors as they were; the return value is then [-EINVAL] or
    [-EAGAIN]. *)
Theorem setup_fails_before_registers :
  forall (hdr : SpiHeader) (more : SpiHeaderMore) (D : Type)
         (plat : Platform D) (use_dma : Z) (fp : davinci_spi_fmt_pdata)
         (spi spi' : spi_device) (w : world D) (r : Z) (w' : world D),
    davinci_spi_setup use_dma fp spi w = Ok (r, spi') w' ->
    u32 (max_speed_hz spi) < 600000 \/ 50000000 < u32 (max_speed_hz spi) \/
    r = - EAGAIN ->
    writes (trace w') = writes (trace w) /\
    accessors (dspi w') = accessors (dspi w) /\
    (r = - EINVAL \/ r = - EAGAIN).
Proof.
  intros hdr more D plat use_dma fp spi spi' w r w' H Hcase.
  unfold davinci_spi_setup in H. cbv zeta in H.
  rewrite bind_modify in H.
  match type of H with
  | bind _ _ ?w0 = _ => set (w1 := w0) in H
  end.
  apply bind_ok in H as (c & w1' & Hg & H).
  unfold gets in Hg. inversion Hg; subst c w1'; clear Hg.
  apply bind_ok in H as (retval & w2 & Hdma & H).
  apply setup_dma_part in Hdma as (Hv & [Hacc (l & Hl & Hall)]);
    [|reflexivity].
  assert (W2 : writes (trace w2) = writes (trace w)).
  { rewrite Hl, writes_app, (writes_not_write l Hall). apply app_nil_r. }
  assert (A2 : accessors (dspi w2) = accessors (dspi w))
    by (rewrite Hacc; reflexivity).
  destruct (Z.ltb_spec retval 0) as [Hneg | Hpos].
  - unfold ret in H. inversion H; subst; clear H.
    split; [exact W2|]. split; [exact A2|].
    right. destruct Hv as [-> | ->]; [lia | reflexivity].
  - assert (Hm : u32 (max_speed_hz
                        (if u8 (bits_per_word spi) =? 0
                         then set_bits_per_word 8 spi else spi)) =
                 u32 (max_speed_hz spi))
      by (destruct (u8 (bits_per_word spi) =? 0); reflexivity).
    rewrite Hm in H.
    destruct ((u32 (max_speed_hz spi) <? 600000)
              || (50000000 <? u32 (max_speed_hz spi))) eqn:Hband.
    + unfold dev_dbg, emit, bind, ret in H. inversion H; subst; clear H.
      simpl. rewrite writes_app. simpl. rewrite app_nil_r.
      split; [exact W2|]. split; [exact A2|]. left. reflexivity.
    + exfalso.
      apply orb_false_iff in Hband as [B1 B2].
      apply Z.ltb_ge in B1, B2.
      destruct Hcase as [Hc | [Hc | Hc]]; [lia | lia |].
      do 5 (apply bind_ok in H as (? & ? & _ & H)).
      apply bind_ok in H as (rv & w7 & Hst & H).
      apply setup_transfer_value in Hst. cbv beta in Hst.
      unfold ret in H. inversion H; subst; clear H.
      destruct Hst as [Hst | Hst]; vm_compute in Hst; discriminate.
Qed.

Lemma setup_fails_before_registers_witness :
  let spi := mk_spi_device 0 0 8 100000 in
  let w' := res_world (@davinci_spi_setup davinci_header davinci_header_more
                         sim sim_platform 0 (mk_fmt_pdata 0 0 0 0 0) spi
                         idle_world) in
  writes (trace w') = writes (trace idle_world) /\
  accessors (dspi w') = accessors (dspi idle_world) /\
  (- EINVAL = - EINVAL \/ - EINVAL = - EAGAIN).
Proof.
  apply (setup_fails_before_registers davinci_header davinci_header_more sim
           sim_platform 0 (mk_fmt_pdata 0 0 0 0 0)
           (mk_spi_device 0 0 8 100000) (mk_spi_device 0 0 8 100000)
           idle_world (- EINVAL)).
  - vm_compute. reflexivity.
  - left. vm_compute. reflexivity.
Defined.

Section DeviceSetupTheorems.
Context {hdr : SpiHeader} {more : SpiHeaderMore} {D : Type}
  {plat : Platform D}.
Local Open Scope drv_scope.

(** [davinci_spi_setup] without the DMA request and with a rate inside the
    band goes through its mode part and hands over to the transfer setup. *)
Lemma setup_reaches_transfer_setup (use_dma : Z) (fp : davinci_spi_fmt_pdata)
  (spi : spi_device) (w : world D) :
  use_dma = 0 \/ dma_channels (dspi w) = None ->
  600000 <= u32 (max_speed_hz spi) <= 50000000 ->
  let spi' := if u8 (bits_per_word spi) =? 0
              then set_bits_per_word 8 spi else spi in
  exists w3 vals,
    davinci_spi_setup use_dma fp spi w =
      (retval <- davinci_spi_setup_transfer spi' None ;; ret (retval, spi')) w3 /\
    accessors (dspi w3) = accessors (dspi w) /\
    version (dspi w3) = version (dspi w) /\
    length vals =
      (if version (dspi w) =? SPI_VERSION_2 then 9%nat else 3%nat) /\
    writes (trace w3) =
    writes (trace w) ++ map (fun v => (SPIFMT0 + 0x4 * chip_select spi, v)) vals.
Proof.
  intros Hdma Hband spi'.
  assert (Hcs : chip_select spi' = chip_select spi)
    by (subst spi'; destruct (u8 (bits_per_word spi) =? 0); reflexivity).
  assert (Hmx : max_speed_hz spi' = max_speed_hz spi)
    by (subst spi'; destruct (u8 (bits_per_word spi) =? 0); reflexivity).
  assert (Hmd : mode spi' = mode spi)
    by (subst spi'; destruct (u8 (bits_per_word spi) =? 0); reflexivity).
  unfold davinci_spi_setup. cbv zeta. fold spi'. rewrite bind_modify.
  match goal with
  | |- context [bind (gets dma_channels) _ ?w0] => set (w1 := w0)
  end.
  rewrite (bind_run _ _ w1 (dma_channels (dspi w)) w1) by reflexivity.
  assert (Hcond : negb (use_dma =? 0)
                  && bool_decide (is_Some (dma_channels (dspi w))) = false).
  { destruct Hdma as [-> | ->]; [reflexivity|].
    apply andb_false_iff. right. apply bool_decide_eq_false.
    intros [? ?]. discriminate. }
  rewrite Hcond. rewrite (bind_run _ _ w1 0 w1) by reflexivity.
  change (0 <? 0) with false. cbv iota.
  rewrite Hmx.
  destruct (Z.ltb_spec (u32 (max_speed_hz spi)) 600000); [lia|].
  destruct (Z.ltb_spec 50000000 (u32 (max_speed_hz spi))); [lia|].
  cbv [orb]. rewrite Hmd.
  destruct (setup_mode_block fp spi'
              (retval <- davinci_spi_setup_transfer spi' None ;;
               ret (retval, spi')) w1) as (w3 & vals & E & D3 & L & W).
  rewrite Hmd in E. rewrite E.
  exists w3, vals. split; [reflexivity|]. rewrite D3. rewrite Hcs in W.
  repeat split; assumption.
Qed.

End DeviceSetupTheorems.

(** X17: with no DMA request to make, a [max_speed_hz] between 600 kHz
    and 50 MHz and a word width of 0 or within [2,16],
    [davinci_spi_setup] returns 0.  A width of 0 is replaced by 8.  It
    writes the format register of the chip select and no other register, 7
    times, or 13 times on [SPI_VERSION_2], and binds the 1-byte accessors
    for widths up to 8 and the 2-byte accessors above. *)
Theorem setup_programs_device :
  forall (hdr : SpiHeader) (more : SpiHeaderMore) (D : Type)
         (plat : Platform D) (use_dma : Z) (fp : davinci_spi_fmt_pdata)
         (spi : spi_device) (w : world D),
    use_dma = 0 \/ dma_channels (dspi w) = None ->
    600000 <= u32 (max_speed_hz spi) <= 50000000 ->
    let b0 := u8 (bits_per_word spi) in
    b0 = 0 \/ 2 <= b0 <= 16 ->
    let spi' := if b0 =? 0 then set_bits_per_word 8 spi else spi in
    exists w' vals,
      davinci_spi_setup use_dma fp spi w = Ok (0, spi') w' /\
      length vals =
        (if version (dspi w) =? SPI_VERSION_2 then 13%nat else 7%nat) /\
      writes (trace w') =
      writes (trace w) ++
      map (fun v => (SPIFMT0 + 0x4 * chip_select spi, v)) vals /\
      (b0 <= 8 ->
       accessors (dspi w') = (rx_buf_u8, tx_buf_u8) /\
       bytes_per_word (slave (dspi w') (chip_select spi)) = 1) /\
      (9 <= b0 ->
       accessors (dspi w') = (rx_buf_u16, tx_buf_u16) /\
       bytes_per_word (slave (dspi w') (chip_select spi)) = 2).
Proof.
  intros hdr more D plat use_dma fp spi w Hdma Hband b0 Hb spi'.
  destruct (setup_reaches_transfer_setup use_dma fp spi w Hdma Hband)
    as (w3 & vals & E & A3 & V3 & L & W).
  fold b0 in E. fold spi' in E. rewrite E.
  assert (Hcs : chip_select spi' = chip_select spi)
    by (subst spi'; destruct (b0 =? 0); reflexivity).
  assert (Heff : effective_bits_per_word spi' None =
                 if b0 =? 0 then 8 else b0).
  { unfold effective_bits_per_word. simpl. subst spi'.
    destruct (Z.eqb_spec b0 0); reflexivity. }
  assert (Hrange : 2 <= effective_bits_per_word spi' None <= 16).
  { rewrite Heff. destruct (Z.eqb_spec b0 0); lia. }
  assert (Hhz : (if 0 =? 0 then u32 (max_speed_hz spi') else 0) <> 0).
  { simpl. subst spi'. destruct (b0 =? 0); simpl; lia. }
  destruct (setup_transfer_writes spi' None w3 Hrange Hhz)
    as (w4 & v4 & E4 & L4 & W4).
  rewrite (bind_run _ _ _ _ _ E4).
  exists w4, (vals ++ v4). split; [reflexivity|].
  split; [rewrite length_app, L, L4;
          destruct (version (dspi w) =? SPI_VERSION_2); reflexivity|].
  split; [rewrite W4, W, Hcs, map_app, <- app_assoc; reflexivity|].
  pose proof (setup_transfer_binds spi' None w3) as B. cbv zeta in B.
  rewrite E4 in B. simpl in B. rewrite Hcs in B. unfold accessors. split.
  - intros Hle.
    destruct (B rx_buf_u8 tx_buf_u8 1) as (B1 & B2 & B3).
    + left. rewrite Heff. repeat split.
      destruct (Z.eqb_spec b0 0); [reflexivity|].
      destruct (Z.leb_spec b0 8); destruct (Z.leb_spec 2 b0); simpl;
        try reflexivity; lia.
    + rewrite B1, B2. split; [reflexivity | exact B3].
  - intros Hge.
    destruct (B rx_buf_u16 tx_buf_u16 2) as (B1 & B2 & B3).
    + right. rewrite Heff.
      destruct (Z.eqb_spec b0 0); [lia|].
      destruct (Z.leb_spec b0 8); destruct (Z.leb_spec 2 b0);
        destruct (Z.leb_spec b0 16); simpl; repeat split; try reflexivity;
        lia.
    + rewrite B1, B2. split; [reflexivity | exact B3].
Qed.

Lemma setup_programs_device_witness :
  let spi := mk_spi_device 0 0 0 1000000 in
  exists w' vals,
    @davinci_spi_setup davinci_header davinci_header_more sim sim_platform 0
      (mk_fmt_pdata 0 0 0 0 0) spi idle_world =
      Ok (0, set_bits_per_word 8 spi) w' /\
    length vals = 13%nat /\
    writes (trace w') =
    writes (trace idle_world) ++ map (fun v => (0x50 + 0x4 * 0, v)) vals /\
    (0 <= 8 ->
     accessors (dspi w') = (rx_buf_u8, tx_buf_u8) /\
     bytes_per_word (slave (dspi w') 0) = 1) /\
    (9 <= 0 ->
     accessors (dspi w') = (rx_buf_u16, tx_buf_u16) /\
     bytes_per_word (slave (dspi w') 0) = 2).
Proof.
  apply (setup_programs_device davinci_header davinci_header_more sim
           sim_platform 0 (mk_fmt_pdata 0 0 0 0 0)
           (mk_spi_device 0 0 0 1000000) idle_world).
  - left. reflexivity.
  - vm_compute. split; discriminate.
  - left. reflexivity.
Defined.

(** X18: with no DMA request to make and a rate inside the band, a word
    width of 1 or above 16 makes [davinci_spi_setup] return [-EINVAL] only
    after its mode part has written the format register of the chip
    select, 3 times, or 9 times on [SPI_VERSION_2]; the accessors stay as
    they were. *)
Theorem setup_rejects_width_after_mode_bits :
  forall (hdr : SpiHeader) (more : SpiHeaderMore) (D : Type)
         (plat : Platform D) (use_dma : Z) (fp : davinci_spi_fmt_pdata)
         (spi : spi_device) (w : world D),
    use_dma = 0 \/ dma_channels (dspi w) = None ->
    600000 <= u32 (max_speed_hz spi) <= 50000000 ->
    u8 (bits_per_word spi) = 1 \/ 16 < u8 (bits_per_word spi) ->
    exists w' vals,
      davinci_spi_setup use_dma fp spi w = Ok (- EINVAL, spi) w' /\
      length vals =
        (if version (dspi w) =? SPI_VERSION_2 then 9%nat else 3%nat) /\
      writes (trace w') =
      writes (trace w) ++
      map (fun v => (SPIFMT0 + 0x4 * chip_select spi, v)) vals /\
      accessors (dspi w') = accessors (dspi w).
Proof.
  intros hdr more D plat use_dma fp spi w Hdma Hband Hb.
  destruct (setup_reaches_transfer_setup use_dma fp spi w Hdma Hband)
    as (w3 & vals & E & A3 & V3 & L & W).
  assert (Hnz : (u8 (bits_per_word spi) =? 0) = false)
    by (apply Z.eqb_neq; lia).
  rewrite Hnz in E. rewrite E.
  assert (Hst : davinci_spi_setup_transfer spi None w3 = Ok (- EINVAL) w3).
  { unfold davinci_spi_setup_transfer, effective_bits_per_word. simpl.
    destruct (Z.leb_spec (u8 (bits_per_word spi)) 8);
      destruct (Z.leb_spec 2 (u8 (bits_per_word spi)));
      destruct (Z.leb_spec (u8 (bits_per_word spi)) 16); simpl;
      try reflexivity; lia. }
  rewrite (bind_run _ _ _ _ _ Hst).
  exists w3, vals. repeat split; assumption.
Qed.

Lemma setup_rejects_width_after_mode_bits_witness :
  let spi := mk_spi_device 0 0 17 1000000 in
  exists w' vals,
    @davinci_spi_setup davinci_header davinci_header_more sim sim_platform 0
      (mk_fmt_pdata 0 0 0 0 0) spi idle_world = Ok (- EINVAL, spi) w' /\
    length vals = 9%nat /\
    writes (trace w') =
    writes (trace idle_world) ++ map (fun v => (0x50 + 0x4 * 0, v)) vals /\
    accessors (dspi w') = accessors (dspi idle_world).
Proof.
  apply (setup_rejects_width_after_mode_bits davinci_header
           davinci_header_more sim sim_platform 0 (mk_fmt_pdata 0 0 0 0 0)
           (mk_spi_device 0 0 17 1000000) idle_world).
  - left. reflexivity.
  - vm_compute. split; discriminate.
  - right. vm_compute. reflexivity.
Defined.

(** ** The engine on the loop-back controller *)

Section LoopBack.
Local Open Scope drv_scope.
Local Existing Instance davinci_header.

Lemma lb_same_refl (w : world loopdev) : lb_same w w.
Proof. repeat split. Qed.

Lemma lb_same_trans (w1 w2 w3 : world loopdev) :
  lb_same w1 w2 -> lb_same w2 w3 -> lb_same w1 w3.
Proof. unfold lb_same. intuition congruence. Qed.

Lemma lb_same_state (bs : list Z) (k : nat) (w w' : world loopdev) :
  lb_state bs k w -> lb_same w w' -> lb_state bs k w'.
Proof.
  unfold lb_state, lb_same.
  intros (H1 & H2 & H3 & H4 & H5 & H6 & H7 & H8 & H9)
         (S1 & S2 & S3 & S4 & S5 & S6 & S7 & S8).
  rewrite S1, S2, S3, S4, S5, S6, S7, S8. repeat split; assumption.
Qed.

Lemma lands_bind {A B} (m : M loopdev A) (k : A -> M loopdev B)
  (w : world loopdev) (Q : B -> world loopdev -> Prop) :
  stays m ->
  (forall a w', m w = Ok a w' -> lb_same w w' -> lands (k a w') Q) ->
  lands (bind m k w) Q.
Proof.
  intros Hm Hk. destruct (Hm w) as (a & w' & E & S).
  rewrite (bind_run _ _ _ _ _ E). apply (Hk a w' E S).
Qed.

Lemma stays_bind {A B} (m : M loopdev A) (k : A -> M loopdev B) :
  stays m -> (forall a, stays (k a)) -> stays (bind m k).
Proof.
  intros Hm Hk w. destruct (Hm w) as (a & w1 & E & S).
  destruct (Hk a w1) as (b & w2 & E2 & S2).
  exists b, w2. rewrite (bind_run _ _ _ _ _ E).
  split; [exact E2 | exact (lb_same_trans _ _ _ S S2)].
Qed.

Lemma stays_ret {A} (a : A) : stays (ret a : M loopdev A).
Proof. intros w. exists a, w. split; [reflexivity | apply lb_same_refl]. Qed.

Lemma stays_gets {A} (f : davinci_spi -> A) : stays (gets f : M loopdev A).
Proof.
  intros w. exists (f (dspi w)), w. split; [reflexivity | apply lb_same_refl].
Qed.

Lemma loop_read_dev (addr : Z) (d : loopdev) : snd (loop_read addr d) = d.
Proof.
  unfold loop_read.
  destruct (addr =? SPIBUF); [reflexivity|].
  destruct (addr =? SPIFLG); reflexivity.
Qed.

Lemma lb_rd (addr : Z) (w : world loopdev) :
  rd addr w = Ok (u32 (fst (loop_read addr (dev w)))) w.
Proof.
  unfold rd. simpl. pose proof (loop_read_dev addr (dev w)) as H.
  destruct (loop_read addr (dev w)) as [v d]. simpl in *. subst d.
  destruct w; reflexivity.
Qed.

Lemma stays_rd (addr : Z) : stays (rd addr).
Proof.
  intros w. eexists _, w. split; [apply lb_rd | apply lb_same_refl].
Qed.

Lemma stays_wr (val addr : Z) :
  (addr =? SPIDAT1) = false -> stays (wr val addr).
Proof.
  intros H w. eexists tt, _. split; [reflexivity|].
  unfold lb_same. simpl. unfold loop_write. rewrite H. repeat split.
Qed.

Lemma stays_call (op : ext_op) : stays (call op).
Proof.
  intros w. eexists 0, _. split; [reflexivity | repeat split].
Qed.

Lemma stays_in_use (b : bool) : stays (assign_in_use b : M loopdev unit).
Proof.
  intros w. eexists tt, _. split; [reflexivity | repeat split].
Qed.

Lemma stays_set_io (addr bits : Z) :
  (addr =? SPIDAT1) = false -> stays (set_io_bits addr bits).
Proof.
  intros H. apply stays_bind; [apply stays_rd|]. intros v.
  apply stays_wr, H.
Qed.

Lemma stays_clear_io (addr bits : Z) :
  (addr =? SPIDAT1) = false -> stays (clear_io_bits addr bits).
Proof.
  intros H. apply stays_bind; [apply stays_rd|]. intros v.
  apply stays_wr, H.
Qed.

Lemma stays_bufs_prep (spi : spi_device) : stays (davinci_spi_bufs_prep spi).
Proof.
  unfold davinci_spi_bufs_prep. cbv zeta.
  apply stays_bind; [apply stays_wr; reflexivity|]. intros _.
  apply stays_bind; [|intros _; apply stays_ret].
  destruct (tst (mode spi) SPI_LOOP);
    [apply stays_set_io | apply stays_clear_io]; reflexivity.
Qed.

Lemma stays_write_delay : stays (write_delay : M loopdev unit).
Proof.
  apply stays_bind; [apply stays_gets|]. intros pd.
  apply stays_wr. reflexivity.
Qed.

Lemma stays_prime_cs (spi : spi_device) : stays (prime_cs spi).
Proof.
  apply stays_bind; [apply stays_gets|]. intros pd. cbv zeta.
  apply stays_bind; [apply stays_clear_io; reflexivity|]. intros _.
  apply stays_ret.
Qed.

Lemma lb_flags_clear (v : Z) :
  0 <= v < 2 ^ 16 ->
  Z.land v SPIBUF_TXFULL_MASK = 0 /\ Z.land v SPIBUF_RXEMPTY_MASK = 0.
Proof.
  intros H. rewrite <- (Z.mod_small v (2 ^ 16)) by lia.
  rewrite <- Z.land_ones by lia. rewrite <- !Z.land_assoc.
  split; apply Z.land_0_r.
Qed.

Lemma lb_command_word (d x : Z) :
  0 <= x < 2 ^ 16 ->
  Z.land (u32 (Z.lor (Z.land d (u32 (Z.lnot 0xFFFF))) (Z.land 0xFFFF x)))
    0xFFFF = x.
Proof.
  intros H. change 0xFFFF with (Z.ones 16).
  rewrite (Z.land_ones (u32 _)) by lia. unfold u32 at 1.
  rewrite Z.mod_mod_divide by (exists (2 ^ 16); reflexivity).
  rewrite <- Z.land_ones by lia. rewrite Z.land_lor_distr_l.
  rewrite <- Z.land_assoc.
  change (Z.land (u32 (Z.lnot (Z.ones 16))) (Z.ones 16)) with 0.
  rewrite Z.land_0_r, Z.lor_0_l.
  rewrite (Z.land_comm (Z.ones 16) x), <- Z.land_assoc, Z.land_diag.
  rewrite Z.land_ones by lia. apply Z.mod_small. exact H.
Qed.

Lemma u8_range (z : Z) : 0 <= u8 z < 2 ^ 8.
Proof. unfold u8. apply Z.mod_pos_bound. lia. Qed.

Lemma lb_get_tx (k : nat) (b : Z) (w : world loopdev) :
  tx (dspi w) = Some k -> get_tx (dspi w) = tx_buf_u8 ->
  tx_mem w !! k = Some b ->
  call_get_tx w =
  Ok (u8 b) (mk_world (set_tx (Some (k + 1)%nat) (dspi w)) (tx_mem w)
               (rx_mem w) (dev w) (trace w)).
Proof.
  intros Ht Hg Hb.
  unfold call_get_tx, davinci_spi_tx_buf_u8, bind, gets, load8, modify, ret.
  rewrite Hg, Ht, Hb. reflexivity.
Qed.

Lemma lb_get_rx (k : nat) (v : Z) (w : world loopdev) :
  rx (dspi w) = Some k -> get_rx (dspi w) = rx_buf_u8 ->
  (k < length (rx_mem w))%nat ->
  call_get_rx v w =
  Ok tt (mk_world (set_rx (Some (k + 1)%nat) (dspi w)) (tx_mem w)
           (<[k := u8 v]> (rx_mem w)) (dev w) (trace w)).
Proof.
  intros Hr Hg Hk.
  unfold call_get_rx, davinci_spi_rx_buf_u8, bind, gets, store8, modify.
  rewrite Hg, Hr. apply Nat.ltb_lt in Hk. rewrite Hk. reflexivity.
Qed.

Lemma lb_spin_once (f : nat) (addr : Z) (cond : Z -> bool)
  (w : world loopdev) :
  cond (u32 (fst (loop_read addr (dev w)))) = false ->
  spin_while (S f) addr cond w = Ok tt w.
Proof.
  intros H. simpl. rewrite (bind_run _ _ _ _ _ (lb_rd addr w)), H.
  reflexivity.
Qed.

Lemma lb_tx_iter (f : nat) (t : spi_transfer) (bs : list Z) (k : nat)
  (d c : Z) (w : world loopdev) :
  is_Some (rx_buf t) -> (k < length bs)%nat -> lb_state bs k w ->
  lands (pio_tx_iter (S f) t d c w)
    (fun p w' => snd p = s32 (c - 1) /\ lb_state bs (S k) w').
Proof.
  intros [rxs Hrx] Hk (H1 & H2 & H3 & H4 & H5 & H6 & H7 & H8 & H9).
  assert (Hb : exists b, tx_mem w !! k = Some b)
    by (apply lookup_lt_is_Some_2; rewrite H1; exact Hk).
  destruct Hb as [b Hb]. pose proof (u8_range b) as Hu.
  assert (Hfull : Z.land (u32 (fst (loop_read SPIBUF (dev w))))
                    SPIBUF_TXFULL_MASK = 0).
  { unfold loop_read. simpl. destruct (lb_word (dev w)) as [v|];
      [|reflexivity].
    unfold u32. rewrite Z.mod_small by lia. apply lb_flags_clear, H9. }
  unfold pio_tx_iter. cbv zeta. rewrite Hrx.
  rewrite (bind_run _ _ _ _ _ (lb_get_tx k b w H4 H6 Hb)).
  match goal with |- context [bind (rd SPIBUF) _ ?w0] => set (w1 := w0) end.
  rewrite (bind_run _ _ _ _ _ (lb_rd SPIBUF w1)).
  change (dev w1) with (dev w). rewrite Hfull. simpl (0 =? 0).
  cbv iota. rewrite bind_assoc.
  match goal with |- context [bind (wr ?v SPIDAT1) _ w1] =>
    set (cmd := v) end.
  rewrite (bind_run _ _ w1 tt
             (mk_world (dspi w1) (tx_mem w1) (rx_mem w1)
                (iowrite32 (u32 cmd) SPIDAT1 (dev w1))
                (trace w1 ++ [EvWrite SPIDAT1 (u32 cmd)]))) by reflexivity.
  match goal with |- lands (_ ?w0) _ => set (w2 := w0) end.
  assert (Hword : fst (loop_read SPIBUF (dev w2)) = u8 b).
  { subst w2 w1. simpl. unfold loop_write. simpl. subst cmd.
    apply lb_command_word. lia. }
  assert (Hrd : rd SPIBUF w2 = Ok (u8 b) w2).
  { rewrite lb_rd, Hword. unfold u32. rewrite Z.mod_small by lia.
    reflexivity. }
  rewrite (bind_run _ _ w2 (s32 (c - 1)) w2) by reflexivity.
  rewrite (bind_run _ _ w2 tt w2).
  2:{ apply lb_spin_once. rewrite Hword. unfold tst, u32.
      rewrite Z.mod_small by lia.
      destruct (lb_flags_clear (u8 b)) as [_ ->]; [lia | reflexivity]. }
  rewrite bind_assoc, (bind_run _ _ _ _ _ Hrd).
  rewrite (bind_run _ _ _ _ _ (lb_get_rx k (u8 b) w2 H5 H7 ltac:(simpl; lia))).
  eexists _, _. split; [reflexivity|]. split; [reflexivity|].
  unfold lb_state. simpl. unfold loop_write. simpl. subst cmd.
  rewrite lb_command_word by lia.
  rewrite length_insert, Nat.add_1_r.
  repeat split; try assumption; try lia.
  assert (Hm : map u8 bs !! k = Some (u8 b))
    by (rewrite list_lookup_fmap, <- H1, Hb; reflexivity).
  rewrite (take_S_r _ _ _ Hm).
  rewrite (take_S_r (<[k:=u8 (u8 b)]> (rx_mem w)) k (u8 (u8 b)))
    by (apply list_lookup_insert_eq; lia).
  rewrite take_insert_ge, H3 by lia.
  replace (u8 (u8 b)) with (u8 b) by (unfold u8; rewrite Z.mod_mod; lia).
  reflexivity.
Qed.

Lemma lands_seq {A B} (m : M loopdev A) (k : A -> M loopdev B)
  (w : world loopdev) (Q1 : A -> world loopdev -> Prop)
  (Q : B -> world loopdev -> Prop) :
  lands (m w) Q1 ->
  (forall a w', Q1 a w' -> lands (k a w') Q) ->
  lands (bind m k w) Q.
Proof.
  intros (a & w' & E & H1) Hk. rewrite (bind_run _ _ _ _ _ E).
  apply (Hk a w' H1).
Qed.

Lemma lb_tx_loop (f : nat) (t : spi_transfer) (bs : list Z) :
  is_Some (rx_buf t) -> Z.of_nat (length bs) < 2 ^ 31 ->
  forall (n k : nat) (d c : Z) (w : world loopdev),
    (k < length bs)%nat -> c = Z.of_nat (length bs - k) ->
    (length bs - k <= n)%nat -> lb_state bs k w ->
    lands (pio_tx_loop (S f) n t d c w)
      (fun _ w' => lb_state bs (length bs) w').
Proof.
  intros Hrx Hlen. induction n as [|n IH]; intros k d c w Hk Hc Hn Hst.
  - lia.
  - cbn [pio_tx_loop].
    apply (lands_seq _ _ _ _ _ (lb_tx_iter f t bs k d c w Hrx Hk Hst)).
    intros p w1 [Hp Hst1].
    rewrite s32_small in Hp by lia. rewrite Hp.
    destruct (Z.leb_spec (c - 1) 0) as [Hle|Hgt].
    + exists p, w1. split; [reflexivity|].
      replace (length bs) with (S k) by lia. exact Hst1.
    + apply (IH (S k)); [lia | lia | lia | exact Hst1].
Qed.

Lemma check_error_zero (v : Z) : davinci_spi_check_error v 0 = (0, None).
Proof.
  unfold davinci_spi_check_error, tst. rewrite !Z.land_0_l. simpl.
  destruct (_ <? _); reflexivity.
Qed.

Lemma lb_finish (t : spi_transfer) (conv : Z) (w : world loopdev) :
  lands (bufs_finish t conv w)
    (fun r w' => r = s32 (len t) /\ rx_mem w' = rx_mem w).
Proof.
  unfold bufs_finish. rewrite (bind_run _ _ _ _ _ (lb_rd SPIFLG w)).
  change (u32 (fst (loop_read SPIFLG (dev w)))) with 0.
  rewrite (bind_run _ _ w (version (dspi w)) w) by reflexivity.
  change (s32 0) with 0. rewrite check_error_zero.
  eexists _, _. split; [reflexivity|]. split; reflexivity.
Qed.

Lemma bind_cursors_run (spi : spi_device) (t : spi_transfer)
  (w : world loopdev) :
  u8 (bytes_per_word (slave (dspi w) (chip_select spi))) = 1 ->
  bind_cursors spi t w =
  Ok 1 (mk_world
          (set_count (s32 (u32 (len t) / 1))
             (set_rx (option_map (fun _ => O) (rx_buf t))
                (set_tx (option_map (fun _ => O) (tx_buf t)) (dspi w))))
          (default [] (tx_buf t)) (default [] (rx_buf t)) (dev w) (trace w)).
Proof.
  intros H. unfold bind_cursors, bind, load_bufs, modify, gets. simpl.
  rewrite H. reflexivity.
Qed.

Lemma lb_same_pre (bs : list Z) (w w' : world loopdev) :
  lb_state bs 0 w /\ lb_word (dev w) = None -> lb_same w w' ->
  lb_state bs 0 w' /\ lb_word (dev w') = None.
Proof.
  intros [H1 H2] S. split; [exact (lb_same_state _ _ _ _ H1 S)|].
  destruct S as (_ & _ & _ & _ & _ & _ & _ & ->). exact H2.
Qed.

End LoopBack.

(** X19: on a controller that loops every command word back, a
    full-duplex [davinci_spi_bufs_pio] transfer at one byte per word, with
    a spin budget of at least the number of words, returns the transfer
    length and leaves in the receive buffer exactly the bytes of the
    transmit buffer, each reduced to 8 bits. *)
Theorem bufs_pio_loop_back :
  forall (fuel : nat) (spi : spi_device) (t : spi_transfer)
         (bs rxs : list Z) (w : world loopdev),
    tx_buf t = Some bs -> rx_buf t = Some rxs ->
    length rxs = length bs -> len t = Z.of_nat (length bs) ->
    0 < len t < 2 ^ 31 -> (length bs <= fuel)%nat ->
    u8 (bytes_per_word (slave (dspi w) (chip_select spi))) = 1 ->
    get_tx (dspi w) = tx_buf_u8 -> get_rx (dspi w) = rx_buf_u8 ->
    lb_word (dev w) = None ->
    exists w',
      @davinci_spi_bufs_pio davinci_header loopdev loop_platform fuel spi t w
        = Ok (len t) w' /\
      rx_mem w' = map u8 bs.
Proof.
  intros fuel spi t bs rxs w Htx Hrx Hl Hlen Hpos Hfuel Hconv Hgt Hgr Hidle.
  destruct fuel as [|f]; [lia|].
  cut (lands (@davinci_spi_bufs_pio davinci_header loopdev loop_platform
                (S f) spi t w)
         (fun r w' => r = len t /\ rx_mem w' = map u8 bs)).
  { intros (r & w' & E & -> & H). exists w'. split; assumption. }
  unfold davinci_spi_bufs_pio.
  rewrite (bind_run _ _ _ _ _ (bind_cursors_run spi t w Hconv)).
  match goal with |- lands (bind _ _ ?w0) _ => set (w1 := w0) end.
  assert (Hp : lb_state bs 0 w1 /\ lb_word (dev w1) = None).
  { subst w1. unfold lb_state. simpl. rewrite Htx, Hrx. simpl.
    rewrite Z.div_1_r, Hidle, Hlen.
    unfold u32. rewrite Z.mod_small by lia. rewrite s32_small by lia.
    repeat split; assumption. }
  clearbody w1.
  apply lands_bind; [apply stays_bufs_prep|]. intros r w2 E Sm.
  apply (lb_same_pre _ _ _ Hp) in Sm. clear Hp. rename Sm into Hp.
  rewrite (bufs_prep_value spi w1 r w2 E). clear E w1. simpl negb. cbv iota.
  apply lands_bind; [apply stays_call|]. intros r1 w3 _ Sm.
  apply (lb_same_pre _ _ _ Hp) in Sm. clear Hp w2. rename Sm into Hp.
  apply lands_bind; [apply stays_in_use|]. intros r2 w4 _ Sm.
  apply (lb_same_pre _ _ _ Hp) in Sm. clear Hp w3. rename Sm into Hp.
  apply lands_bind; [apply stays_set_io; reflexivity|]. intros r3 w5 _ Sm.
  apply (lb_same_pre _ _ _ Hp) in Sm. clear Hp w4. rename Sm into Hp.
  apply lands_bind; [apply stays_write_delay|]. intros r4 w6 _ Sm.
  apply (lb_same_pre _ _ _ Hp) in Sm. clear Hp w5. rename Sm into Hp.
  rewrite (bind_run _ _ w6 (count (dspi w6)) w6) by reflexivity.
  apply lands_bind; [apply stays_prime_cs|]. intros d w7 _ Sm.
  assert (Hc : count (dspi w6) = Z.of_nat (length bs)) by apply Hp.
  rewrite Hc. clear Hc.
  apply (lb_same_pre _ _ _ Hp) in Sm. clear Hp w6. rename Sm into Hp.
  destruct Hp as [Hst Hw].
  rewrite (bind_run _ _ w7 tt w7).
  2:{ apply lb_spin_once. unfold loop_read. simpl. rewrite Hw. reflexivity. }
  rewrite Htx, !bind_assoc.
  apply lands_bind; [apply stays_clear_io; reflexivity|]. intros r5 w8 _ Sm.
  apply (lb_same_state _ _ _ _ Hst) in Sm. clear Hst Hw w7.
  rewrite bind_assoc.
  apply (lands_seq _ _ _ (fun _ w' => lb_state bs (length bs) w')).
  { apply (lb_tx_loop f t bs (ex_intro _ rxs Hrx) ltac:(lia) (S f) O);
      [lia | lia | lia | exact Sm]. }
  intros p w9 Hend.
  rewrite (bind_run _ _ w9 tt w9) by reflexivity.
  destruct (lb_finish t 1 w9) as (rf & w' & E & -> & Hm).
  exists (s32 (len t)), w'. split; [exact E|].
  split; [apply s32_small; lia|].
  rewrite Hm. destruct Hend as (_ & H2 & H3 & _).
  rewrite <- (take_ge (rx_mem w9) (length bs)) by lia.
  rewrite H3. apply take_ge. rewrite length_map. lia.
Qed.

Lemma bufs_pio_loop_back_witness :
  exists w',
    @davinci_spi_bufs_pio davinci_header loopdev loop_platform 2 spi0
      xfer_two_bytes (loop_world idle_spi) = Ok (len xfer_two_bytes) w' /\
    rx_mem w' = map u8 [0x12; 0x34].
Proof.
  apply (bufs_pio_loop_back 2 spi0 xfer_two_bytes [0x12; 0x34] [0; 0]
           (loop_world idle_spi)).
  - reflexivity.
  - reflexivity.
  - reflexivity.
  - reflexivity.
  - simpl. lia.
  - simpl. lia.
  - reflexivity.
  - reflexivity.
  - reflexivity.
  - reflexivity.
Defined.

(** X20: the 2-byte accessors are inverse to each other: a halfword
    fetched by [davinci_spi_tx_buf_u16] and handed to
    [davinci_spi_rx_buf_u16] stores the two bytes of the transmit buffer,
    reduced to 8 bits and in the same order, at the receive cursor; both
    cursors advance by 2 and the transmit buffer is not changed. *)
Theorem accessors_u16_round_trip :
  forall (D : Type) (w : world D) (i j : nat) (lo hi : Z),
    tx (dspi w) = Some i -> rx (dspi w) = Some j ->
    tx_mem w !! i = Some lo -> tx_mem w !! S i = Some hi ->
    (j + 1 < length (rx_mem w))%nat ->
    exists w',
      (data <- davinci_spi_tx_buf_u16 ;; davinci_spi_rx_buf_u16 data)%drv w
        = Ok tt w' /\
      rx_mem w' = <[S j := u8 hi]> (<[j := u8 lo]> (rx_mem w)) /\
      tx (dspi w') = Some (i + 2)%nat /\ rx (dspi w') = Some (j + 2)%nat /\
      tx_mem w' = tx_mem w.
Proof.
  intros D w i j lo hi Ht Hr Hlo Hhi Hj.
  pose proof (u8_range lo) as Rlo. pose proof (u8_range hi) as Rhi.
  assert (H16 : u16 (u8 lo + 2 ^ 8 * u8 hi) = u8 lo + 2 ^ 8 * u8 hi)
    by (unfold u16; apply Z.mod_small; lia).
  assert (Hl : u8 (u8 lo + 2 ^ 8 * u8 hi) = u8 lo).
  { unfold u8 at 1.
    replace (u8 lo + 2 ^ 8 * u8 hi) with (u8 lo + u8 hi * 2 ^ 8) by lia.
    rewrite Z.mod_add by lia. apply Z.mod_small. exact Rlo. }
  assert (Hh : u8 ((u8 lo + 2 ^ 8 * u8 hi) / 2 ^ 8) = u8 hi).
  { replace (u8 lo + 2 ^ 8 * u8 hi) with (u8 lo + u8 hi * 2 ^ 8) by lia.
    rewrite Z.div_add by lia.
    rewrite (Z.div_small (u8 lo)) by lia. rewrite Z.add_0_l.
    unfold u8. apply Z.mod_mod. lia. }
  apply Nat.ltb_lt in Hj.
  eexists. split.
  - unfold davinci_spi_tx_buf_u16, davinci_spi_rx_buf_u16, bind, gets,
      load16, store16, modify, ret.
    rewrite Ht, Hlo, Hhi. cbv beta iota.
    change (rx (dspi _)) with (rx (dspi w)). rewrite Hr. cbv beta iota.
    change (rx_mem _) with (rx_mem w) at 1. rewrite Hj, H16, Hl, Hh.
    reflexivity.
  - simpl. repeat split.
Qed.

Lemma accessors_u16_round_trip_witness :
  exists w',
    (data <- davinci_spi_tx_buf_u16 ;; davinci_spi_rx_buf_u16 data)%drv
      (mk_world (set_rx (Some O) (set_tx (Some O) idle_spi))
         [0x134; 0x56] [0; 0] idle_sim []) = Ok tt w' /\
    rx_mem w' = <[1%nat := u8 0x56]> (<[O := u8 0x134]> [0; 0]) /\
    tx (dspi w') = Some 2%nat /\ rx (dspi w') = Some 2%nat /\
    tx_mem w' = [0x134; 0x56].
Proof.
  apply (accessors_u16_round_trip sim
           (mk_world (set_rx (Some O) (set_tx (Some O) idle_spi))
              [0x134; 0x56] [0; 0] idle_sim []) O O 0x134 0x56);
    try reflexivity.
  simpl. lia.
Defined.
